(* ===== verification/_CoqProject ===== *)
-Q . S2P
Prelude.v
Js.v
Chunk.v
NodePath.v
NodeFs.v
Extract.v
Worker.v
Cluster.v
Sequential.v
Server.v
BatchSpec.v
ClusterOutputs.v
NodeDir.v
Entry.v
