(* ===== verification/Prelude.v ===== *)
(** * Verification of br-data/elasticsearch-import-tools

    The repository holds three Node scripts.  src/extract-multicore.js
    extracts the text of the PDF files of an input folder with Apache
    Tika (the [tika] module) on a [cluster] of processes: the master
    process lists and filters the files, computes a worker count and a
    partition ([chunkArray]) and forks the workers; every forked process
    runs the module again, lists the folder itself, recomputes the
    partition and extracts its batch with [async.each], saving each text
    as [outputFolder/<name>.txt] ([saveFile]) and exiting when done.
    src/extract.js does the same in one process, one file at a time
    (a pop-based recursion).  src/server.js is an Express service that
    forwards four kinds of search queries to Elasticsearch.

    ** Files, in dependency order
    - [Prelude]: this header, the notations of [js_scope] ([xs.[i]] for
      JavaScript indexing, [+ₛ] for string concatenation), the tactics
      [invc], [branch] and [decide_in], the hint databases [pdfx] and
      [pdfx_rw], the list and string lemmas the components share, the
      invariant principle [rtc_invariant] and the forward simulation
      diagram [simulation_rtc] (after CDF's [Simulation.v]).
    - [Js]: the ECMAScript built-ins the scripts call ([slice], [pop],
      [lastIndexOf], [substr], [search] with the scripts' two regular
      expressions), modelled from the language specification.
    - [Chunk]: Module [ChunkArray], the loop of [chunkArray] (fuel
      [chunk_fuel] = one more than the number of groups, proved enough),
      its reference [chunks_spec] and its divergence on chunk size 0;
      Module [Plan], [workerCount] ([Math.min]), [fileListBatches] and
      the batch [fileListBatches[id - 1]] as an option.
    - [NodePath]: POSIX [path.normalize] and [path.join] over string
      segments, the location [loc] a path names, the output name
      [fileName] ([substr(lastIndexOf('/') + 1)]) and [outputPath].
    - [NodeFs]: the file system as a [gmap loc entry] with
      [existsSync], [mkdirSync], [writeFileSync] and their errors, and the
      console lines both scripts print.
    - [Extract]: the code both scripts share: configuration
      ([configure], the [||] defaults of [init]), [ensure_output], the two
      filters of [readFiles], [saveFile] and the two [tika.text]
      callbacks.  The extraction service is the class [Tika].
    - [Worker]: a forked process as a state ([wstate]: file system,
      console, phase) and a step relation [wstep]: its start [boot]
      (its own [init], listing and plan, then [start_batch]), the
      completion of any pending callback ([complete], in any order, as
      [async.each] allows) and a spawn error ([handleError]).
    - [Cluster]: the whole system ([sys]: shared file system and
      console, the master's phase, the workers by cluster id) and
      [cstep], which interleaves the master's [master_boot] with the
      steps of every worker; [perm_listing] models node-dir returning the
      files in any order.
    - [Sequential]: src/extract.js: [recurse] with fuel (one call per
      file plus one, proved enough), [processFiles] and [main].
    - [Server]: src/server.js as a function [handle] from a request
      (method, path segments) to a response; Elasticsearch is the class
      [Elastic].
    - [BatchSpec]: the spec's batch contract (section 4.2) as two step
      relations: [ostep], the contract as the spec states it (extract
      the assigned files strictly in order, one at a time, then report),
      and [astep], the same contract without the order (extract and save
      any remaining file, then report once), which the multicore worker
      and [processFiles] refine.
    - [ClusterOutputs]: the composition of master, workers and shared
      file system: the invariant [out_inv] of every reachable state,
      which ties each output location to the file it receives.
    - [NodeDir]: node-dir's [dir.files] on that file system, from its
      documented behaviour: the files strictly below a folder
      ([files_under]), the paths it joins for them ([rel_path]) and
      the listings it may return in any order ([dir_listing]).
    - [Entry]: the command-line entry and the module interface of both
      scripts: the module-level variables ([module_state]), [init]'s
      assignments ([init_assign], [||] on each argument),
      [process.argv[2..5]] ([argv_args]), the [module.parent] guard
      ([entry]) and repeated calls of the exported [init]
      ([init_calls]).

    ** What the theorems show
    - Partition: [chunkArray_spec] (the loop terminates and equals the
      reference), [plan_prefix] (the batches the workers read hold the
      first [w * w] files) and [plan_partition_ok_iff] (exactly when the
      plan is a balanced partition of the files among the workers).
    - Cluster: [processed_in_prefix] (files past [w * w] are never
      processed), [listing_order_race] (independent
      listings make workers process the same files),
      [spawn_failure_drops_batch] (the batch of a worker that fails to
      spawn is processed by no one), [cstep_terminates]
      (with at least one CPU every interleaving is finite, by a
      lexicographic measure, and no process of a reachable state is
      hung in [chunkArray]) and
      [run_ends] (the states where no step is possible have every
      process finished) and [reachable_wf] (reachable states are well
      formed).
    - Whole cluster ([ClusterOutputs]): [worker_success_outputs] (a worker
      that exits with success has saved its batch, in the shared file
      system) and [cluster_all_outputs] (when all workers succeed, the
      first [w * w] files have their outputs).
    - Listings ([NodeDir]): [listing_stable] (the
      texts a cluster run saves never change the PDF files a listing of
      the input folder finds, and leave its listings as they were when
      the output folder is not inside it, so a worker that lists the
      folder late sees what the master saw).
    - Refinement ([BatchSpec]): [worker_not_in_order] (the multicore
      worker does not implement the contract as the spec states it: it
      can save the second file of its batch first, a state no in-order
      run reaches) and [sequential_refines_spec] ([processFiles]
      implements the relaxed contract [astep]).
    - Worker: [worker_outputs] (whatever the callback order, each file's
      text is saved at its output location, a failure leaving it as it
      was), with [output_collision] and [output_collision_race] (files
      with the same name in different folders overwrite each other) and
      [idle_workers_crash] (workers without a batch die with a
      TypeError).
    - Per file: the filters ([keep_multicore_iff],
      [keep_sequential_iff]: the sequential [/.*.pdf/] keeps every name
      with ["pdf"] after a non-terminator character), the failed
      extraction of the multicore callback
      ([on_extracted_multicore_fail]), [configure_language],
      [normalize_idempotent] and the round trip [fileName_join].
    - Sequential: [processFiles_spec] (termination, reverse order),
      [progress_counter_bounds] (the counter stays in [1..n]),
      [seq_spec_logs_errors] and [sequential_multicore_same_outputs]
      (same file system as a multicore worker).
    - Server: [handle_cors], [handle_search] (the exact search body each
      route sends), [handle_search_error] (the callback's error is
      ignored and the result answered with 200), [handle_not_found] and
      [match_route_iff].
    - End to end ([Entry]): [cli_multicore_outputs] and
      [cli_sequential_outputs] (from [node <script> IN OUT LANG] and the
      file system before the run, output folder missing or not, to the
      text at every [OUT/<name>.txt]; the sequential run terminates),
      [cli_multicore_frame] (the run writes nothing but [OUT] and the
      output files) and
      [init_twice] (calls of the exported [init] share the module
      variables: an argument left out keeps the previous call's value).

    ** Fuel and bounds
    Loops are [Fixpoint]s with fuel, [None] when it runs out: the
    [chunkArray] loop needs [ceil(n / k) + 1] rounds ([chunk_fuel]) and
    [recurse] [n + 1] calls; the theorems prove these amounts enough, so
    the models return a result.  Array lengths and indices are [nat]:
    the scripts' arrays and counters stay far below [2^53], where
    JavaScript numbers are exact.  [WHung] and [MHung] are the states of
    a process looping forever in [chunkArray] (chunk size 0).

    ** Not modelled
    The extraction service and Elasticsearch (external services; their
    results are the methods of the classes [Tika] and [Elastic]); the
    date in the sequential log lines; [app.listen] (I/O); Express's URL
    parsing (requests are given by their decoded
    segments).  [process.argv] is a list of strings and [module.parent]
    a boolean given to [Entry.entry].  The [_callback] of [init] is
    stored but never called by either script, so beyond its assignment
    it has no behaviour to model.  When extract-multicore.js is loaded
    as a module, [cluster.fork] runs the main script of the parent
    program in the workers, not this module's entry: that depends on
    the parent program and is not modelled; the cluster theorems are
    about runs from the command line.  The step relations take the
    listing of [dir.files] as a parameter rather than computing it from
    the current file system; [NodeDir.listing_stable] shows that the
    saved texts never change the PDF files a later listing finds, and
    leave the listings unchanged when the output folder is not inside
    the input folder.  node-dir's order is free ([perm_listing]); the
    theorems that need every process to see one order assume it
    ([same_listing]), and [listing_order_race] shows what happens
    otherwise. *)

From stdpp Require Export base list gmap strings relations.

(** ** Notations of the development *)

Declare Scope js_scope.
Delimit Scope js_scope with js.

(** [xs.[i]] is the JavaScript indexing [xs[i]]: out of range it is
    [undefined], which the development writes [None]. *)
Notation "xs .[ i ]" := (lookup (M:=list _) i xs)
  (at level 1, format "xs .[ i ]") : js_scope.

(** [a +ₛ b] is JavaScript string concatenation (also template
    literals such as [`${a}.txt`]). *)
Infix "+ₛ" := String.append (at level 60, right associativity) : js_scope.

Open Scope js_scope.

(** ** Tactics *)

Ltac invc H := inversion H; subst; clear H.

(** Case on every [if]/[match] of the goal and simplify the resulting
    equations; used for the branches of the modelled handlers. *)
Ltac branch := repeat (case_match; simplify_eq/=).

(** Decide a closed decidable proposition (membership, [NoDup]) by
    evaluation. *)
Ltac decide_in := apply (bool_decide_unpack _); vm_compute; reflexivity.

(** ** Hint database *)

Create HintDb pdfx.
Create Rewrite HintDb pdfx_rw.

(** ** Generic lemmas on lists *)

Section lists.
Context {A : Type}.
Implicit Types l : list A.

Lemma drop_nonempty_iff l i : i < length l <-> drop i l <> [].
Proof.
  split.
  - intros Hi Hd. apply drop_nil_inv in Hd. lia.
  - intros Hd. destruct (decide (i < length l)); [done|].
    exfalso. apply Hd, drop_ge. lia.
Qed.

Lemma take_drop_concat k l1 l2 :
  length l1 = k -> take k (l1 ++ l2) = l1 /\ drop k (l1 ++ l2) = l2.
Proof. intros <-. by rewrite take_app_length, drop_app_length. Qed.

Lemma concat_app_take_drop (ls : list (list A)) n :
  concat (take n ls) ++ concat (drop n ls) = concat ls.
Proof. by rewrite <- concat_app, take_drop. Qed.

Lemma elem_of_concat_iff (x : A) (ls : list (list A)) :
  x ∈ concat ls <-> exists l, l ∈ ls /\ x ∈ l.
Proof.
  rewrite list_elem_of_In, in_concat. setoid_rewrite list_elem_of_In. done.
Qed.

Lemma rev_replicate k (x : A) : rev (replicate k x) = replicate k x.
Proof.
  induction k as [|k IH]; [done|].
  by rewrite replicate_S, replicate_S_end at 1; cbn [rev]; rewrite IH.
Qed.
(** Deleting an index keeps the other elements and adds none. *)
Lemma delete_subseteq_elem (P : list A) i x : x ∈ delete i P -> x ∈ P.
Proof.
  revert i. induction P as [|y P IH]; intros [|i]; simpl; [done|done| |].
  - intros Hx. by right.
  - intros [->|Hx]%elem_of_cons; [by left|right; by eapply IH].
Qed.

Lemma elem_of_delete_ne (P : list A) i g x :
  P !! i = Some g -> x ∈ P -> x <> g -> x ∈ delete i P.
Proof.
  intros Hi Hx Hxg. pose proof (delete_Permutation P i g Hi) as HP.
  rewrite HP in Hx. by apply elem_of_cons in Hx as [?|?].
Qed.
(** [Array.prototype.filter] with a boolean test, as the scripts use
    it. *)
Lemma elem_of_List_filter (f : A -> bool) l x : x ∈ List.filter f l <-> x ∈ l /\ f x = true.
Proof. rewrite !list_elem_of_In. apply filter_In. Qed.

Lemma List_filter_Permutation (f : A -> bool) l l' :
  l ≡ₚ l' -> List.filter f l ≡ₚ List.filter f l'.
Proof.
  induction 1 as [|x l l' _ IH|x y l|l l' l'' _ IH1 _ IH2]; simpl.
  - done.
  - destruct (f x); [by constructor|done].
  - destruct (f x), (f y); try done; by constructor.
  - by etrans.
Qed.

Lemma List_filter_sublist (f : A -> bool) l : List.filter f l `sublist_of` l.
Proof.
  induction l as [|x l IH]; simpl; [constructor|].
  destruct (f x); [apply sublist_skip|apply sublist_cons]; exact IH.
Qed.
End lists.

(** ** Strings

    stdpp makes [String.append] opaque to [simpl]; these are its two
    defining equations, for rewriting. *)

Lemma str_app_nil_l (y : string) : ("" +ₛ y)%string = y.
Proof. done. Qed.

Lemma str_app_cons a (x y : string) : (String a x +ₛ y)%string = String a (x +ₛ y).
Proof. done. Qed.

Lemma list_ascii_of_string_app (x y : string) :
  String.list_ascii_of_string (x +ₛ y) =
    String.list_ascii_of_string x ++ String.list_ascii_of_string y.
Proof. induction x as [|a x IH]; [done|]. simpl. by rewrite IH. Qed.

Lemma str_length_app (x y : string) :
  String.length (x +ₛ y) = String.length x + String.length y.
Proof. induction x as [|a x IH]; [done|]. rewrite str_app_cons. simpl. by rewrite IH. Qed.

Lemma str_app_assoc (x y z : string) : (x +ₛ (y +ₛ z))%string = ((x +ₛ y) +ₛ z)%string.
Proof. induction x as [|a x IH]; [done|]. by rewrite !str_app_cons, IH. Qed.

(** A name ending in [".pdf"] does not end in [".txt"]. *)
Lemma str_suffix_pdf_txt (p q : string) : (p +ₛ ".pdf")%string <> (q +ₛ ".txt")%string.
Proof.
  intros H. apply (f_equal (fun s => rev (String.list_ascii_of_string s))) in H.
  rewrite !list_ascii_of_string_app, !rev_app_distr in H. discriminate H.
Qed.

(** Concatenation is injective on the left for a common suffix. *)
Lemma str_app_inv_r (x y s : string) : (x +ₛ s)%string = (y +ₛ s)%string -> x = y.
Proof.
  intros H. apply (f_equal String.list_ascii_of_string) in H.
  rewrite !list_ascii_of_string_app in H. apply app_inv_tail in H.
  rewrite <-(String.string_of_list_ascii_of_string x), <-(String.string_of_list_ascii_of_string y).
  by rewrite H.
Qed.

#[export] Hint Rewrite @length_app @length_take @length_drop @length_map
  @length_seq @drop_drop
  str_app_nil_l str_app_cons : pdfx_rw.

(** ** Invariants of a step relation *)

(** A property that holds initially and that every step preserves holds
    in every state a run reaches. *)
Lemma rtc_invariant {A} (R : relation A) (P : A -> Prop) x y :
  (forall a b, P a -> R a b -> P b) -> P x -> rtc R x y -> P y.
Proof. intros Hstep Hx Hr. induction Hr as [|a b c Hab _ IH]; [done|]. eauto. Qed.

(** ** Simulation diagrams

    A forward simulation in the style of CDF's [Simulation.v]: when every
    step of a concrete system is matched by one or more steps of an
    abstract one, preserving a relation between their states, every
    concrete run is matched by an abstract run. *)

Section simulation_diagram.
Context {C1 C2 : Type} (step1 : relation C1) (step2 : relation C2) (inv : C1 -> C2 -> Prop).

Hypothesis simulation :
  forall c1 c1', step1 c1 c1' -> forall c2, inv c1 c2 -> exists c2', tc step2 c2 c2' /\ inv c1' c2'.

Lemma simulation_rtc c1 c1' :
  rtc step1 c1 c1' -> forall c2, inv c1 c2 -> exists c2', rtc step2 c2 c2' /\ inv c1' c2'.
Proof.
  induction 1 as [c1|c1 c1m c1' Hs _ IH]; intros c2 Hinv; [by exists c2|].
  destruct (simulation _ _ Hs _ Hinv) as (c2m & Hp & Hinvm).
  destruct (IH _ Hinvm) as (c2' & Hr & Hinv').
  exists c2'. split; [|done]. etrans; [by apply tc_rtc|done].
Qed.
End simulation_diagram.
