(* ===== verification/Js.v ===== *)
(** * The JavaScript built-ins the scripts call

    [Array.prototype.slice], [Math.min], [String.prototype.lastIndexOf],
    [String.prototype.substr] and [String.prototype.search] with the two
    regular expressions of the sources ([/\.pdf$/] in
    src/extract-multicore.js, [/.*.pdf/] in src/extract.js).  These are
    ECMAScript library semantics, not code of the repository; the
    repository's own functions that use them are in the later files.
    Strings are [string] (ASCII characters): the model does not represent
    UTF-16 code units beyond ASCII, so the line terminators U+2028 and
    U+2029 of the ECMAScript [.] are out of reach of the model. *)

From S2P Require Import Prelude.
From Stdlib Require Import ZArith Ascii String.

Open Scope js_scope.

(** ** Arrays *)

(** [arr.slice(b, e)] with non-negative [b], [e]: the elements of indices
    [b <= i < e] that exist (both bounds are clamped to the length). *)
Definition slice {A} (arr : list A) (b e : nat) : list A :=
  take (e - b) (drop b arr).

(** [arr.pop()]: the last element and the array without it ([None] is
    [undefined], for an empty array). *)
Definition pop {A} (arr : list A) : option (A * list A) :=
  match rev arr with
  | [] => None
  | x :: r => Some (x, rev r)
  end.

Lemma pop_snoc {A} (arr : list A) x : pop (arr ++ [x]) = Some (x, arr).
Proof. unfold pop. rewrite rev_app_distr. simpl. by rewrite rev_involutive. Qed.

(** ** Strings *)

(** [s.lastIndexOf(c)] for a one-character argument: the greatest index
    of [c] in [s], [-1] when there is none. [acc] is the last index seen
    so far, [i] the index of the head of [s]. *)
Fixpoint last_index_from (c : ascii) (s : string) (i : nat) (acc : Z) : Z :=
  match s with
  | EmptyString => acc
  | String a s' =>
      last_index_from c s' (S i) (if Ascii.eqb a c then Z.of_nat i else acc)
  end.

Definition lastIndexOf (s : string) (c : ascii) : Z := last_index_from c s 0 (-1).

(** [String.substring] on [nat]: drop the first [n] characters. *)
Fixpoint str_drop (n : nat) (s : string) : string :=
  match n, s with
  | O, _ => s
  | S _, EmptyString => EmptyString
  | S n', String _ s' => str_drop n' s'
  end.

(** [s.substr(start)] (Annex B): a negative start counts from the end,
    clamped at [0]; the one-argument form keeps the rest of the string. *)
Definition substr (s : string) (start : Z) : string :=
  let size := Z.of_nat (String.length s) in
  let k := if (start <? 0)%Z then Z.max (size + start) 0 else Z.min start size in
  str_drop (Z.to_nat k) s.

(** ** Regular-expression search *)

(** [s.search(re)] for a regular expression whose match at a position
    depends only on the rest of the string from that position (true of
    both expressions of the sources, which have no look-behind): the
    least position whose suffix matches, [-1] when there is none.  The
    empty suffix at position [length s] is tried last, as ECMAScript
    does. *)
Fixpoint search_from (m : string -> bool) (s : string) (i : nat) : Z :=
  if m s then Z.of_nat i
  else match s with
       | EmptyString => (-1)%Z
       | String _ s' => search_from m s' (S i)
       end.

Definition search (m : string -> bool) (s : string) : Z := search_from m s 0.

(** The ECMAScript line terminators representable in ASCII: [.] matches
    every character but these. *)
Definition is_line_terminator (c : ascii) : bool :=
  Ascii.eqb c "010"%char || Ascii.eqb c "013"%char.

(** A match of [/\.pdf$/] at a position: the rest of the string is
    exactly [".pdf"] ([$] without the [m] flag is the end of input). *)
Definition match_pdf_anchored (t : string) : bool := String.eqb t ".pdf".

(** A match of [/.*.pdf/] at a position: some characters that are not
    line terminators (the [.*]), one more (the [.]), then ["pdf"]. *)
Fixpoint match_pdf_loose (t : string) : bool :=
  match t with
  | EmptyString => false
  | String c rest =>
      negb (is_line_terminator c) &&
      (String.prefix "pdf" rest || match_pdf_loose rest)
  end.

(** ** Facts *)

(** [search] finds a match exactly when some suffix matches. *)
Lemma search_from_nonneg_iff m s i :
  (0 <= search_from m s i)%Z <-> exists p t, s = (p +ₛ t)%string /\ m t = true.
Proof.
  revert i. induction s as [|a s IH]; intros i; simpl.
  - destruct (m "") eqn:E; split.
    + intros _. by exists "", "".
    + lia.
    + lia.
    + intros ([|? ?] & t & Hs & Ht); [|done]. rewrite str_app_nil_l in Hs. subst. congruence.
  - destruct (m (String a s)) eqn:E.
    + split; [intros _; by exists "", (String a s)|lia].
    + rewrite IH. split.
      * intros (p & t & -> & Ht). by exists (String a p), t.
      * intros ([|b p] & t & Hs & Ht).
        { rewrite str_app_nil_l in Hs. subst. congruence. }
        injection Hs as -> ->. by exists p, t.
Qed.

Lemma search_nonneg_iff m s :
  (search m s > -1)%Z <-> exists p t, s = (p +ₛ t)%string /\ m t = true.
Proof. unfold search. rewrite <-(search_from_nonneg_iff m s 0). split; lia. Qed.
