(* ===== verification/Chunk.v ===== *)
(** * [chunkArray] of src/extract-multicore.js (lines 134-144)

    The loop [for (let i = 0; i < arr.length; i += chunkSize)
    groups.push(arr.slice(i, i + chunkSize))] as a function with fuel
    ([None]: the loop has not finished within the fuel), its reference
    ("group [j] is [arr.slice(j*k, j*k+k)] for [j] below the ceiling of
    [n/k]"), the equivalence of the two, termination for a positive chunk
    size, divergence for chunk size [0], and the shape of the groups:
    their number, sizes and concatenation. *)

From S2P Require Import Prelude Js.

Module ChunkArray.
Section chunk.
Context {A : Type}.
Implicit Types (arr : list A) (groups : list (list A)).

(** The loop body and guard; [i] is the loop variable, [groups] the
    array that [groups.push] extends at its end. *)
Fixpoint chunk_loop (fuel : nat) arr (chunkSize i : nat) groups
    : option (list (list A)) :=
  match fuel with
  | O => None
  | S fuel' =>
      if decide (i < length arr)
      then chunk_loop fuel' arr chunkSize (i + chunkSize)
             (groups ++ [slice arr i (i + chunkSize)])
      else Some groups
  end.

(** [chunkArray(arr, chunkSize)]: [const groups = []], the loop from
    [i = 0], [return groups]. *)
Definition chunkArray (fuel : nat) arr (chunkSize : nat) : option (list (list A)) :=
  chunk_loop fuel arr chunkSize 0 [].

(** Number of groups: the ceiling of [n / k]. *)
Definition ceil_div (n k : nat) : nat := (n + k - 1) `div` k.

(** The reference: group [j] is [arr.slice(j*k, j*k + k)]. *)
Definition group arr (k j : nat) : list A := slice arr (j * k) (j * k + k).

Definition chunks_spec arr (k : nat) : list (list A) :=
  group arr k <$> seq 0 (ceil_div (length arr) k).

(** Fuel that suffices: one iteration per group and the final test. *)
Definition chunk_fuel arr (k : nat) : nat := S (ceil_div (length arr) k).
End chunk.

(** ** Arithmetic of the ceiling *)

Lemma lt_ceil_div n k j : 0 < k -> j * k < n <-> j < ceil_div n k.
Proof.
  intros Hk. unfold ceil_div.
  pose proof (Nat.div_mod (n + k - 1) k ltac:(lia)) as Hdm.
  pose proof (Nat.mod_upper_bound (n + k - 1) k ltac:(lia)) as Hr.
  set (q := (n + k - 1) `div` k) in *. set (r := (n + k - 1) `mod` k) in *.
  split; intros H; nia.
Qed.

Lemma ceil_div_0_l k : ceil_div 0 k = 0.
Proof.
  destruct k as [|k]; [done|]. unfold ceil_div.
  apply Nat.div_small. lia.
Qed.

Lemma ceil_div_pos_inv n k : 0 < ceil_div n k -> 0 < n.
Proof. destruct n; [rewrite ceil_div_0_l|]; lia. Qed.

Lemma ceil_div_pos n k : 0 < k -> 0 < n -> 0 < ceil_div n k.
Proof. intros Hk Hn. apply (lt_ceil_div n k 0); lia. Qed.

Lemma ceil_div_eq_iff n k m :
  0 < k -> 0 < m -> ceil_div n k = m <-> (m - 1) * k < n /\ n <= m * k.
Proof.
  intros Hk Hm. pose proof (lt_ceil_div n k (m - 1) Hk).
  pose proof (lt_ceil_div n k m Hk). lia.
Qed.

(** [ceil_div n k] groups of [k] elements cover at least [n] elements,
    one group fewer does not. *)
Lemma ceil_div_bounds n k :
  0 < k -> 0 < n -> (ceil_div n k - 1) * k < n <= ceil_div n k * k.
Proof.
  intros Hk Hn. pose proof (ceil_div_pos n k Hk Hn).
  split.
  - apply lt_ceil_div; lia.
  - destruct (decide (ceil_div n k * k < n)) as [Hlt|]; [|lia].
    apply (lt_ceil_div n k) in Hlt; lia.
Qed.

Section chunk_facts.
Context {A : Type}.
Implicit Types (arr : list A) (groups : list (list A)).

(** ** The loop computes the reference *)

(** Loop invariant: after [j] iterations, [i = j * k] and [groups]
    holds the first [j] reference groups. *)
Lemma chunk_loop_spec arr k j fuel :
  0 < k -> j <= ceil_div (length arr) k ->
  ceil_div (length arr) k - j < fuel ->
  chunk_loop fuel arr k (j * k) (group arr k <$> seq 0 j) =
    Some (chunks_spec arr k).
Proof.
  intros Hk. revert j. induction fuel as [|fuel IH]; intros j Hj Hf; [lia|].
  cbn [chunk_loop]. case_decide as Hi.
  - apply lt_ceil_div in Hi; [|done].
    assert (group arr k <$> seq 0 (S j) =
            (group arr k <$> seq 0 j) ++ [slice arr (j * k) (j * k + k)]) as Hg
      by (rewrite seq_S, fmap_app; done).
    rewrite <-Hg, <-(IH (S j)) by lia. do 2 f_equal. lia.
  - assert (j = ceil_div (length arr) k) as ->.
    { destruct (decide (j < ceil_div (length arr) k)) as [Hlt|]; [|lia].
      apply lt_ceil_div in Hlt; lia. }
    done.
Qed.

(** C16: Termination and equivalence: with a positive chunk size, the loop
    ends within [chunk_fuel] iterations, with the reference groups, and
    more fuel gives the same result. *)
Lemma chunkArray_spec arr k fuel :
  0 < k -> chunk_fuel arr k <= fuel -> chunkArray fuel arr k = Some (chunks_spec arr k).
Proof.
  intros Hk Hf. apply (chunk_loop_spec arr k 0 fuel Hk); unfold chunk_fuel in *; lia.
Qed.

(** C17: With chunk size [0] the loop variable never moves: on a non-empty
    array the loop runs forever, whatever the fuel. *)
Lemma chunk_loop_stuck arr i groups fuel :
  i < length arr -> chunk_loop fuel arr 0 i groups = None.
Proof.
  revert groups. induction fuel as [|fuel IH]; intros groups Hi; [done|].
  cbn [chunk_loop]. rewrite decide_True by done. rewrite Nat.add_0_r. by apply IH.
Qed.

(** ** Shape of the groups *)

Lemma length_group arr k j :
  length (group arr k j) = k `min` (length arr - j * k).
Proof. unfold group, slice. rewrite length_take, length_drop. lia. Qed.

Lemma chunks_spec_nil k : chunks_spec (@nil A) k = [].
Proof. unfold chunks_spec. cbn [length]. by rewrite ceil_div_0_l. Qed.

Lemma length_chunks_spec arr k : length (chunks_spec arr k) = ceil_div (length arr) k.
Proof. unfold chunks_spec. by rewrite length_fmap, length_seq. Qed.

Lemma lookup_chunks_spec arr k j :
  (chunks_spec arr k).[j] =
    if decide (j < ceil_div (length arr) k) then Some (group arr k j) else None.
Proof.
  unfold chunks_spec. rewrite list_lookup_fmap.
  case_decide; [by rewrite lookup_seq_lt|by rewrite lookup_seq_ge by lia].
Qed.

(** The first [m] groups hold exactly the first [m * k] elements. *)
Lemma concat_groups arr k m :
  concat (group arr k <$> seq 0 m) = take (m * k) arr.
Proof.
  induction m as [|m IH]; [done|].
  rewrite seq_S, fmap_app, concat_app, IH. cbn. rewrite app_nil_r.
  unfold group, slice. replace (m * k + k - m * k) with k by lia.
  rewrite take_take_drop. f_equal. lia.
Qed.

(** Each of the first [m] groups lies in the first [m * k] elements. *)
Lemma group_in_prefix arr k m j x :
  j < m -> x ∈ group arr k j -> x ∈ take (m * k) arr.
Proof.
  intros Hj Hx. rewrite <-concat_groups, elem_of_concat_iff.
  exists (group arr k j). split; [|done].
  apply list_elem_of_fmap_2, elem_of_seq. lia.
Qed.

Lemma elem_of_group arr k j x :
  x ∈ group arr k j <-> exists p, p < k /\ arr !! (j * k + p) = Some x.
Proof.
  unfold group, slice. replace (j * k + k - j * k) with k by lia.
  rewrite list_elem_of_lookup. setoid_rewrite lookup_take_Some.
  setoid_rewrite lookup_drop. naive_solver.
Qed.

(** The groups of a list without duplicates are pairwise disjoint. *)
Lemma group_disjoint arr k i j x :
  NoDup arr -> x ∈ group arr k i -> x ∈ group arr k j -> i = j.
Proof.
  intros Hnd (p & Hp & Hi)%elem_of_group (q & Hq & Hj)%elem_of_group.
  pose proof (NoDup_lookup arr _ _ x Hnd Hi Hj) as He.
  destruct (Nat.lt_trichotomy i j) as [Hlt|[|Hlt]]; [|done|]; exfalso.
  - assert (i * k + k <= j * k) by nia. lia.
  - assert (j * k + k <= i * k) by nia. lia.
Qed.

Lemma concat_take_chunks_spec arr k m :
  0 < k -> concat (take m (chunks_spec arr k)) = take (m * k) arr.
Proof.
  intros Hk. unfold chunks_spec. rewrite <-fmap_take, take_seq, concat_groups.
  destruct (decide (m <= ceil_div (length arr) k)).
  - by rewrite Nat.min_l.
  - destruct (decide (length arr = 0)) as [Hn|Hn].
    + by rewrite !take_ge by lia.
    + pose proof (ceil_div_bounds (length arr) k Hk ltac:(lia)).
      rewrite Nat.min_r by lia. by rewrite !take_ge by nia.
Qed.

(** Totality: with a positive chunk size the groups concatenate back to
    the array. *)
Lemma concat_chunks_spec arr k : 0 < k -> concat (chunks_spec arr k) = arr.
Proof.
  intros Hk. rewrite <-(take_ge (chunks_spec arr k) (ceil_div (length arr) k))
    by (rewrite length_chunks_spec; lia).
  rewrite concat_take_chunks_spec by done.
  destruct (decide (length arr = 0)) as [Hn|Hn].
  - by rewrite take_ge by lia.
  - pose proof (ceil_div_bounds (length arr) k Hk ltac:(lia)). by rewrite take_ge by lia.
Qed.

(** ** Balance of the groups *)

(** The spec's balance requirement on a plan: any two batches differ in
    size by at most one. *)
Definition balanced (plan : list (list A)) : Prop :=
  forall i j bi bj, plan.[i] = Some bi -> plan.[j] = Some bj ->
    length bi <= S (length bj).

(** All groups are full but the last, which holds the
    [n - (c - 1) * k] remaining elements: the groups are balanced
    exactly when there is one group or the last one lacks at most one
    element. *)
Lemma chunks_balanced_iff arr k :
  0 < k ->
  balanced (chunks_spec arr k) <->
  ceil_div (length arr) k <= 1 \/
  k <= S (length arr - (ceil_div (length arr) k - 1) * k).
Proof.
  intros Hk. set (n := length arr). set (c := ceil_div n k).
  unfold balanced. setoid_rewrite lookup_chunks_spec. fold n c.
  split.
  - intros Hb. destruct (decide (c <= 1)) as [|Hc]; [by left|right].
    pose proof (ceil_div_pos_inv n k ltac:(lia)).
    pose proof (ceil_div_bounds n k Hk ltac:(lia)).
    specialize (Hb 0 (c - 1) (group arr k 0) (group arr k (c - 1))).
    rewrite !decide_True in Hb by lia.
    specialize (Hb eq_refl eq_refl). rewrite !length_group in Hb. fold n c in Hb.
    assert (k <= (c - 1) * k /\ c * k = (c - 1) * k + k) by nia. lia.
  - intros Hc i j bi bj Hi Hj.
    destruct (decide (i < c)); [|done]. destruct (decide (j < c)); [|done].
    simplify_eq. rewrite !length_group. fold n.
    destruct Hc as [Hc|Hc]; [assert (i = 0 /\ j = 0) as [-> ->] by lia; lia|].
    assert (j * k <= (c - 1) * k) by nia. lia.
Qed.
End chunk_facts.

(** ** Instances *)

Lemma chunkArray_spec_witness :
  chunkArray 4 [1; 2; 3; 4; 5] 2 = Some [[1; 2]; [3; 4]; [5]].
Proof. rewrite (chunkArray_spec [1; 2; 3; 4; 5] 2 4); [reflexivity|lia|vm_compute; lia]. Defined.

Lemma chunk_loop_stuck_witness : chunkArray 100 [1] 0 = None.
Proof. apply (chunk_loop_stuck [1] 0 [] 100). simpl. lia. Defined.

Lemma chunks_balanced_iff_witness :
  ~ balanced (chunks_spec [1; 2; 3; 4; 5] 4).
Proof.
  rewrite (chunks_balanced_iff [1; 2; 3; 4; 5] 4 ltac:(lia)). vm_compute. lia.
Defined.
End ChunkArray.

(** * The partition plan of [prepareCluster] (src/extract-multicore.js,
      lines 71-93) *)

Module Plan.
Import ChunkArray.
Section plan.
Context {A : Type}.
Implicit Types (files : list A) (plan : list (list A)).

(** [const workerCount = Math.min(os.cpus().length, fileList.length)] *)
Definition workerCount (cpus : nat) files : nat := cpus `min` length files.

(** [const fileListBatches = chunkArray(fileList, workerCount)]: the
    worker count is passed as the chunk {e size}. *)
Definition fileListBatches (fuel cpus : nat) files : option (list (list A)) :=
  chunkArray fuel files (workerCount cpus files).

Definition plan_fuel (cpus : nat) files : nat := chunk_fuel files (workerCount cpus files).

(** The batch a worker reads, [fileListBatches[cluster.worker.id - 1]]
    ([None] is [undefined]); cluster ids start at 1. *)
Definition batch_of plan (id : nat) : option (list A) := plan.[id - 1].

(** The spec's contract for a partition plan (spec section 3 and
    section 8, properties 1 and 2): one batch per worker, the batches
    concatenate to the file list, sizes differ by at most one. *)
Definition partition_ok (w : nat) files plan : Prop :=
  length plan = w /\ concat plan = files /\ balanced plan.
End plan.

Section plan_facts.
Context {A : Type}.
Implicit Types (files : list A) (plan : list (list A)).

Lemma workerCount_pos cpus files :
  0 < cpus -> files <> [] -> 0 < workerCount cpus files.
Proof. intros Hc Hf. unfold workerCount. destruct files; [done|]. simpl. lia. Qed.

(** With at least one CPU the plan is computed, and it is the
    reference chunking with chunk size [workerCount]. *)
Lemma fileListBatches_spec cpus files fuel :
  0 < cpus -> plan_fuel cpus files <= fuel ->
  fileListBatches fuel cpus files = Some (chunks_spec files (workerCount cpus files)).
Proof.
  intros Hc Hf. destruct files as [|f files].
  - unfold plan_fuel, chunk_fuel in Hf.
    rewrite chunks_spec_nil. destruct fuel; [lia|done].
  - apply (chunk_loop_spec _ _ 0); [by apply workerCount_pos|lia|].
    unfold plan_fuel, chunk_fuel in Hf. lia.
Qed.

(** Lookups in the plan: worker [id] (from 1) has a batch exactly when
    [id] is at most the number of groups, [ceil_div n w]. *)
Lemma batch_of_chunks files w id :
  1 <= id ->
  batch_of (chunks_spec files w) id =
    if decide (id <= ceil_div (length files) w)
    then Some (group files w (id - 1)) else None.
Proof.
  intros Hid. unfold batch_of. rewrite lookup_chunks_spec.
  by repeat case_decide; try lia.
Qed.

(** What the workers [1..w] can reach of the plan: its first [w]
    groups, that is the first [w * w] files. *)
Lemma plan_prefix cpus files :
  0 < cpus ->
  concat (take (workerCount cpus files) (chunks_spec files (workerCount cpus files))) =
    take (workerCount cpus files * workerCount cpus files) files.
Proof.
  intros Hc. destruct files as [|f files].
  - by rewrite chunks_spec_nil, !take_nil.
  - apply concat_take_chunks_spec, workerCount_pos; [done|discriminate].
Qed.

Lemma plan_count_iff cpus files :
  0 < cpus -> 0 < length files ->
  let w := workerCount cpus files in
  ceil_div (length files) w = w <-> (w - 1) * w < length files <= w * w.
Proof.
  intros Hc Hn w. apply ceil_div_eq_iff; unfold w, workerCount; lia.
Qed.

(** C15: The plan meets the spec's partition contract exactly when there is
    at most one file, or there are more files [n] than CPUs [p] and
    [p * p - 1 <= n <= p * p]. *)
Lemma plan_partition_ok_iff cpus files :
  0 < cpus ->
  partition_ok (workerCount cpus files) files
    (chunks_spec files (workerCount cpus files)) <->
  length files <= 1 \/
  (cpus < length files /\ cpus * cpus <= S (length files) /\ length files <= cpus * cpus).
Proof.
  intros Hc. unfold partition_ok.
  destruct (decide (length files = 0)) as [Hn|Hn].
  { apply length_zero_iff_nil in Hn as ->. rewrite chunks_spec_nil.
    split; intros _; [left; cbn; lia|].
    split_and!; [unfold workerCount; cbn; lia|done|].
    intros i j bi bj Hi. by rewrite lookup_nil in Hi. }
  pose proof (workerCount_pos cpus files Hc ltac:(by destruct files)) as Hw.
  pose proof (plan_count_iff cpus files Hc ltac:(lia)) as Hcount.
  rewrite length_chunks_spec, concat_chunks_spec, chunks_balanced_iff by done.
  revert Hw Hcount. unfold workerCount.
  set (n := length files). set (w := cpus `min` n).
  intros Hw Hcount. split.
  - intros (Hcw & _ & Hbal). rewrite Hcw in Hbal. apply Hcount in Hcw.
    destruct (decide (cpus < n)).
    + assert (w = cpus) as Hwc by lia. rewrite Hwc in Hcw, Hbal.
      right. destruct Hbal; nia.
    + assert (w = n) as Hwn by lia. rewrite Hwn in Hcw. left. nia.
  - intros Hcase. assert (Hcw : (w - 1) * w < n <= w * w).
    { destruct Hcase as [Hle|(Hlt & Hlo & Hhi)].
      - assert (w = 1) as -> by lia. lia.
      - assert (w = cpus) as -> by lia. nia. }
    apply Hcount in Hcw as Heq. split_and!; [done|done|]. rewrite Heq.
    destruct Hcase as [Hle|(Hlt & Hlo & Hhi)]; [left; lia|right].
    assert (w = cpus) as -> by lia. nia.
Qed.
End plan_facts.

(** ** Instances *)

(** Five files on two CPUs: two workers, three batches [[a;b];[c;d];[e]];
    the workers reach the first four files only. *)
Lemma plan_prefix_witness :
  concat (take (workerCount 2 ["a"; "b"; "c"; "d"; "e"])
            (chunks_spec ["a"; "b"; "c"; "d"; "e"] (workerCount 2 ["a"; "b"; "c"; "d"; "e"])))
  = ["a"; "b"; "c"; "d"].
Proof. rewrite (plan_prefix 2 ["a"; "b"; "c"; "d"; "e"]); [reflexivity|lia]. Defined.

(** Three files on four CPUs: one batch of three, not three batches of
    one; five files on four CPUs: batches of four and one. Fifteen files
    on four CPUs meet the contract. *)
Lemma plan_partition_ok_iff_witness :
  ~ partition_ok (workerCount 4 [1; 2; 3]) [1; 2; 3]
      (chunks_spec [1; 2; 3] (workerCount 4 [1; 2; 3])) /\
  partition_ok (workerCount 4 (seq 0 15)) (seq 0 15)
    (chunks_spec (seq 0 15) (workerCount 4 (seq 0 15))).
Proof.
  split.
  - rewrite (plan_partition_ok_iff 4 [1; 2; 3]) by lia. simpl. lia.
  - apply (plan_partition_ok_iff 4 (seq 0 15)); [lia|]. simpl. lia.
Defined.
End Plan.
