(* ===== verification/NodePath.v ===== *)
(** * Paths: Node's [path.join]/[path.normalize] and the output name

    Node's POSIX [path.normalize] and [path.join] (library code, modelled
    from their documented algorithm: split on ['/'], drop empty and ["."]
    segments, let [".."] pop the previous segment, keep leading [".."]
    only for relative paths, keep the leading and trailing separators),
    the location a normalized path denotes, and the output path of
    [extractText] (src/extract-multicore.js lines 104-107,
    src/extract.js lines 96-99):
    [path.join(outputFolder, `${fileName}.txt`)] with
    [fileName = filePath.substr(filePath.lastIndexOf('/') + 1)]. *)

From S2P Require Import Prelude Js.
From Stdlib Require Import ZArith Ascii String.

Open Scope js_scope.

Module NodePath.

(** ** Splitting and joining on a separator *)

(** [s.split(c)]: never empty; [n] separators give [n + 1] pieces. *)
Fixpoint split_sep (c : ascii) (s : string) : list string :=
  match s with
  | EmptyString => [EmptyString]
  | String a s' =>
      let r := split_sep c s' in
      if Ascii.eqb a c then EmptyString :: r
      else match r with
           | x :: r' => String a x :: r'
           | [] => [String a EmptyString]
           end
  end.

(** [segs.join(c)]. *)
Fixpoint join_sep (c : ascii) (segs : list string) : string :=
  match segs with
  | [] => EmptyString
  | [x] => x
  | x :: r => x +ₛ String c (join_sep c r)
  end.

Definition slash : ascii := "/".

(** ** [normalizeString] as a stack of segments *)

(** One segment of [normalizeString(path, allowAboveRoot)]; [stack] holds
    the segments kept so far, the last one first. *)
Definition norm_step (allowAboveRoot : bool) (stack : list string) (seg : string)
    : list string :=
  if String.eqb seg "" || String.eqb seg "." then stack
  else if String.eqb seg ".." then
    match stack with
    | top :: rest =>
        if String.eqb top ".." then (if allowAboveRoot then ".." :: stack else stack)
        else rest
    | [] => if allowAboveRoot then [".."] else []
    end
  else seg :: stack.

Definition normalizeString (allowAboveRoot : bool) (segs : list string) : list string :=
  rev (fold_left (norm_step allowAboveRoot) segs []).

Definition is_absolute (p : string) : bool :=
  match p with String c _ => Ascii.eqb c slash | EmptyString => false end.

Fixpoint ends_with_slash (p : string) : bool :=
  match p with
  | EmptyString => false
  | String c EmptyString => Ascii.eqb c slash
  | String _ p' => ends_with_slash p'
  end.

(** [path.normalize(p)] *)
Definition normalize (p : string) : string :=
  if String.eqb p "" then "."
  else
    let isAbs := is_absolute p in
    let trailing := ends_with_slash p in
    let body := join_sep slash (normalizeString (negb isAbs) (split_sep slash p)) in
    if String.eqb body "" then (if isAbs then "/" else if trailing then "./" else ".")
    else (if isAbs then "/" else "") +ₛ body +ₛ (if trailing then "/" else "").

(** [path.join(a, b)]: the non-empty arguments joined by ['/'], then
    normalized; ["."] when both are empty. *)
Definition join (a b : string) : string :=
  match String.eqb a "", String.eqb b "" with
  | true, true => "."
  | true, false => normalize b
  | false, true => normalize a
  | false, false => normalize (a +ₛ String slash b)
  end.

(** ** Locations *)

(** What a path names in the file system: absolute or relative to the
    working directory, and its normalized segments. *)
Record loc := Loc { loc_abs : bool; loc_segs : list string }.

#[export] Instance loc_eq_dec : EqDecision loc.
Proof. solve_decision. Defined.

#[export] Instance loc_countable : Countable loc.
Proof.
  apply (inj_countable' (fun l => (loc_abs l, loc_segs l)) (fun p => Loc p.1 p.2)).
  by intros [].
Defined.

Definition loc_of (p : string) : loc :=
  Loc (is_absolute p) (normalizeString (negb (is_absolute p)) (split_sep slash p)).

(** The directory that holds a location ([None] for the root and the
    working directory themselves). *)
Definition loc_parent (l : loc) : option loc :=
  match loc_segs l with
  | [] => None
  | segs => Some (Loc (loc_abs l) (removelast segs))
  end.

Lemma loc_parent_snoc a segs n : loc_parent (Loc a (segs ++ [n])) = Some (Loc a segs).
Proof.
  unfold loc_parent. simpl. rewrite <-(removelast_last segs n) at 2.
  destruct (segs ++ [n]) eqn:E; [by destruct segs|]. done.
Qed.

(** ** The output path of [extractText] *)

(** [filePath.substr(filePath.lastIndexOf('/') + 1)] *)
Definition fileName (filePath : string) : string :=
  substr filePath (lastIndexOf filePath slash + 1).

(** [path.join(outputFolder, `${fileName}.txt`)] *)
Definition outputPath (outputFolder filePath : string) : string :=
  join outputFolder (fileName filePath +ₛ ".txt").

(** ** Splitting and joining *)

Fixpoint has_char (c : ascii) (s : string) : bool :=
  match s with
  | EmptyString => false
  | String a s' => Ascii.eqb a c || has_char c s'
  end.

Lemma split_sep_nonempty c s : split_sep c s <> [].
Proof. destruct s as [|a s]; simpl; [done|]. case_match; [done|]. by case_match. Qed.

(** Splitting a concatenation at a separator splits both sides. *)
Lemma split_sep_app c x y :
  split_sep c (x +ₛ String c y) = split_sep c x ++ split_sep c y.
Proof.
  induction x as [|a x IH]; simpl.
  - by rewrite Ascii.eqb_refl.
  - rewrite IH. case_match; [done|].
    destruct (split_sep c x) eqn:E; [by destruct (split_sep_nonempty c x)|done].
Qed.

Lemma split_sep_no_char c s : has_char c s = false -> split_sep c s = [s].
Proof.
  induction s as [|a s IH]; simpl; [done|].
  intros [-> Hs]%orb_false_iff. by rewrite IH.
Qed.

(** Round trip: joining pieces that hold no separator, then splitting,
    gives the pieces back. *)
Lemma split_join c segs :
  segs <> [] -> Forall (fun s => has_char c s = false) segs ->
  split_sep c (join_sep c segs) = segs.
Proof.
  induction segs as [|x segs IH]; intros Hne Hall; [done|].
  apply Forall_cons in Hall as [Hx Hall].
  destruct segs as [|y segs].
  - by apply split_sep_no_char.
  - change (join_sep c (x :: y :: segs)) with (x +ₛ String c (join_sep c (y :: segs))).
    rewrite split_sep_app, split_sep_no_char, IH by done. done.
Qed.

(** Round trip the other way: joining the pieces of a split gives the
    string back. *)
Lemma join_split c s : join_sep c (split_sep c s) = s.
Proof.
  induction s as [|a s IH]; simpl; [done|].
  destruct (Ascii.eqb_spec a c) as [->|Hne].
  - destruct (split_sep c s) as [|x r] eqn:E; [by destruct (split_sep_nonempty c s)|].
    change (join_sep c (EmptyString :: x :: r)) with (String c (join_sep c (x :: r))).
    by rewrite IH.
  - destruct (split_sep c s) as [|x r] eqn:E; [by destruct (split_sep_nonempty c s)|].
    destruct r as [|y r]; [by rewrite <-IH|].
    change (join_sep c (x :: y :: r)) with (x +ₛ String c (join_sep c (y :: r))) in IH.
    change (join_sep c (String a x :: y :: r))
      with (String a x +ₛ String c (join_sep c (y :: r))).
    by rewrite <-IH.
Qed.

Lemma split_sep_no_char_all c s : Forall (fun x => has_char c x = false) (split_sep c s).
Proof.
  induction s as [|a s IH]; simpl; [by repeat constructor|].
  destruct (Ascii.eqb_spec a c) as [->|Hne]; [by constructor|].
  destruct (split_sep c s) as [|x r] eqn:E; [by destruct (split_sep_nonempty c s)|].
  apply Forall_cons in IH as [Hx Hr]. constructor; [|done].
  simpl. apply orb_false_iff. split; [by apply Ascii.eqb_neq|done].
Qed.

(** ** The shape of [normalizeString]'s result *)

(** A segment that [normalizeString] keeps as it is. *)
Definition plain_seg (s : string) : Prop :=
  s <> "" /\ s <> "." /\ s <> ".." /\ has_char slash s = false.

(** Leading [".."] (only when going above the root is allowed), then
    plain segments. *)
Definition normal_segs (allow : bool) (segs : list string) : Prop :=
  exists k rest, segs = replicate k ".." ++ rest /\ Forall plain_seg rest /\
                 (allow = false -> k = 0).

Lemma normal_last_dotdot k rest l :
  Forall plain_seg rest -> replicate k ".." ++ rest = l ++ [".."] -> rest = [].
Proof.
  destruct rest as [|x rest _] using rev_ind; intros Hp Heq; [done|].
  rewrite app_assoc in Heq. apply app_inj_tail in Heq as [_ ->].
  apply Forall_app in Hp as [_ [(_ & _ & Hx & _) _]%Forall_cons]. done.
Qed.

Lemma norm_step_normal allow stack seg :
  has_char slash seg = false -> normal_segs allow (rev stack) ->
  normal_segs allow (rev (norm_step allow stack seg)).
Proof.
  intros Hseg (k & rest & Hst & Hrest & Hk). unfold norm_step.
  destruct (String.eqb_spec seg ""), (String.eqb_spec seg "."); simpl;
    try (exists k, rest; done).
  destruct (String.eqb_spec seg "..") as [->|Hdd].
  - destruct stack as [|top st]; simpl in *.
    + destruct allow; [exists 1, []|exists 0, []]; done.
    + destruct (String.eqb_spec top "..") as [->|Htop].
      * pose proof (normal_last_dotdot k rest _ Hrest (eq_sym Hst)) as ->.
        destruct allow; [|exists k, []; done].
        exists (S k), []. cbn [rev]. rewrite Hst, !app_nil_r, replicate_S_end. done.
      * destruct rest as [|r rest' _] using rev_ind.
        { exfalso. rewrite app_nil_r in Hst. destruct k as [|k].
          - by destruct (rev st).
          - rewrite replicate_S_end in Hst. apply app_inj_tail in Hst as [_ ?]. done. }
        rewrite app_assoc in Hst. apply app_inj_tail in Hst as [Hst _].
        exists k, rest'. apply Forall_app in Hrest as [? _]. done.
  - exists k, (rest ++ [seg]). simpl. rewrite Hst, app_assoc.
    split_and!; [done| |done]. apply Forall_app; split; [done|]. by repeat constructor.
Qed.

Lemma fold_norm_step_normal allow segs stack :
  Forall (fun s => has_char slash s = false) segs -> normal_segs allow (rev stack) ->
  normal_segs allow (rev (fold_left (norm_step allow) segs stack)).
Proof.
  revert stack. induction segs as [|x segs IH]; intros stack Hall Hst; [done|].
  apply Forall_cons in Hall as [Hx Hall]. simpl. apply IH; [done|].
  by apply norm_step_normal.
Qed.

Lemma normalizeString_normal allow p :
  normal_segs allow (normalizeString allow (split_sep slash p)).
Proof.
  apply fold_norm_step_normal; [apply split_sep_no_char_all|]. by exists 0, [].
Qed.

(** ** [normalizeString] leaves a normal list unchanged *)

Lemma norm_step_plain allow stack seg :
  plain_seg seg -> norm_step allow stack seg = seg :: stack.
Proof.
  intros (H1 & H2 & H3 & _). unfold norm_step.
  destruct (String.eqb_spec seg ""), (String.eqb_spec seg "."),
    (String.eqb_spec seg ".."); done.
Qed.

Lemma fold_norm_step_plain allow rest stack :
  Forall plain_seg rest -> fold_left (norm_step allow) rest stack = rev rest ++ stack.
Proof.
  revert stack. induction rest as [|x rest IH]; intros stack Hall; [done|].
  apply Forall_cons in Hall as [Hx Hall]. simpl.
  rewrite norm_step_plain, IH by done. by rewrite <-app_assoc.
Qed.

Lemma fold_norm_step_dotdot k j :
  fold_left (norm_step true) (replicate k "..") (replicate j "..") = replicate (k + j) "..".
Proof.
  revert j. induction k as [|k IH]; intros j; [done|].
  simpl. replace (norm_step true (replicate j "..") "..") with (replicate (S j) "..")
    by (destruct j; done).
  by rewrite IH, Nat.add_succ_r.
Qed.

Lemma normalizeString_fix allow segs :
  normal_segs allow segs -> normalizeString allow segs = segs.
Proof.
  intros (k & rest & -> & Hrest & Hk). unfold normalizeString. rewrite fold_left_app.
  assert (fold_left (norm_step allow) (replicate k "..") [] = replicate k "..") as ->.
  { destruct k as [|k]; [done|]. destruct allow; [|by specialize (Hk eq_refl)].
    pose proof (fold_norm_step_dotdot (S k) 0) as Hd. rewrite Nat.add_0_r in Hd.
    exact Hd. }
  rewrite fold_norm_step_plain by done.
  by rewrite rev_app_distr, rev_involutive, rev_replicate.
Qed.

Lemma normalizeString_cons_empty allow segs :
  normalizeString allow ("" :: segs) = normalizeString allow segs.
Proof. done. Qed.

Lemma normalizeString_snoc_empty allow segs :
  normalizeString allow (segs ++ [""]) = normalizeString allow segs.
Proof. unfold normalizeString. by rewrite fold_left_app. Qed.

(** Every segment of a normal list is non-empty and holds no separator. *)
Definition seg_ok (s : string) : Prop := s <> "" /\ has_char slash s = false.

Lemma normal_seg_ok allow segs : normal_segs allow segs -> Forall seg_ok segs.
Proof.
  intros (k & rest & -> & Hrest & _). apply Forall_app. split.
  - apply Forall_replicate. done.
  - eapply Forall_impl; [done|]. intros x (? & _ & _ & ?). done.
Qed.

(** ** Strings built from normal segments *)

Lemma append_empty_inv x y : x +ₛ y = "" -> x = "" /\ y = "".
Proof. by destruct x. Qed.

Lemma append_empty_r x : x +ₛ "" = x.
Proof. induction x as [|a x IH]; [done|]. by rewrite str_app_cons, IH. Qed.

Lemma ends_with_slash_app x y :
  ends_with_slash (x +ₛ y) = if String.eqb y "" then ends_with_slash x else ends_with_slash y.
Proof.
  induction x as [|a x IH].
  - by destruct y.
  - destruct x as [|b x]; [by destruct y|].
    change (ends_with_slash (String a (String b x) +ₛ y))
      with (ends_with_slash (String b x +ₛ y)).
    rewrite IH. done.
Qed.

Lemma no_slash_not_ends s : has_char slash s = false -> ends_with_slash s = false.
Proof.
  induction s as [|a s IH]; [done|]. simpl. intros [Ha Hs]%orb_false_iff.
  destruct s; [done|]. by apply IH.
Qed.

(** The joined segments: non-empty, not absolute, no trailing slash. *)
Lemma join_seg_ok N :
  Forall seg_ok N -> N <> [] ->
  join_sep slash N <> "" /\ is_absolute (join_sep slash N) = false /\
  ends_with_slash (join_sep slash N) = false.
Proof.
  induction N as [|x N IH]; intros Hall Hne; [done|].
  apply Forall_cons in Hall as [[Hx Hxs] Hall].
  assert (is_absolute x = false /\ x <> "") as [Hxa _].
  { destruct x as [|a x]; [done|]. simpl in *.
    apply orb_false_iff in Hxs as [Ha _]. by split. }
  destruct N as [|y N].
  - split_and!; [done|done|]. by apply no_slash_not_ends.
  - destruct (IH Hall ltac:(done)) as (HJ & _ & HJe).
    change (join_sep slash (x :: y :: N)) with (x +ₛ String slash (join_sep slash (y :: N))).
    remember (join_sep slash (y :: N)) as J eqn:EJ. clear EJ.
    split_and!.
    + intros [-> _]%append_empty_inv. done.
    + destruct x; done.
    + rewrite ends_with_slash_app. simpl. destruct J; done.
Qed.

(** The output of [path.normalize] for a non-empty body. *)
Definition shaped (isAbs trailing : bool) (N : list string) : string :=
  (if isAbs then "/" else "") +ₛ join_sep slash N +ₛ (if trailing then "/" else "").

Lemma shaped_facts a t N :
  normal_segs (negb a) N -> N <> [] ->
  shaped a t N <> "" /\ is_absolute (shaped a t N) = a /\
  ends_with_slash (shaped a t N) = t /\
  normalizeString (negb a) (split_sep slash (shaped a t N)) = N.
Proof.
  intros HN Hne. pose proof (normal_seg_ok _ _ HN) as Hok.
  destruct (join_seg_ok N Hok Hne) as (HJ & HJa & HJe).
  assert (Hsplit : split_sep slash (join_sep slash N) = N).
  { apply split_join; [done|]. eapply Forall_impl; [done|]. by intros ? [_ ?]. }
  assert (Hpost : forall t' : bool, split_sep slash (join_sep slash N +ₛ (if t' then "/" else "")) =
                             N ++ (if t' then [""] else [])).
  { intros []; [|by rewrite append_empty_r, Hsplit, app_nil_r].
    change "/"%string with (String slash ""). by rewrite split_sep_app, Hsplit. }
  set (post := if t then "/" else "").
  assert (Hends : ends_with_slash (join_sep slash N +ₛ post) = t).
  { subst post. destruct t; [by rewrite ends_with_slash_app|by rewrite append_empty_r]. }
  assert (Hne' : join_sep slash N +ₛ post <> "") by (intros [? _]%append_empty_inv; done).
  assert (Habs : is_absolute (join_sep slash N +ₛ post) = false)
    by (revert HJ HJa; destruct (join_sep slash N); done).
  assert (Hnorm : normalizeString (negb a) (split_sep slash (join_sep slash N +ₛ post)) = N).
  { subst post. rewrite Hpost.
    destruct t; [rewrite normalizeString_snoc_empty|rewrite app_nil_r];
      by apply normalizeString_fix. }
  unfold shaped. fold post. destruct a; split_and!; try done.
  all: first
    [ rewrite ends_with_slash_app; by destruct (String.eqb_spec (join_sep slash N +ₛ post) "")
    | change ("/" +ₛ ?X)%string with ("" +ₛ String slash X);
      by rewrite split_sep_app, normalizeString_cons_empty ].
Qed.

(** The three outcomes of [path.normalize]. *)
Lemma normalize_cases p :
  let a := is_absolute p in
  let N := normalizeString (negb a) (split_sep slash p) in
  (p = "" /\ normalize p = ".") \/
  (p <> "" /\ N = [] /\
     normalize p = if a then "/" else if ends_with_slash p then "./" else ".") \/
  (p <> "" /\ N <> [] /\ normalize p = shaped a (ends_with_slash p) N).
Proof.
  intros a N. unfold normalize. fold a N.
  destruct (String.eqb_spec p "") as [->|Hp]; [by left|right].
  pose proof (normal_seg_ok _ _ (normalizeString_normal (negb a) p)) as Hok. fold N in Hok.
  destruct N as [|x N'] eqn:EN; [left; done|right].
  destruct (join_seg_ok (x :: N') Hok ltac:(done)) as (HJ & _).
  rewrite <-(String.eqb_neq) in HJ. rewrite HJ. done.
Qed.

(** [path.normalize] keeps the location a path names. *)
Lemma loc_of_normalize p : loc_of (normalize p) = loc_of p.
Proof.
  pose proof (normalizeString_normal (negb (is_absolute p)) p) as HN.
  destruct (normalize_cases p) as [[-> ->]|[(Hp & HN0 & ->)|(Hp & HN0 & ->)]].
  - done.
  - unfold loc_of at 2. rewrite HN0.
    by destruct (is_absolute p), (ends_with_slash p).
  - destruct (shaped_facts (is_absolute p) (ends_with_slash p) _ HN HN0) as (_ & Ha & _ & Hs).
    unfold loc_of at 1. by rewrite Ha, Hs.
Qed.

(** [path.normalize] is idempotent. *)
Lemma normalize_idempotent p : normalize (normalize p) = normalize p.
Proof.
  pose proof (normalizeString_normal (negb (is_absolute p)) p) as HN.
  destruct (normalize_cases p) as [[-> ->]|[(Hp & HN0 & ->)|(Hp & HN0 & ->)]].
  - done.
  - by destruct (is_absolute p), (ends_with_slash p).
  - destruct (shaped_facts (is_absolute p) (ends_with_slash p) _ HN HN0)
      as (Hne & Ha & He & Hs).
    destruct (normalize_cases (shaped (is_absolute p) (ends_with_slash p)
      (normalizeString (negb (is_absolute p)) (split_sep slash p))))
      as [[? _]|[(_ & HN1 & _)|(_ & _ & ->)]].
    + done.
    + rewrite Ha, Hs in HN1. done.
    + by rewrite Ha, He, Hs.
Qed.

(** ** [lastIndexOf], [fileName] and the output location *)

(** Position of the last [c] in [s]. *)
Fixpoint last_pos (c : ascii) (s : string) : option nat :=
  match s with
  | EmptyString => None
  | String a s' =>
      match last_pos c s' with
      | Some k => Some (S k)
      | None => if Ascii.eqb a c then Some 0 else None
      end
  end.

Lemma last_index_from_pos c s i acc :
  last_index_from c s i acc =
    match last_pos c s with Some k => Z.of_nat (i + k) | None => acc end.
Proof.
  revert i acc. induction s as [|a s IH]; intros i acc; [done|]. simpl.
  rewrite IH. destruct (last_pos c s) as [k|]; [f_equal; lia|].
  destruct (Ascii.eqb a c); [f_equal; lia|done].
Qed.

Lemma last_pos_lt c s k : last_pos c s = Some k -> k < String.length s.
Proof.
  revert k. induction s as [|a s IH]; intros k; [done|]. simpl.
  destruct (last_pos c s) as [k'|]; [intros [= <-]; specialize (IH k' eq_refl); lia|].
  case_match; [intros [= <-]; lia|done].
Qed.

Lemma last_pos_after c s k : last_pos c s = Some k -> has_char c (str_drop (S k) s) = false.
Proof.
  revert k. induction s as [|a s IH]; intros k; [done|]. simpl.
  destruct (last_pos c s) as [k'|] eqn:E; [intros [= <-]; by apply IH|].
  case_match; [intros [= <-]|done].
  clear IH. induction s as [|b s IHs]; [done|]. simpl in *.
  destruct (last_pos c s); [done|]. destruct (Ascii.eqb b c); [done|].
  by rewrite IHs.
Qed.

Lemma last_pos_none c s : last_pos c s = None -> has_char c s = false.
Proof.
  induction s as [|a s IH]; [done|]. simpl.
  destruct (last_pos c s); [done|]. destruct (Ascii.eqb a c); [done|]. by intros; rewrite IH.
Qed.

(** The file name holds no ['/']. *)
Lemma fileName_no_slash f : has_char slash (fileName f) = false.
Proof.
  unfold fileName, substr, lastIndexOf. rewrite last_index_from_pos.
  destruct (last_pos slash f) as [k|] eqn:E.
  - pose proof (last_pos_lt _ _ _ E).
    rewrite (proj2 (Z.ltb_ge _ _)) by lia.
    replace (Z.to_nat _) with (S k) by lia. by apply last_pos_after.
  - rewrite (proj2 (Z.ltb_ge _ _)) by lia.
    replace (Z.to_nat _) with 0 by lia. by apply last_pos_none.
Qed.

Lemma has_char_app c x y : has_char c (x +ₛ y) = has_char c x || has_char c y.
Proof. induction x as [|a x IH]; [done|]. simpl. by rewrite IH, orb_assoc. Qed.

(** The output file name [`${fileName}.txt`] is a plain segment. *)
Lemma plain_txt name : has_char slash name = false -> plain_seg (name +ₛ ".txt").
Proof.
  intros Hn. split_and!.
  - intros [_ ?]%append_empty_inv. done.
  - by destruct name as [|a [|b name]].
  - by destruct name as [|a [|b [|d name]]].
  - by rewrite has_char_app, Hn.
Qed.

Lemma normalizeString_snoc_plain allow segs x :
  plain_seg x -> normalizeString allow (segs ++ [x]) = normalizeString allow segs ++ [x].
Proof.
  intros Hx. unfold normalizeString. rewrite fold_left_app. simpl.
  by rewrite norm_step_plain.
Qed.

Lemma is_absolute_app x y : x <> "" -> is_absolute (x +ₛ y) = is_absolute x.
Proof. by destruct x. Qed.

(** The output file of [extractText] lies in the output folder, under
    the name [`${fileName}.txt`]. *)
Lemma join_sep_snoc_suffix c N x : exists pre, join_sep c (N ++ [x]) = (pre +ₛ x)%string.
Proof.
  induction N as [|y N [pre IH]]; [by exists ""|].
  exists (y +ₛ String c pre)%string. cbn [app].
  destruct (N ++ [x]) as [|z r] eqn:E; [by destruct N|].
  change (join_sep c (y :: z :: r)) with (y +ₛ String c (join_sep c (z :: r)))%string.
  by rewrite IH, <-str_app_cons, str_app_assoc.
Qed.

(** [path.normalize] keeps a plain last segment at the end. *)
Lemma normalize_snoc_suffix p S x :
  plain_seg x -> split_sep slash p = S ++ [x] -> ends_with_slash p = false ->
  exists pre, normalize p = (pre +ₛ x)%string.
Proof.
  intros Hx Hs He. pose proof Hx as (Hx0 & _ & _ & _). unfold normalize.
  destruct (String.eqb_spec p "") as [->|_].
  { simpl in Hs. destruct S as [|? [|]]; simplify_eq/=; done. }
  rewrite Hs, normalizeString_snoc_plain by done.
  destruct (join_sep_snoc_suffix slash (normalizeString (negb (is_absolute p)) S) x) as [pre ->].
  destruct (String.eqb_spec (pre +ₛ x) "") as [[_ ?]%append_empty_inv|_]; [done|].
  rewrite He, append_empty_r, str_app_assoc. by eexists.
Qed.

(** [path.join(a, x)] with a plain name [x] ends with [x]. *)
Lemma join_suffix a x : plain_seg x -> exists pre, join a x = (pre +ₛ x)%string.
Proof.
  intros Hx. pose proof Hx as (Hx0 & _ & _ & Hxs). unfold join.
  rewrite (proj2 (String.eqb_neq x "")) by done.
  destruct (String.eqb_spec a "") as [->|Ha].
  - apply (normalize_snoc_suffix _ []); [done|by rewrite split_sep_no_char|by apply no_slash_not_ends].
  - apply (normalize_snoc_suffix _ (split_sep slash a)); [done| |].
    + by rewrite split_sep_app, (split_sep_no_char _ x).
    + destruct x as [|b x']; [done|]. rewrite ends_with_slash_app, (proj2 (String.eqb_neq _ "")) by done.
      change (ends_with_slash (String slash (String b x'))) with (ends_with_slash (String b x')).
      by apply no_slash_not_ends.
Qed.

(** [path.join(o, n)] with a plain name [n] names the entry [n] of the
    directory [o]. *)
Lemma loc_join_plain o n :
  plain_seg n -> loc_of (join o n) = Loc (loc_abs (loc_of o)) (loc_segs (loc_of o) ++ [n]).
Proof.
  intros Hp. unfold join. destruct Hp as (Hn & Hn1 & Hn2 & Hns).
  rewrite (proj2 (String.eqb_neq n "")) by done.
  assert (Hna : is_absolute n = false)
    by (destruct n as [|a n]; [done|]; simpl in *; by apply orb_false_iff in Hns as [? _]).
  destruct (String.eqb_spec o "") as [->|Ho]; rewrite loc_of_normalize; unfold loc_of.
  - rewrite Hna, split_sep_no_char by done. simpl.
    pose proof (normalizeString_snoc_plain true [] n) as Hs. simpl in Hs.
    rewrite Hs; [done|]. done.
  - rewrite is_absolute_app, split_sep_app, (split_sep_no_char _ n) by done.
    by rewrite normalizeString_snoc_plain.
Qed.

Lemma loc_outputPath o f :
  loc_of (outputPath o f) =
    Loc (loc_abs (loc_of o)) (loc_segs (loc_of o) ++ [fileName f +ₛ ".txt"]).
Proof. apply loc_join_plain, plain_txt, fileName_no_slash. Qed.

(** Two input files get the same output file exactly when their file
    names (the part after the last ['/']) are equal. *)
Lemma outputPath_loc_eq_iff o f1 f2 :
  loc_of (outputPath o f1) = loc_of (outputPath o f2) <-> fileName f1 = fileName f2.
Proof.
  rewrite !loc_outputPath. split; [|by intros ->].
  intros [= Hs]. apply app_inj_tail in Hs as [_ Hs]. by apply str_app_inv_r in Hs.
Qed.

Lemma last_pos_no_char c s : has_char c s = false -> last_pos c s = None.
Proof.
  induction s as [|a s IH]; [done|]. simpl. intros [Ha Hs]%orb_false_iff.
  by rewrite IH, Ha.
Qed.

Lemma last_pos_sep c x name :
  has_char c name = false -> last_pos c (x +ₛ String c name) = Some (String.length x).
Proof.
  intros Hn. induction x as [|a x IH].
  - rewrite str_app_nil_l. simpl. by rewrite last_pos_no_char, Ascii.eqb_refl.
  - rewrite str_app_cons. simpl. by rewrite IH.
Qed.

Lemma str_drop_app x y : str_drop (String.length x) (x +ₛ y) = y.
Proof. induction x as [|a x IH]; [done|]. by rewrite str_app_cons. Qed.

(** C30: Round trip: [fileName] recovers the name of a file from its path
    [dir/name] (a name without ['/']), whatever the directory. *)
Lemma fileName_join d name :
  has_char slash name = false -> fileName (d +ₛ String slash name) = name.
Proof.
  intros Hn. unfold fileName, substr, lastIndexOf.
  rewrite last_index_from_pos, last_pos_sep by done. simpl.
  rewrite (proj2 (Z.ltb_ge _ _)) by lia. rewrite str_length_app. simpl.
  rewrite Z.min_l by lia. replace (Z.to_nat _) with (String.length d + 1) by lia.
  rewrite <-(str_drop_app d (String slash name)). clear.
  induction d as [|a d IH]; [done|]. by rewrite str_app_cons.
Qed.

(** ** Instances *)

Lemma split_join_witness : split_sep slash (join_sep slash ["pdf"; "sub"; "a.pdf"]) = ["pdf"; "sub"; "a.pdf"].
Proof. apply split_join; [done|repeat constructor]. Defined.

Lemma fileName_join_witness : fileName "pdf/sub/a.pdf" = "a.pdf".
Proof. apply (fileName_join "pdf/sub" "a.pdf"). reflexivity. Defined.

End NodePath.
