(* ===== verification/NodeFs.v ===== *)
(** * The Node runtime the scripts touch: file system, errors, console

    A file system as a finite map from locations ([NodePath.loc]) to
    entries (a directory or a file with its contents); the working
    directory and the root are the locations with no segments and always
    exist.  [fs.existsSync], [fs.mkdirSync] (not recursive) and
    [fs.writeFileSync] are modelled with the POSIX errors they raise;
    [writeFileSync] rejects an [undefined] payload before touching the
    disk (ERR_INVALID_ARG_TYPE, Node 14 and later).  The console is the
    list of lines the scripts print, in order; each constructor of
    [line] is one [console.log]/[console.error] call of the sources.
    Symbolic links and permissions are not modelled. *)

From S2P Require Import Prelude Js NodePath.
From Stdlib Require Import Ascii String.

Import NodePath.

Module NodeFs.

Inductive entry := Dir | File (contents : string).

#[export] Instance entry_eq_dec : EqDecision entry.
Proof. solve_decision. Defined.

Abbreviation fsys := (gmap loc entry).

(** A JavaScript value passed as file contents: a string or
    [undefined] ([None]). *)
Abbreviation jsval := (option string).

Inductive fs_error :=
| ENOENT (l : loc)
| ENOTDIR (l : loc)
| EISDIR (l : loc)
| EEXIST (l : loc)
| ERR_INVALID_ARG_TYPE.

(** The errors the scripts can raise or print. *)
Inductive js_error :=
| FsError (e : fs_error)
| TikaError (msg : string)          (** the error of [tika.text] *)
| DirError (msg : string)           (** the error of [dir.files] *)
| SpawnError (msg : string)         (** a worker process that failed to start *)
| TypeErrorUndefined.               (** reading a property of [undefined] *)

(** Lookup where the working directory and the root always exist. *)
Definition entry_at (m : fsys) (l : loc) : option entry :=
  match loc_segs l with [] => Some Dir | _ => m !! l end.

(** [fs.existsSync(p)] *)
Definition existsSync (m : fsys) (p : string) : bool :=
  bool_decide (is_Some (entry_at m (loc_of p))).

(** The parent of [l] must be an existing directory. *)
Definition check_parent (m : fsys) (l : loc) : option fs_error :=
  match loc_parent l with
  | None => None
  | Some d =>
      match entry_at m d with
      | Some Dir => None
      | Some (File _) => Some (ENOTDIR d)
      | None => Some (ENOENT l)
      end
  end.

(** [fs.mkdirSync(p)]: [inl] the new file system, [inr] the thrown error. *)
Definition mkdirSync (m : fsys) (p : string) : fsys + fs_error :=
  let l := loc_of p in
  match entry_at m l with
  | Some _ => inr (EEXIST l)
  | None =>
      match check_parent m l with
      | Some e => inr e
      | None => inl (<[l := Dir]> m)
      end
  end.

(** [fs.writeFileSync(p, data, 'utf8')]: creates or overwrites a file. *)
Definition writeFileSync (m : fsys) (p : string) (data : jsval) : fsys + fs_error :=
  match data with
  | None => inr ERR_INVALID_ARG_TYPE
  | Some s =>
      let l := loc_of p in
      match entry_at m l with
      | Some Dir => inr (EISDIR l)
      | _ =>
          match check_parent m l with
          | Some e => inr e
          | None => inl (<[l := File s]> m)
          end
      end
  end.

(** ** The console *)

Inductive line :=
| LStarting (workers : nat)           (** [Starting ${workerCount} workers...] *)
| LWorkerStarted (id tasks : nat)     (** [Worker ${id} started with ${n} tasks] *)
| LProcessing (file : string)         (** [Processing file ${filePath}] *)
| LSaved (path : string)              (** ['Saved file', relativePath] *)
| LError (e : js_error)               (** [console.error(error)], uncaught errors *)
| LWorkerDone (id : nat)              (** [Worker ${id} is done] *)
| LWorkerError (e : js_error)         (** [Worker error: ${error}] *)
| LSeqStarted                         (** [Started file processing (...)] *)
| LSeqProgress (k n : nat)            (** [Processing file ${k} of ${n}] *)
| LSeqFinished (n : nat).             (** [Finished processing ${n} files (...)] *)

#[export] Instance fs_error_eq_dec : EqDecision fs_error.
Proof. solve_decision. Defined.
#[export] Instance js_error_eq_dec : EqDecision js_error.
Proof. solve_decision. Defined.
#[export] Instance line_eq_dec : EqDecision line.
Proof. solve_decision. Defined.

(** ** Basic facts *)

Lemma writeFileSync_ok m p s :
  entry_at m (loc_of p) <> Some Dir -> check_parent m (loc_of p) = None ->
  writeFileSync m p (Some s) = inl (<[loc_of p := File s]> m).
Proof.
  intros Hd Hp. unfold writeFileSync. rewrite Hp.
  by destruct (entry_at m (loc_of p)) as [[]|].
Qed.

(** A write changes the file system at the written location only. *)
Lemma writeFileSync_other m p d m' l :
  writeFileSync m p d = inl m' -> l <> loc_of p -> m' !! l = m !! l.
Proof.
  unfold writeFileSync. intros Hw Hl. repeat case_match; simplify_eq.
  all: by rewrite lookup_insert_ne by congruence.
Qed.

Lemma entry_at_lookup m1 m2 l : m1 !! l = m2 !! l -> entry_at m1 l = entry_at m2 l.
Proof. unfold entry_at. by intros ->. Qed.

Lemma entry_at_insert_ne m l l' x : l <> l' -> entry_at (<[l := x]> m) l' = entry_at m l'.
Proof. intros Hne. unfold entry_at. case_match; [done|]. by rewrite lookup_insert_ne. Qed.

Lemma check_parent_insert_ne m l l' x :
  loc_parent l' <> Some l -> check_parent (<[l := x]> m) l' = check_parent m l'.
Proof.
  intros Hne. unfold check_parent. destruct (loc_parent l') as [d|]; [|done].
  rewrite entry_at_insert_ne; [done|]. congruence.
Qed.

(** Two locations in the same directory: neither holds the other. *)
Definition siblings (l1 l2 : loc) : Prop :=
  l1 <> l2 /\ loc_parent l1 <> Some l2 /\ loc_parent l2 <> Some l1.

Lemma writeFileSync_inl m p d m' :
  writeFileSync m p d = inl m' -> exists s, d = Some s /\ m' = <[loc_of p := File s]> m.
Proof. unfold writeFileSync. intros Hw. repeat case_match; simplify_eq; eauto. Qed.

(** A write at [q] does not see an earlier change at a sibling location. *)
Lemma writeFileSync_insert m l x q e :
  l <> loc_of q -> loc_parent (loc_of q) <> Some l ->
  writeFileSync (<[l := x]> m) q e =
    match writeFileSync m q e with inl m' => inl (<[l := x]> m') | inr err => inr err end.
Proof.
  intros Hne Hp. unfold writeFileSync. destruct e as [t|]; [|done].
  rewrite entry_at_insert_ne, check_parent_insert_ne by done.
  repeat case_match; simplify_eq; try done; f_equal; by apply insert_insert_ne.
Qed.

(** Writes to sibling locations commute. *)
Lemma writeFileSync_commute m p q d e :
  siblings (loc_of p) (loc_of q) ->
  match writeFileSync m p d with
  | inl m1 => match writeFileSync m1 q e with inl m2 => m2 | inr _ => m1 end
  | inr _ => match writeFileSync m q e with inl m2 => m2 | inr _ => m end
  end =
  match writeFileSync m q e with
  | inl m1 => match writeFileSync m1 p d with inl m2 => m2 | inr _ => m1 end
  | inr _ => match writeFileSync m p d with inl m2 => m2 | inr _ => m end
  end.
Proof.
  intros (Hne & Hpq & Hqp).
  destruct (writeFileSync m p d) as [m1|] eqn:Ep, (writeFileSync m q e) as [m2|] eqn:Eq;
    try done.
  - destruct (writeFileSync_inl _ _ _ _ Ep) as (s & -> & ->).
    destruct (writeFileSync_inl _ _ _ _ Eq) as (t & -> & ->).
    rewrite (writeFileSync_insert m (loc_of p)), Eq by done.
    rewrite (writeFileSync_insert m (loc_of q)), Ep by done.
    by apply insert_insert_ne.
  - destruct (writeFileSync_inl _ _ _ _ Ep) as (s & -> & ->).
    by rewrite (writeFileSync_insert m (loc_of p)), Eq by done.
  - destruct (writeFileSync_inl _ _ _ _ Eq) as (t & -> & ->).
    by rewrite (writeFileSync_insert m (loc_of q)), Ep by done.
Qed.

End NodeFs.
