(* ===== verification/Extract.v ===== *)
(** * The per-file code shared by both scripts

    [init]'s configuration and output-folder creation, the PDF filters
    of [readFiles], [saveFile], and the callback of [tika.text] in
    [extractText], for src/extract-multicore.js and src/extract.js.  The
    extraction service is the class [Tika]: [tika.text(filePath,
    options, cb)] calls [cb] once with an error or the text, and the
    model takes the outcome to be a function of the path and the
    options. *)

From S2P Require Import Prelude Js NodePath NodeFs.
From Stdlib Require Import ZArith Ascii String.

Import NodePath NodeFs.

Module Extract.

(** ** Configuration *)

(** The [options] object passed to [tika.text]; [language] is the key
    [init] assigns ([undefined] until then). *)
Record tika_options := TikaOptions {
  contentType : string;
  ocrLanguage : string;
  pdfEnableAutoSpace : bool;
  pdfExtractInlineImages : bool;
  language : option string
}.

Inductive tika_outcome := TikaText (text : string) | TikaFail (msg : string).

(** The extraction service (the [tika] module). *)
Class Tika := tika_text : string -> tika_options -> tika_outcome.

Record config := Config {
  inputFolder : string;
  outputFolder : string;
  options : tika_options
}.

(** The module-level defaults of src/extract-multicore.js (lines 14-24)
    and src/extract.js (lines 10-20). *)
Definition multicore_defaults : config :=
  Config "./pdf/" "./text/" (TikaOptions "application/pdf" "deu" true true None).
Definition sequential_defaults : config :=
  Config "./pdf/" "./text/" (TikaOptions "application/pdf" "eng" true true None).

(** [a || b] for an optional string argument ([undefined] and [""] are
    falsy). *)
Definition js_or (a : option string) (b : string) : string :=
  match a with Some s => if String.eqb s "" then b else s | None => b end.

Definition js_or_opt (a b : option string) : option string :=
  match a with Some s => if String.eqb s "" then b else Some s | None => b end.

(** The assignments at the top of [init]. *)
Definition configure (d : config) (argIn argOut argLang : option string) : config :=
  let o := options d in
  Config (js_or argIn (inputFolder d)) (js_or argOut (outputFolder d))
    (TikaOptions (contentType o) (ocrLanguage o) (pdfEnableAutoSpace o)
       (pdfExtractInlineImages o) (js_or_opt argLang (language o))).

(** [if (!fs.existsSync(outputFolder)) fs.mkdirSync(outputFolder)] *)
Definition ensure_output (m : fsys) (out : string) : fsys + fs_error :=
  if existsSync m out then inl m else mkdirSync m out.

(** ** The PDF filters of [readFiles] *)

(** [file.search(/\.pdf$/) > -1] (src/extract-multicore.js line 65) *)
Definition keep_multicore (f : string) : bool :=
  bool_decide (search match_pdf_anchored f > -1)%Z.

(** [file.search(/.*.pdf/) > -1] (src/extract.js line 61) *)
Definition keep_sequential (f : string) : bool :=
  bool_decide (search match_pdf_loose f > -1)%Z.

(** ** [saveFile] and the [tika.text] callback *)

(** [saveFile(relativePath, string)]: normalize, log, write; a thrown
    error is caught and printed. *)
Definition saveFile (m : fsys) (relativePath : string) (data : jsval) : fsys * list line :=
  let p := normalize relativePath in
  match writeFileSync m p data with
  | inl m' => (m', [LSaved p])
  | inr e => (m, [LSaved p; LError (FsError e)])
  end.

(** The copy of [saveFile] in src/extract.js (lines 104-119), the same
    code as the multicore one. *)
Definition saveFile_sequential (m : fsys) (relativePath : string) (data : jsval)
    : fsys * list line :=
  let p := normalize relativePath in
  match writeFileSync m p data with
  | inl m' => (m', [LSaved p])
  | inr e => (m, [LSaved p; LError (FsError e)])
  end.

(** [result] in the callback: the text, or [undefined] on an error. *)
Definition result_of (o : tika_outcome) : jsval :=
  match o with TikaText t => Some t | TikaFail _ => None end.

(** The callback in src/extract-multicore.js (lines 100-109): the error
    test is commented out, the result is saved whatever it is. *)
Definition on_extracted_multicore (out : string) (m : fsys) (filePath : string)
    (o : tika_outcome) : fsys * list line :=
  saveFile m (outputPath out filePath) (result_of o).

(** The callback in src/extract.js (lines 91-101): the error is printed,
    then the result is saved whatever it is. *)
Definition on_extracted_sequential (out : string) (m : fsys) (filePath : string)
    (o : tika_outcome) : fsys * list line :=
  let err := match o with TikaFail e => [LError (TikaError e)] | TikaText _ => [] end in
  let '(m', l) := saveFile_sequential m (outputPath out filePath) (result_of o) in
  (m', err ++ l).

(** ** Configuration *)

(** C29: The language argument of [init] sets [options.language], a key the
    extraction options do not otherwise have: the OCR language stays the
    script's default whatever the argument, and an empty argument keeps
    the previous value. *)
Lemma configure_language d argIn argOut argLang :
  ocrLanguage (options (configure d argIn argOut argLang)) = ocrLanguage (options d) /\
  language (options (configure d argIn argOut argLang)) =
    match argLang with
    | Some l => if String.eqb l "" then language (options d) else Some l
    | None => language (options d)
    end.
Proof. by destruct argLang. Qed.

(** ** The filters *)

(** C27: The multicore filter keeps exactly the names ending in [".pdf"]. *)
Lemma keep_multicore_iff f : keep_multicore f = true <-> exists p, f = (p +ₛ ".pdf")%string.
Proof.
  unfold keep_multicore. rewrite bool_decide_eq_true, search_nonneg_iff.
  unfold match_pdf_anchored. split.
  - intros (p & t & -> & Ht%String.eqb_eq). subst. by exists p.
  - intros [p ->]. exists p, ".pdf". by split; [|apply String.eqb_refl].
Qed.

(** Whatever the multicore filter keeps, the sequential one keeps. *)
Lemma keep_multicore_sequential f : keep_multicore f = true -> keep_sequential f = true.
Proof.
  unfold keep_multicore, keep_sequential. rewrite !bool_decide_eq_true, !search_nonneg_iff.
  intros (p & t & -> & Ht%String.eqb_eq). subst. by exists p, ".pdf".
Qed.

(** ** [saveFile] *)

(** With the output directory in place, saving a text writes it at the
    location of the normalized path. *)
Lemma saveFile_text m rel t :
  entry_at m (loc_of rel) <> Some Dir -> check_parent m (loc_of rel) = None ->
  saveFile m rel (Some t) = (<[loc_of rel := File t]> m, [LSaved (normalize rel)]).
Proof.
  intros Hd Hp. unfold saveFile. rewrite writeFileSync_ok; rewrite ?loc_of_normalize; done.
Qed.

(** C26: A failed extraction in the multicore script: [saveFile] is called
    with [undefined], prints "Saved file" for a file it does not write,
    then the [TypeError] of [fs.writeFileSync]; the extraction error
    itself is never printed, and the file system is unchanged. *)
Lemma on_extracted_multicore_fail out m f e :
  on_extracted_multicore out m f (TikaFail e) =
    (m, [LSaved (normalize (outputPath out f)); LError (FsError ERR_INVALID_ARG_TYPE)]).
Proof. done. Qed.

(** The two scripts' [saveFile] behave alike. *)
Lemma saveFile_sequential_eq m rel d : saveFile_sequential m rel d = saveFile m rel d.
Proof. done. Qed.

(** [saveFile] changes the file system at the location of its path only. *)
Lemma saveFile_other m rel d l :
  l <> loc_of rel -> (saveFile m rel d).1 !! l = m !! l.
Proof.
  intros Hl. unfold saveFile. destruct (writeFileSync _ _ _) as [m'|] eqn:Hw; [|done].
  simpl. eapply writeFileSync_other; [done|]. by rewrite loc_of_normalize.
Qed.

Lemma saveFile_fs m r d :
  (saveFile m r d).1 =
    match writeFileSync m (normalize r) d with inl m' => m' | inr _ => m end.
Proof. unfold saveFile. by destruct (writeFileSync _ _ _). Qed.

(** Saves to sibling locations commute. *)
Lemma saveFile_commute m r1 r2 d e :
  siblings (loc_of r1) (loc_of r2) ->
  (saveFile (saveFile m r1 d).1 r2 e).1 = (saveFile (saveFile m r2 e).1 r1 d).1.
Proof.
  intros Hs. rewrite <-(loc_of_normalize r1), <-(loc_of_normalize r2) in Hs.
  pose proof (writeFileSync_commute m _ _ d e Hs) as Hc. rewrite !saveFile_fs.
  destruct (writeFileSync m (normalize r1) d) eqn:E1,
    (writeFileSync m (normalize r2) e) eqn:E2; rewrite ?E1, ?E2; exact Hc.
Qed.

(** The output files of two inputs with different file names are
    siblings in the output folder. *)
Lemma outputPath_siblings o f g :
  fileName f <> fileName g -> siblings (loc_of (outputPath o f)) (loc_of (outputPath o g)).
Proof.
  intros Hfg. split_and!; [by rewrite outputPath_loc_eq_iff| |];
    rewrite !loc_outputPath, loc_parent_snoc; intros [= Hs];
    apply (f_equal List.length) in Hs; rewrite length_app in Hs; simpl in Hs; lia.
Qed.

(** ** Instances *)

Lemma keep_multicore_sequential_witness : keep_sequential "pdf/report.pdf" = true.
Proof. apply keep_multicore_sequential. reflexivity. Defined.

Lemma prefix_pdf rest : String.prefix "pdf" rest = true <-> exists r, rest = ("pdf" +ₛ r)%string.
Proof.
  split.
  - intros H. destruct rest as [|a1 rest1]; [done|]. cbn [String.prefix] in H.
    destruct (ascii_dec "p" a1) as [<-|]; [|done]. destruct rest1 as [|a2 rest2]; [done|].
    cbn [String.prefix] in H. destruct (ascii_dec "d" a2) as [<-|]; [|done].
    destruct rest2 as [|a3 r]; [done|]. cbn [String.prefix] in H.
    destruct (ascii_dec "f" a3) as [<-|]; [|done]. by exists r.
  - intros [r ->]. rewrite !str_app_cons, str_app_nil_l. by destruct r.
Qed.

Lemma match_pdf_loose_spec t :
  match_pdf_loose t = true ->
  exists u c r, t = (u +ₛ String c ("pdf" +ₛ r))%string /\ is_line_terminator c = false.
Proof.
  induction t as [|c rest IH]; [done|]. simpl.
  intros [Hc Hm]%andb_prop. apply negb_true_iff in Hc. apply orb_prop in Hm as [Hp|Hm].
  - apply prefix_pdf in Hp as [r ->]. by exists "", c, r.
  - destruct (IH Hm) as (u & c' & r & -> & Hc'). by exists (String c u), c', r.
Qed.

(** C28: The sequential filter [/.*.pdf/] keeps exactly the names that
    contain ["pdf"] after at least one character that is not a line
    terminator, anywhere in the name: looser than the multicore
    [/\.pdf$/] (C27), it keeps ["a.pdf.bak"] and ["notes-pdf.txt"]. *)
Lemma keep_sequential_iff f :
  keep_sequential f = true <->
  exists p c t, f = (p +ₛ String c ("pdf" +ₛ t))%string /\ is_line_terminator c = false.
Proof.
  unfold keep_sequential. rewrite bool_decide_eq_true, search_nonneg_iff. split.
  - intros (p & t & -> & Ht). destruct (match_pdf_loose_spec t Ht) as (u & c & r & -> & Hc).
    exists (p +ₛ u), c, r. by rewrite str_app_assoc.
  - intros (p & c & t & -> & Hc). exists p, (String c ("pdf" +ₛ t)). split; [done|].
    simpl. rewrite Hc. simpl. apply orb_true_intro. left. rewrite str_app_nil_l. by destruct t.
Qed.

Lemma keep_sequential_iff_witness :
  keep_sequential "notes-pdf.txt" = true /\ keep_multicore "notes-pdf.txt" = false.
Proof.
  split; [|reflexivity]. apply keep_sequential_iff. exists "notes", (Ascii.ascii_of_nat 45), ".txt". split; reflexivity.
Defined.

End Extract.
