(* ===== verification/Worker.v ===== *)
(** * A worker process of src/extract-multicore.js

    A process forked by [cluster.fork()] runs the whole module again:
    [init] (configuration, output folder), [readFiles] (its own
    [dir.files] listing, filtered), [prepareCluster] (its own plan), then
    the [cluster.isWorker] branch (lines 84-91): it looks up
    [fileListBatches[cluster.worker.id - 1]], prints how many tasks it
    has and runs [async.each] on the batch.  [async.each] starts every
    [extractText] at once (one "Processing file" line and one
    [tika.text] call per file, in batch order); the callbacks then come
    back in any order, each one saving its file; after the last one
    [handleComplete] prints "is done" and exits with code 0.

    [wphase] is the state of the process, [boot] its synchronous start,
    [complete] one [tika.text] callback, and [wstep] the transitions of
    one worker (the callback order is free). *)

From S2P Require Import Prelude Js NodePath NodeFs Extract Chunk.
From Stdlib Require Import ZArith.

Import NodePath NodeFs Extract ChunkArray Plan.

Module Worker.

Inductive wphase :=
| WForked                          (** forked, not yet started *)
| WSpawnFailed                     (** the process could not be spawned *)
| WHung                            (** looping forever in [chunkArray] *)
| WRunning (pending : list string) (** [tika.text] calls still outstanding *)
| WExited (code : nat).

(** A worker has started when it is neither waiting to start nor failed
    to spawn. *)
Definition started (ph : wphase) : bool :=
  match ph with WForked | WSpawnFailed => false | _ => true end.

(** The state one worker sees: the shared file system and console, and
    its own phase. *)
Record wstate := WState { w_fs : fsys; w_log : list line; w_phase : wphase }.

(** The result of [dir.files(inputFolder, cb)]: the file paths, or the
    error that [readFiles] rethrows. *)
Abbreviation listing := (list string + string)%type.

Section worker.
Context `{Tika}.
(** The configuration after [init]'s assignments, and the number of
    CPUs [os.cpus().length]; both are the same in every process. *)
Context (cfg : config) (cpus : nat).

(** [async.each(batch, extractText, handleComplete)], synchronous part:
    the start line, one "Processing file" line per file; an empty
    batch completes at once. *)
Definition start_batch (id : nat) (batch : list string) : list line * wphase :=
  let lines := LWorkerStarted id (length batch) :: map LProcessing batch in
  match batch with
  | [] => (lines ++ [LWorkerDone id], WExited 0)
  | _ => (lines, WRunning batch)
  end.

(** The worker's start: [init], [readFiles], [prepareCluster] in the
    [isWorker] branch.  An uncaught exception ends the process with
    code 1 after printing the error. *)
Definition boot (id : nat) (l : listing) (m : fsys) : fsys * list line * wphase :=
  match ensure_output m (outputFolder cfg) with
  | inr e => (m, [LError (FsError e)], WExited 1)
  | inl m1 =>
      match l with
      | inr msg => (m1, [LError (DirError msg)], WExited 1)
      | inl files =>
          let fileList := List.filter keep_multicore files in
          match fileListBatches (plan_fuel cpus fileList) cpus fileList with
          | None => (m1, [], WHung)
          | Some batches =>
              match batch_of batches id with
              | None => (m1, [LError TypeErrorUndefined], WExited 1)
              | Some batch =>
                  let '(lines, ph) := start_batch id batch in (m1, lines, ph)
              end
          end
      end
  end.

(** The callback of the [tika.text] call for the [i]-th pending file:
    save its result, then [callback()]; the last one runs
    [handleComplete(undefined)]. *)
Definition complete (id : nat) (pending : list string) (i : nat) (f : string) (m : fsys)
    : fsys * list line * wphase :=
  let '(m', l) := on_extracted_multicore (outputFolder cfg) m f (tika_text f (options cfg)) in
  match delete i pending with
  | [] => (m', l ++ [LWorkerDone id], WExited 0)
  | rest => (m', l, WRunning rest)
  end.

(** One transition of worker [id]; [listing_ok] says which listings
    [dir.files] may return (node-dir pushes the paths in the order
    their [stat] calls finish). *)
Inductive wstep (listing_ok : listing -> Prop) (id : nat) : wstate -> wstate -> Prop :=
| ws_boot m lg l m' l' ph :
    listing_ok l -> boot id l m = (m', l', ph) ->
    wstep listing_ok id (WState m lg WForked) (WState m' (lg ++ l') ph)
| ws_spawn_fail m lg msg :
    wstep listing_ok id (WState m lg WForked)
      (WState m (lg ++ [LWorkerError (SpawnError msg)]) WSpawnFailed)
| ws_complete m lg pending i f m' l' ph :
    pending.[i] = Some f -> complete id pending i f m = (m', l', ph) ->
    wstep listing_ok id (WState m lg (WRunning pending)) (WState m' (lg ++ l') ph).
End worker.

(** ** The start of a worker *)

Section boot_facts.
Context `{Tika} (cfg : config) (cpus : nat).

(** On a listing, a worker with id [id] (from 1) finds group [id - 1]
    of its plan when there are at least [id] groups, and otherwise
    reads [.length] of [undefined] and dies with a [TypeError]. *)
Lemma boot_spec id files m m1 :
  0 < cpus -> 1 <= id -> ensure_output m (outputFolder cfg) = inl m1 ->
  let fL := List.filter keep_multicore files in
  let w := workerCount cpus fL in
  boot cfg cpus id (inl files) m =
    if decide (id <= ceil_div (length fL) w)
    then let '(lines, ph) := start_batch id (group fL w (id - 1)) in (m1, lines, ph)
    else (m1, [LError TypeErrorUndefined], WExited 1).
Proof.
  intros Hc Hid Hout fL w. unfold boot. rewrite Hout.
  rewrite fileListBatches_spec by done. fold fL w.
  rewrite batch_of_chunks by done. by case_decide.
Qed.

(** The "Processing file" lines of a start are the files of its
    batch. *)
Lemma boot_processing id files m m' l' ph f :
  0 < cpus -> 1 <= id -> boot cfg cpus id (inl files) m = (m', l', ph) ->
  LProcessing f ∈ l' ->
  f ∈ group (List.filter keep_multicore files)
        (workerCount cpus (List.filter keep_multicore files)) (id - 1).
Proof.
  intros Hc Hid Hb Hf. destruct (ensure_output m (outputFolder cfg)) as [m1|e] eqn:Ho.
  - rewrite (boot_spec id files m m1) in Hb by done.
    case_decide; [|simplify_eq; by apply list_elem_of_singleton in Hf].
    unfold start_batch in Hb. destruct (group _ _ _) as [|g gs] eqn:Eg; simplify_eq.
    + apply elem_of_app in Hf as [Hf|Hf]; apply elem_of_cons in Hf as [?|Hf];
        try done; inversion Hf.
    + apply elem_of_cons in Hf as [?|Hf]; [done|].
      apply list_elem_of_In, in_map_iff in Hf as (? & [= ->] & ?).
      by apply list_elem_of_In.
  - unfold boot in Hb. rewrite Ho in Hb. simplify_eq. by apply list_elem_of_singleton in Hf.
Qed.

(** A callback prints no "Processing file" line. *)
Lemma complete_no_processing id P i g m m' l' ph f :
  complete cfg id P i g m = (m', l', ph) -> LProcessing f ∉ l'.
Proof.
  unfold complete, on_extracted_multicore, saveFile.
  destruct (writeFileSync _ _ _); destruct (delete i P); intros; simplify_eq; set_solver.
Qed.

(** A start and a callback leave the worker started. *)
Lemma boot_started id l m : started (boot cfg cpus id l m).2 = true.
Proof. unfold boot, start_batch. by branch. Qed.

Lemma complete_started id P i g m : started (complete cfg id P i g m).2 = true.
Proof. unfold complete. by branch. Qed.

(** A batch with no file: no extraction, success at once. *)
Lemma start_batch_nil id : start_batch id [] = ([LWorkerStarted id 0; LWorkerDone id], WExited 0).
Proof. done. Qed.
End boot_facts.

(** C18: When there are at least two files and no more than CPUs, the worker
    count is the number of files [n] and the chunk size is [n] too:
    there is one batch, and every worker but the first reads [.length]
    of [undefined] and exits with a [TypeError]. *)
Lemma idle_workers_crash `{Tika} cfg cpus files m m1 id :
  2 <= length (List.filter keep_multicore files) <= cpus -> 2 <= id ->
  ensure_output m (outputFolder cfg) = inl m1 ->
  boot cfg cpus id (inl files) m = (m1, [LError TypeErrorUndefined], WExited 1).
Proof.
  intros Hn Hid Hout. rewrite (boot_spec cfg cpus id files m m1) by (done || lia).
  assert (Hw : workerCount cpus (List.filter keep_multicore files) =
               length (List.filter keep_multicore files)) by (unfold workerCount; lia).
  rewrite Hw. case_decide as Hle; [|done].
  assert (ceil_div (length (List.filter keep_multicore files))
            (length (List.filter keep_multicore files)) = 1) as Hone.
  { apply ceil_div_eq_iff; lia. }
  lia.
Qed.

(** ** The file system a worker leaves *)

Section worker_facts.
Context `{Tika} (cfg : config) (cpus : nat).
Implicit Types (m : fsys) (P : list string).

(** The file-system effect of one callback, and of the callbacks of a
    batch taken in batch order: the reference the concurrent callbacks
    are compared with. *)
Definition save_one m (f : string) : fsys :=
  (on_extracted_multicore (outputFolder cfg) m f (tika_text f (options cfg))).1.

Definition save_all m P : fsys := fold_left save_one P m.

Lemma save_one_commute m f g :
  fileName f <> fileName g -> save_one (save_one m f) g = save_one (save_one m g) f.
Proof.
  intros Hfg. unfold save_one, on_extracted_multicore.
  by apply saveFile_commute, outputPath_siblings.
Qed.

(** With pairwise different file names, the order of the callbacks
    does not matter. *)
Lemma save_all_perm m P Q :
  P ≡ₚ Q -> NoDup (fileName <$> P) -> save_all m P = save_all m Q.
Proof.
  intros Hpq. revert m. induction Hpq as [|x P Q _ IH|x y P|P Q R HPQ IH1 _ IH2];
    intros m Hnd; simpl.
  - done.
  - apply IH. by apply NoDup_cons in Hnd as [_ ?].
  - rewrite save_one_commute; [done|].
    apply NoDup_cons in Hnd as [Hy _]. intros Heq. apply Hy. rewrite Heq. by left.
  - rewrite IH1 by done. apply IH2. by rewrite <-HPQ.
Qed.


(** An exited process takes no step. *)
Lemma wstep_exited lok id m lg c w : ~ wstep cfg cpus lok id (WState m lg (WExited c)) w.
Proof. inversion 1. Qed.

Lemma rtc_wstep_exited lok id m lg c w :
  rtc (wstep cfg cpus lok id) (WState m lg (WExited c)) w -> w = WState m lg (WExited c).
Proof. inversion 1 as [|? ? ? Hs]; [done|]. by apply wstep_exited in Hs. Qed.

(** Whatever order the callbacks come back in, a running worker that
    reaches its exit leaves the file system that saving its pending
    files in order would leave (pending files with pairwise different
    names). *)
Lemma worker_run_fs lok id P m lg m' lg' :
  NoDup (fileName <$> P) ->
  rtc (wstep cfg cpus lok id) (WState m lg (WRunning P)) (WState m' lg' (WExited 0)) ->
  m' = save_all m P.
Proof.
  intros Hnd Hr.
  remember (WState m lg (WRunning P)) as x eqn:Ex.
  remember (WState m' lg' (WExited 0)) as z eqn:Ez.
  revert m lg P Hnd Ex. induction Hr as [x|x y z Hs Hr IH]; intros m0 lg0 P Hnd ->;
    [by simplify_eq|].
  inversion Hs as [| |? ? ? i f m1 l1 ph Hi Hc]; subst.
  assert (HP : P ≡ₚ f :: delete i P) by by apply delete_Permutation.
  assert (Hnd' : NoDup (fileName <$> delete i P)).
  { rewrite HP in Hnd. by apply NoDup_cons in Hnd as [_ ?]. }
  rewrite (save_all_perm m0 P (f :: delete i P)) by done.
  change (save_all m0 (f :: delete i P)) with (save_all (save_one m0 f) (delete i P)).
  unfold complete in Hc.
  destruct (on_extracted_multicore _ _ _ _) as [m2 l2] eqn:Eo.
  replace (save_one m0 f) with m2 by (unfold save_one; by rewrite Eo).
  destruct (delete i P) as [|g rest] eqn:Ed; simplify_eq.
  - apply rtc_wstep_exited in Hr. by simplify_eq.
  - by eapply IH.
Qed.

Abbreviation target f := (loc_of (outputPath (outputFolder cfg) f)).

Lemma loc_parent_target f : loc_parent (target f) = Some (loc_of (outputFolder cfg)).
Proof. rewrite loc_outputPath, loc_parent_snoc. by destruct (loc_of _). Qed.

(** One callback: the text lands at the file's output location; a
    failed extraction leaves that location as it was. *)
Lemma save_one_at m f :
  entry_at m (loc_of (outputFolder cfg)) = Some Dir -> entry_at m (target f) <> Some Dir ->
  save_one m f !! target f =
    match tika_text f (options cfg) with
    | TikaText t => Some (File t)
    | TikaFail _ => m !! target f
    end.
Proof.
  intros Hout Hf. unfold save_one, on_extracted_multicore.
  destruct (tika_text f (options cfg)) as [t|e]; simpl.
  - rewrite saveFile_text; [simpl; by rewrite lookup_insert_eq|done|].
    unfold check_parent. by rewrite loc_parent_target, Hout.
  - done.
Qed.

Lemma save_all_other m P l :
  Forall (fun g => l <> target g) P -> save_all m P !! l = m !! l.
Proof.
  revert m. induction P as [|g P IH]; intros m Hall; [done|].
  apply Forall_cons in Hall as [Hg Hall]. simpl. rewrite IH by done.
  unfold save_one, on_extracted_multicore. by apply saveFile_other.
Qed.

Lemma save_all_at m P f :
  NoDup (fileName <$> P) -> f ∈ P ->
  entry_at m (loc_of (outputFolder cfg)) = Some Dir -> entry_at m (target f) <> Some Dir ->
  save_all m P !! target f =
    match tika_text f (options cfg) with
    | TikaText t => Some (File t)
    | TikaFail _ => m !! target f
    end.
Proof.
  intros Hnd [rest HP]%elem_of_Permutation Hout Hf.
  rewrite (save_all_perm m P (f :: rest)) by done. simpl.
  rewrite save_all_other; [by apply save_one_at|].
  rewrite HP in Hnd. apply NoDup_cons in Hnd as [Hnot _].
  apply Forall_forall. intros g Hg Heq. apply Hnot.
  apply outputPath_loc_eq_iff in Heq. rewrite Heq. by apply list_elem_of_fmap_2.
Qed.

(** C1: A worker's outputs: whatever order its [tika.text] callbacks come
    back in, once it has exited, each file of its batch has its text
    at [outputFolder/<name>.txt] when the extraction succeeded, and a
    failed extraction leaves that location untouched, the other files
    being saved all the same (batch files with pairwise different
    names; the output folder exists and no output name is a
    directory). *)
Lemma worker_outputs lok id P m lg m' lg' f :
  NoDup (fileName <$> P) -> f ∈ P ->
  entry_at m (loc_of (outputFolder cfg)) = Some Dir -> entry_at m (target f) <> Some Dir ->
  rtc (wstep cfg cpus lok id) (WState m lg (WRunning P)) (WState m' lg' (WExited 0)) ->
  m' !! target f =
    match tika_text f (options cfg) with
    | TikaText t => Some (File t)
    | TikaFail _ => m !! target f
    end.
Proof.
  intros Hnd Hf Hout Ht Hr. rewrite (worker_run_fs lok id P m lg m' lg') by done.
  by apply save_all_at.
Qed.

Lemma target_ne_output f : target f <> loc_of (outputFolder cfg).
Proof.
  rewrite loc_outputPath. intros [= Hs]. apply (f_equal List.length) in Hs.
  rewrite length_app in Hs. simpl in Hs. lia.
Qed.

Lemma save_one_other m f l : l <> target f -> save_one m f !! l = m !! l.
Proof. intros Hl. unfold save_one, on_extracted_multicore. by apply saveFile_other. Qed.

(** A callback saves its file; the worker goes on with the other
    pending files, or exits with success after the last one. *)
Lemma complete_spec id P i g m m' l' ph' :
  complete cfg id P i g m = (m', l', ph') ->
  m' = save_one m g /\
  ((ph' = WExited 0 /\ delete i P = []) \/ (ph' = WRunning (delete i P) /\ delete i P <> [])).
Proof.
  unfold complete, save_one. destruct (on_extracted_multicore _ _ _ _) as [m2 l2].
  destruct (delete i P) eqn:Ed; intros; simplify_eq/=; naive_solver.
Qed.

(** C20: Two batch files with the same name in different folders share one
    output file: whichever callback comes last overwrites the text of
    the other. *)
Lemma output_collision m f g t :
  fileName f = fileName g -> tika_text g (options cfg) = TikaText t ->
  entry_at m (loc_of (outputFolder cfg)) = Some Dir -> entry_at m (target f) <> Some Dir ->
  save_one (save_one m f) g !! target f = Some (File t).
Proof.
  intros Hfg Hg Hout Hf. assert (Ht : target g = target f) by by apply outputPath_loc_eq_iff.
  rewrite <-Ht. rewrite save_one_at, Hg; [done| |].
  - rewrite <-Hout. apply entry_at_lookup, save_one_other. apply not_eq_sym, target_ne_output.
  - rewrite Ht. pose proof Hf as Hf'. unfold entry_at in Hf' |- *.
    destruct (loc_segs (target f)); [done|].
    rewrite save_one_at by done. by destruct (tika_text f _).
Qed.
End worker_facts.

(** ** Instances *)

(** A stub service: "TEXT:<name>" for every file but [b.pdf], which
    fails (the spec's scenario of section 8, items 7 and 8). *)
#[local] Instance stub_tika : Tika := fun f _ =>
  if String.eqb (fileName f) "b.pdf" then TikaFail "boom" else TikaText ("TEXT:" +ₛ fileName f).

Definition stub_cfg : config :=
  Config "in" "out" (TikaOptions "application/pdf" "deu" true true None).

Definition stub_fs : fsys := {[Loc false ["out"] := Dir]}.

Lemma boot_spec_witness :
  boot stub_cfg 2 2 (inl ["in/a.pdf"; "in/b.pdf"; "in/c.pdf"]) stub_fs =
    (stub_fs, [LWorkerStarted 2 1; LProcessing "in/c.pdf"], WRunning ["in/c.pdf"]).
Proof. rewrite (boot_spec stub_cfg 2 2 _ stub_fs stub_fs); [reflexivity|lia|lia|reflexivity]. Defined.

Lemma idle_workers_crash_witness :
  boot stub_cfg 4 2 (inl ["in/a.pdf"; "in/b.pdf"; "in/c.pdf"]) stub_fs =
    (stub_fs, [LError TypeErrorUndefined], WExited 1).
Proof. apply idle_workers_crash; [vm_compute; lia|lia|reflexivity]. Defined.

Ltac run_callbacks :=
  repeat (eapply rtc_l; [eapply (ws_complete _ _ _ _ _ _ _ 0); reflexivity|]);
  apply rtc_refl.

Lemma worker_outputs_witness :
  exists m' lg',
    rtc (wstep stub_cfg 2 (fun _ => True) 1)
      (WState stub_fs [] (WRunning ["in/a.pdf"; "in/b.pdf"; "in/c.pdf"]))
      (WState m' lg' (WExited 0)) /\
    m' !! loc_of (outputPath "out" "in/a.pdf") = Some (File "TEXT:a.pdf") /\
    m' !! loc_of (outputPath "out" "in/b.pdf") = None.
Proof.
  eexists _, _. split; [run_callbacks|].
  split.
  - erewrite (worker_outputs stub_cfg 2 (fun _ => True) 1 ["in/a.pdf"; "in/b.pdf"; "in/c.pdf"]
      stub_fs [] _ _ "in/a.pdf"); [reflexivity|vm_compute; repeat constructor; set_solver
      |set_solver|reflexivity|vm_compute; congruence|run_callbacks].
  - erewrite (worker_outputs stub_cfg 2 (fun _ => True) 1 ["in/a.pdf"; "in/b.pdf"; "in/c.pdf"]
      stub_fs [] _ _ "in/b.pdf"); [reflexivity|vm_compute; repeat constructor; set_solver
      |set_solver|reflexivity|vm_compute; congruence|run_callbacks].
Defined.

Lemma output_collision_witness :
  save_one stub_cfg (save_one stub_cfg stub_fs "in/x/a.pdf") "in/y/a.pdf"
    !! loc_of (outputPath "out" "in/x/a.pdf") = Some (File "TEXT:a.pdf").
Proof.
  apply (output_collision stub_cfg stub_fs "in/x/a.pdf" "in/y/a.pdf" "TEXT:a.pdf");
    [reflexivity|reflexivity|reflexivity|vm_compute; congruence].
Defined.

(** A service whose text names the whole path. *)
Definition path_tika : Tika := fun f _ => TikaText ("TEXT:" +ₛ f).

(** C21: With [pdf/x/a.pdf] and [pdf/y/a.pdf] in one batch, [text/a.pdf.txt]
    ends with the text of whichever file's callback comes last: the
    output depends on the timing of the extraction service. *)
Lemma output_collision_race :
  exists m1 lg1 m2 lg2,
    rtc (@wstep path_tika stub_cfg 2 (fun _ => True) 1)
      (WState stub_fs [] (WRunning ["in/x/a.pdf"; "in/y/a.pdf"])) (WState m1 lg1 (WExited 0)) /\
    rtc (@wstep path_tika stub_cfg 2 (fun _ => True) 1)
      (WState stub_fs [] (WRunning ["in/x/a.pdf"; "in/y/a.pdf"])) (WState m2 lg2 (WExited 0)) /\
    m1 !! loc_of (outputPath "out" "a.pdf") = Some (File "TEXT:in/y/a.pdf") /\
    m2 !! loc_of (outputPath "out" "a.pdf") = Some (File "TEXT:in/x/a.pdf").
Proof.
  eexists _, _, _, _. split_and!.
  - run_callbacks.
  - eapply rtc_l; [eapply (ws_complete _ _ _ _ _ _ _ 1); reflexivity|]. run_callbacks.
  - reflexivity.
  - reflexivity.
Qed.

End Worker.
