(* ===== verification/Cluster.v ===== *)
(** * The cluster of src/extract-multicore.js

    The master process runs [init], [readFiles] and [prepareCluster]
    (lines 39-82): it creates the output folder, lists and filters the
    files, computes [workerCount] and [chunkArray] (whose result it does
    not use), prints "Starting ..." and calls [cluster.fork()]
    [workerCount] times; cluster ids are [1..workerCount].  Each forked
    process then runs as in [Worker].  The system state holds the shared
    file system and console, the master's phase and the workers' phases
    by id ([cluster.workers]); [cstep] interleaves the master's start and
    the steps of all workers in any order.  [listing_ok] says which
    listings [dir.files] may return to a process. *)

From S2P Require Import Prelude Js NodePath NodeFs Extract Chunk Worker.
From Stdlib Require Import ZArith Relation_Operators Lexicographic_Product Inclusion Inverse_Image.

Import NodePath NodeFs Extract ChunkArray Plan Worker.

Module Cluster.

Inductive mphase :=
| MStart      (** not started *)
| MForked     (** all workers forked *)
| MCrashed    (** an uncaught exception in [init] or [readFiles] *)
| MHung.      (** looping forever in [chunkArray] *)

Record sys := Sys {
  s_fs : fsys;
  s_log : list line;
  s_master : mphase;
  s_workers : gmap nat wphase
}.

(** [cluster.workers] after [workerCount] calls of [cluster.fork()]. *)
Fixpoint forked_workers (w : nat) : gmap nat wphase :=
  match w with
  | O => ∅
  | S w' => <[S w' := WForked]> (forked_workers w')
  end.

Section cluster.
Context `{Tika} (cfg : config) (cpus : nat) (listing_ok : listing -> Prop).

(** The master's run of the module: [init], [readFiles] and the
    [cluster.isMaster] branch of [prepareCluster]. *)
Definition master_boot (l : listing) (m : fsys)
    : fsys * list line * mphase * gmap nat wphase :=
  match ensure_output m (outputFolder cfg) with
  | inr e => (m, [LError (FsError e)], MCrashed, ∅)
  | inl m1 =>
      match l with
      | inr msg => (m1, [LError (DirError msg)], MCrashed, ∅)
      | inl files =>
          let fileList := List.filter keep_multicore files in
          let w := workerCount cpus fileList in
          match fileListBatches (plan_fuel cpus fileList) cpus fileList with
          | None => (m1, [], MHung, ∅)
          | Some _ => (m1, [LStarting w], MForked, forked_workers w)
          end
      end
  end.

Inductive cstep : sys -> sys -> Prop :=
| cs_master m lg l m' l' mp ws :
    listing_ok l -> master_boot l m = (m', l', mp, ws) ->
    cstep (Sys m lg MStart ∅) (Sys m' (lg ++ l') mp ws)
| cs_worker m lg mp ws id ph m' lg' ph' :
    ws !! id = Some ph ->
    wstep cfg cpus listing_ok id (WState m lg ph) (WState m' lg' ph') ->
    cstep (Sys m lg mp ws) (Sys m' lg' mp (<[id := ph']> ws)).

(** node-dir's [dir.files] pushes each path when its [stat] call
    returns: a process may get the files in any order. *)
Definition perm_listing (files : list string) (l : listing) : Prop :=
  exists l', l = inl l' /\ l' ≡ₚ files.

(** The state before [node extract-multicore.js] starts. *)
Definition init_sys (m : fsys) : sys := Sys m [] MStart ∅.
End cluster.

Lemma lookup_forked_workers w id :
  forked_workers w !! id = if decide (1 <= id <= w) then Some WForked else None.
Proof.
  induction w as [|w IH]; simpl.
  - rewrite lookup_empty. case_decide; [lia|done].
  - rewrite lookup_insert, IH. repeat case_decide; subst; done || lia.
Qed.

(** ** What the workers can process, when every process lists the same
       files *)

Section plan_invariant.
Context `{Tika} (cfg : config) (cpus : nat) (files : list string).

(** Every process's [dir.files] returns the same listing. *)
Definition same_listing (l : listing) : Prop := l = inl files.

Abbreviation fL := (List.filter keep_multicore files).
Abbreviation w := (workerCount cpus fL).

Definition plan_inv (s : sys) : Prop :=
  (forall f, LProcessing f ∈ s_log s -> f ∈ take (w * w) fL) /\
  (forall id ph, s_workers s !! id = Some ph -> 1 <= id <= w).

Lemma plan_inv_step s s' :
  0 < cpus -> plan_inv s -> cstep cfg cpus same_listing s s' -> plan_inv s'.
Proof.
  intros Hc [Hlog Hids] Hs.
  destruct Hs as [m lg l m' l' mp ws Hl Hb|m lg mp ws id ph m' lg' ph' Hid Hw];
    simpl in *.
  - unfold same_listing in Hl. subst l. unfold master_boot in Hb.
    destruct (ensure_output _ _); [|simplify_eq; split; [set_solver|done]].
    rewrite fileListBatches_spec in Hb by done. simplify_eq. split.
    + intros f [?|?%list_elem_of_singleton]%elem_of_app; [by auto|done].
    + intros id ph. simpl. rewrite lookup_forked_workers. case_decide; [done|by intros].
  - pose proof (Hids id ph Hid) as Hbound. split.
    + inversion Hw as [? ? l0 ? l1 ? Hl Hb|? ? msg|? ? P i g ? l1 ? Hi Hcomp]; subst.
      * unfold same_listing in Hl. subst l0.
        intros f [Hf|Hf]%elem_of_app; [by auto|].
        apply (group_in_prefix _ _ _ (id - 1)); [lia|].
        eapply boot_processing; [done|lia|exact Hb|exact Hf].
      * intros f [Hf|?%list_elem_of_singleton]%elem_of_app; [by auto|done].
      * intros f [Hf|Hf]%elem_of_app; [by auto|].
        exfalso. eapply complete_no_processing; [exact Hcomp|exact Hf].
    + intros id' ph''. simpl. rewrite lookup_insert. case_decide; [subst; by intros|].
      apply Hids.
Qed.

Lemma plan_inv_reachable m s :
  0 < cpus -> rtc (cstep cfg cpus same_listing) (init_sys m) s -> plan_inv s.
Proof.
  intros Hc. apply rtc_invariant; [intros ??; by apply plan_inv_step|].
  split; [set_solver|]. intros id ph. simpl. by rewrite lookup_empty.
Qed.

(** C6: Safety: whatever the interleaving, a file that some worker starts
    processing is among the first [w * w] files of the filtered
    listing ([w] the worker count); the others are never processed. *)
Lemma processed_in_prefix m s f :
  0 < cpus -> rtc (cstep cfg cpus same_listing) (init_sys m) s ->
  LProcessing f ∈ s_log s -> f ∈ take (w * w) fL.
Proof. intros Hc Hr. apply (proj1 (plan_inv_reachable m s Hc Hr)). Qed.

(** Every cluster id is one of [1..w]. *)
Lemma worker_ids_bounded m s id ph :
  0 < cpus -> rtc (cstep cfg cpus same_listing) (init_sys m) s ->
  s_workers s !! id = Some ph -> 1 <= id <= w.
Proof. intros Hc Hr. apply (proj2 (plan_inv_reachable m s Hc Hr)). Qed.

(** Files past the first [w * w] of the filtered listing are never
    processed (file paths listed once). *)
Lemma dropped_files m s k f :
  0 < cpus -> NoDup fL -> fL.[k] = Some f -> w * w <= k ->
  rtc (cstep cfg cpus same_listing) (init_sys m) s -> LProcessing f ∉ s_log s.
Proof.
  intros Hc Hnd Hk Hle Hr Hin.
  apply (proj1 (plan_inv_reachable m s Hc Hr)), list_elem_of_lookup in Hin as [j Hj].
  rewrite lookup_take in Hj. case_decide; [|done].
  pose proof (NoDup_lookup fL j k f Hnd Hj Hk). lia.
Qed.
(** Every "Processing file" line comes from a started worker, and names a
    file of that worker's batch. *)
Definition owner_inv (s : sys) : Prop :=
  forall f, LProcessing f ∈ s_log s ->
  exists j ph, s_workers s !! j = Some ph /\ started ph = true /\ f ∈ group fL w (j - 1).

Lemma master_boot_no_processing l m f : LProcessing f ∉ (master_boot cfg cpus l m).1.1.2.
Proof. unfold master_boot. branch; set_solver. Qed.

Lemma owner_inv_step s s' :
  0 < cpus -> plan_inv s -> owner_inv s -> cstep cfg cpus same_listing s s' -> owner_inv s'.
Proof.
  intros Hc [_ Hids] Hown Hs.
  destruct Hs as [m lg l m' l' mp ws Hl Hb|m lg mp ws id ph m' lg' ph' Hid Hw];
    unfold owner_inv in *; simpl in *.
  - intros f [Hf|Hf]%elem_of_app.
    + destruct (Hown f Hf) as (j & ph & Hj & _). simpl in Hj. by rewrite lookup_empty in Hj.
    + pose proof (master_boot_no_processing l m f) as Hn. by rewrite Hb in Hn.
  - pose proof (Hids id ph Hid) as Hbound.
    assert (Hold : started ph = false \/ started ph' = true ->
                   forall f, LProcessing f ∈ lg -> exists j ph'',
                   <[id := ph']> ws !! j = Some ph'' /\ started ph'' = true /\
                   f ∈ group fL w (j - 1)).
    { intros Hph f Hf. destruct (Hown f Hf) as (j & phj & Hj & Hs & Hg). simpl in Hj.
      destruct (decide (j = id)) as [->|Hne].
      - rewrite Hid in Hj. simplify_eq. exists id, ph'.
        rewrite lookup_insert_eq. split_and!; [done| |done].
        destruct Hph as [Hph|Hph]; [congruence|done].
      - exists j, phj. by rewrite lookup_insert_ne by congruence. }
    inversion Hw as [? ? l0 ? l1 ? Hl Hb|? ? msg|? ? P i g ? l1 ? Hi Hcomp]; subst.
    + unfold same_listing in Hl. subst l0.
      intros f [Hf|Hf]%elem_of_app; [by apply Hold; [left|]|].
      exists id, ph'. rewrite lookup_insert_eq. split_and!; [done| |].
      * pose proof (boot_started cfg cpus id (inl files) m) as Hst. by rewrite Hb in Hst.
      * eapply boot_processing; [done|lia|exact Hb|exact Hf].
    + intros f [Hf|?%list_elem_of_singleton]%elem_of_app; [by apply Hold; [left|]|done].
    + pose proof (complete_started cfg id P i g m) as Hst. rewrite Hcomp in Hst.
      intros f [Hf|Hf]%elem_of_app; [by apply Hold; [right|]|].
      exfalso. eapply complete_no_processing; [exact Hcomp|exact Hf].
Qed.

Lemma owner_inv_reachable m s :
  0 < cpus -> rtc (cstep cfg cpus same_listing) (init_sys m) s -> plan_inv s /\ owner_inv s.
Proof.
  intros Hc. apply (rtc_invariant _ (fun s => plan_inv s /\ owner_inv s)).
  - intros a b [Hp Ho] Hs. split; [by eapply plan_inv_step|by eapply owner_inv_step].
  - split; [split; [set_solver|]|]; intros ?; simpl; [by intros ?; rewrite lookup_empty|set_solver].
Qed.

(** C7: A worker that fails to spawn leaves its batch unprocessed: no
    other worker takes a file of it (file paths listed once), so those
    files are dropped, as the spec's error-handling section says. *)
Theorem spawn_failure_drops_batch m s id f :
  0 < cpus -> NoDup fL -> rtc (cstep cfg cpus same_listing) (init_sys m) s ->
  s_workers s !! id = Some WSpawnFailed -> f ∈ group fL w (id - 1) ->
  LProcessing f ∉ s_log s.
Proof.
  intros Hc Hnd Hr Hid Hf Hin.
  destruct (owner_inv_reachable m s Hc Hr) as [[_ Hids] Hown].
  destruct (Hown f Hin) as (j & ph & Hj & Hst & Hg).
  pose proof (group_disjoint _ _ _ _ _ Hnd Hf Hg) as Hij.
  pose proof (Hids id _ Hid). pose proof (Hids j _ Hj).
  assert (j = id) as -> by lia. by rewrite Hid in Hj; simplify_eq.
Qed.
End plan_invariant.

(** ** Termination: every interleaving is finite *)

(** Each process has finitely many steps left: the master one while it
    has not started, a forked worker its start, a running worker one per
    pending callback.  [WHung] and [MHung] take no step: they stand for
    a process that loops forever in [chunkArray] without printing or
    writing anything. *)
Definition forked_weight (ph : wphase) : nat := match ph with WForked => 1 | _ => 0 end.
Definition pending_weight (ph : wphase) : nat :=
  match ph with WRunning P => List.length P | _ => 0 end.
Definition total (g : wphase -> nat) (ws : gmap nat wphase) : nat :=
  sum_list_with (g ∘ snd) (map_to_list ws).
Definition master_weight (mp : mphase) : nat := match mp with MStart => 1 | _ => 0 end.

(** The measure of a state, ordered lexicographically. *)
Definition measure (s : sys) : nat * (nat * nat) :=
  (master_weight (s_master s), (total forked_weight (s_workers s), total pending_weight (s_workers s))).

Definition measure_lt : relation (nat * (nat * nat)) :=
  slexprod nat (nat * nat) lt (slexprod nat nat lt lt).

Lemma measure_lt_wf : well_founded measure_lt.
Proof. apply wf_slexprod; [apply lt_wf|apply wf_slexprod; apply lt_wf]. Qed.

Lemma total_insert g ws id ph ph' :
  ws !! id = Some ph -> total g (<[id := ph']> ws) + g ph = total g ws + g ph'.
Proof.
  intros Hid. unfold total. rewrite <-insert_delete_eq.
  rewrite map_to_list_insert by apply lookup_delete_eq.
  rewrite <-(map_to_list_delete ws id ph Hid). simpl. lia.
Qed.

Section termination.
Context `{Tika} (cfg : config) (cpus : nat) (listing_ok : listing -> Prop).

Lemma boot_not_forked id l m : (boot cfg cpus id l m).2 <> WForked.
Proof. unfold boot, start_batch. by branch. Qed.

Lemma master_boot_started l m : (master_boot cfg cpus l m).1.2 <> MStart.
Proof. unfold master_boot. by branch. Qed.

(** A worker step consumes its start or one pending callback. *)
Lemma wstep_decreases id w w' :
  wstep cfg cpus listing_ok id w w' ->
  forked_weight (w_phase w') < forked_weight (w_phase w) \/
  forked_weight (w_phase w') = forked_weight (w_phase w) /\
  pending_weight (w_phase w') < pending_weight (w_phase w).
Proof.
  intros [m lg l m' l' ph _ Hb|m lg msg|m lg P i f m' l' ph Hi Hc]; simpl.
  - left. pose proof (boot_not_forked id l m) as Hn. rewrite Hb in Hn. simpl in Hn. destruct ph; simpl; lia || congruence.
  - left. lia.
  - right. unfold complete in Hc. destruct (on_extracted_multicore _ _ _ _).
    assert (Hl : List.length (delete i P) = List.length P - 1) by (apply length_delete; eauto).
    assert (0 < List.length P) by (apply lookup_lt_Some in Hi; lia).
    destruct (delete i P) eqn:Ed; simplify_eq/=; lia.
Qed.

Lemma cstep_decreases s s' : cstep cfg cpus listing_ok s s' -> measure_lt (measure s') (measure s).
Proof.
  intros [m lg l m' l' mp ws _ Hb|m lg mp ws id ph m' lg' ph' Hid Hw].
  - apply left_slex. pose proof (master_boot_started l m) as Hn. rewrite Hb in Hn.
    simpl. destruct mp; simpl in *; lia || congruence.
  - unfold measure. simpl. apply right_slex.
    pose proof (total_insert forked_weight ws id ph ph' Hid).
    pose proof (total_insert pending_weight ws id ph ph' Hid).
    destruct (wstep_decreases _ _ _ Hw) as [Hd|[He Hd]]; simpl in *;
      [apply left_slex; lia|].
    replace (total forked_weight (<[id:=ph']> ws)) with (total forked_weight ws) by lia.
    apply right_slex. lia.
Qed.

(** With at least one CPU no process hangs in [chunkArray]: [MHung]
    and [WHung], the phases that stand for its endless loop, are never
    entered. *)
Lemma master_boot_not_hung l m : 0 < cpus -> (master_boot cfg cpus l m).1.2 <> MHung.
Proof.
  intros Hc. unfold master_boot. repeat case_match; simplify_eq/=; try done.
  match goal with H : fileListBatches _ _ _ = None |- _ =>
    rewrite fileListBatches_spec in H by (done || lia) end. congruence.
Qed.

Lemma boot_not_hung id l m : 0 < cpus -> (boot cfg cpus id l m).2 <> WHung.
Proof.
  intros Hc. unfold boot, start_batch. repeat case_match; simplify_eq/=; try done.
  match goal with H : fileListBatches _ _ _ = None |- _ =>
    rewrite fileListBatches_spec in H by (done || lia) end. congruence.
Qed.

Definition no_hung (s : sys) : Prop :=
  s_master s <> MHung /\ forall id, s_workers s !! id <> Some WHung.

Lemma no_hung_step s s' : 0 < cpus -> no_hung s -> cstep cfg cpus listing_ok s s' -> no_hung s'.
Proof.
  intros Hc Hinv Hstep. destruct Hstep as [m lg l m' l' mp ws _ Hb|m lg mp ws id ph m' lg' ph' Hid Hs];
    destruct Hinv as [Hm Hw]; unfold no_hung; simpl in *.
  - pose proof (master_boot_not_hung l m Hc) as Hn. rewrite Hb in Hn. split; [done|].
    unfold master_boot in Hb. intros id. repeat case_match; simplify_eq; rewrite ?lookup_empty; try done.
    simpl. rewrite lookup_forked_workers. case_decide; congruence.
  - split; [done|]. intros j. rewrite lookup_insert. case_decide; [subst j|apply Hw].
    inversion Hs as [? ? l0 ? l1 ? _ Hb|? ? msg|? ? P i g ? l1 ? _ Hcomp]; subst; [|done|].
    + pose proof (boot_not_hung id l0 m Hc) as Hn. rewrite Hb in Hn. simpl in Hn. congruence.
    + unfold complete in Hcomp. destruct (on_extracted_multicore _ _ _ _).
      destruct (delete i P); simplify_eq; done.
Qed.

(** C8: Termination: with at least one CPU, the interleavings of the
    master and the workers are all finite, whatever listings
    [dir.files] returns and whatever order the callbacks come back in,
    and no state reached from the start has a process looping in
    [chunkArray] ([MHung], [WHung]), so a run ends because every process
    is done, not because one loops forever (with no CPU the master does
    loop: [Chunk.ChunkArray.chunk_loop_stuck]). *)
Theorem cstep_terminates m :
  0 < cpus ->
  well_founded (fun s' s => cstep cfg cpus listing_ok s s') /\
  forall s, rtc (cstep cfg cpus listing_ok) (init_sys m) s ->
    s_master s <> MHung /\ forall id, s_workers s !! id <> Some WHung.
Proof.
  intros Hc. split.
  - eapply wf_incl; [|apply (wf_inverse_image _ _ measure_lt measure), measure_lt_wf].
    intros s' s. apply cstep_decreases.
  - intros s. apply (rtc_invariant _ no_hung); [intros ??; by apply no_hung_step|].
    split; [done|]. intros id. simpl. by rewrite lookup_empty.
Qed.

(** A process is finished when it has exited, failed to spawn or hangs. *)
Definition finished (ph : wphase) : bool :=
  match ph with WForked | WRunning _ => false | _ => true end.

Definition run_inv (s : sys) : Prop :=
  (s_master s = MStart -> s_workers s = ∅) /\
  forall id P, s_workers s !! id = Some (WRunning P) -> P <> [].

Lemma wstep_running id w w' P :
  wstep cfg cpus listing_ok id w w' -> w_phase w' = WRunning P -> P <> [].
Proof.
  intros [m lg l m' l' ph _ Hb|m lg msg|m lg Q i f m' l' ph Hi Hc]; simpl; intros Hp;
    try discriminate; subst ph.
  - unfold boot, start_batch in Hb. by branch.
  - unfold complete in Hc. by branch.
Qed.

Lemma run_inv_step s s' : run_inv s -> cstep cfg cpus listing_ok s s' -> run_inv s'.
Proof.
  intros Hinv Hs. revert Hinv.
  destruct Hs as [m lg l m' l' mp ws _ Hb|m lg mp ws id ph m' lg' ph' Hid Hw];
    intros [Hm Hr]; split; simpl in *.
  - unfold master_boot in Hb. by branch.
  - intros id P Hp. unfold master_boot in Hb. repeat case_match; simplify_eq;
      rewrite ?lookup_empty, ?lookup_forked_workers in Hp; try case_decide; simplify_eq.
  - intros ->. by rewrite (Hm eq_refl), lookup_empty in Hid.
  - intros j P. destruct (decide (j = id)) as [->|Hne].
    + rewrite lookup_insert_eq. intros [= ->]. by eapply (wstep_running id _ _ _ Hw).
    + rewrite lookup_insert_ne by done. apply Hr.
Qed.

(** C9: Every state a run of the system reaches from its start, where no
    step is possible, has every process finished: the master has run,
    and no worker is left forked or waiting for a callback (some
    listing being possible).  With [cstep_terminates], every run ends
    in such a state. *)
Theorem run_ends m s :
  (exists l, listing_ok l) ->
  rtc (cstep cfg cpus listing_ok) (init_sys m) s ->
  (forall s', ~ cstep cfg cpus listing_ok s s') ->
  s_master s <> MStart /\ map_Forall (fun _ ph => finished ph = true) (s_workers s).
Proof.
  intros [l Hl] Hrun Hstuck.
  assert (Hinv : run_inv s).
  { apply (rtc_invariant (cstep cfg cpus listing_ok) run_inv (init_sys m) s);
      [intros ??; apply run_inv_step|by split|exact Hrun]. }
  destruct s as [m0 lg0 mp ws], Hinv as [Hm Hr]; simpl in *. split.
  - intros ->. rewrite (Hm eq_refl) in Hstuck.
    destruct (master_boot cfg cpus l m0) as [[[m' l'] mp'] ws'] eqn:Hb.
    by eapply Hstuck, cs_master.
  - intros id ph Hid. destruct ph as [| | |P|]; [|done|done| |done].
    + destruct (boot cfg cpus id l m0) as [[m' l'] ph'] eqn:Hb.
      exfalso. eapply Hstuck, cs_worker; [exact Hid|]. by eapply ws_boot.
    + destruct P as [|f P]; [by apply Hr in Hid|].
      destruct (complete cfg id (f :: P) 0 f m0) as [[m' l'] ph'] eqn:Hc.
      exfalso. eapply Hstuck, cs_worker; [exact Hid|]. by eapply (ws_complete _ _ _ _ _ _ _ 0).
Qed.
End termination.

(** ** Well-formed states *)

Section well_formed.
Context `{Tika} (cfg : config) (cpus : nat) (files : list string).

Abbreviation fL := (List.filter keep_multicore files).
Abbreviation w := (workerCount cpus fL).

(** The shape of a state of the cluster: no worker before the master
    has run, cluster ids in [1..w], and a running worker waits for a
    non-empty part of its own batch. *)
Definition wf_sys (s : sys) : Prop :=
  (s_master s = MStart -> s_workers s = ∅) /\
  forall j ph, s_workers s !! j = Some ph ->
    1 <= j <= w /\ forall P, ph = WRunning P -> P <> [] /\ P ⊆ group fL w (j - 1).

Lemma boot_pending id m m' l' P :
  0 < cpus -> 1 <= id -> boot cfg cpus id (inl files) m = (m', l', WRunning P) ->
  P = group fL w (id - 1).
Proof.
  intros Hc Hid Hb. destruct (ensure_output m (outputFolder cfg)) as [m1|e] eqn:Ho.
  - rewrite (boot_spec cfg cpus id files m m1) in Hb by done.
    case_decide; [|done]. unfold start_batch in Hb. by branch.
  - unfold boot in Hb. by rewrite Ho in Hb.
Qed.

Definition pend_inv (s : sys) : Prop :=
  forall j P, s_workers s !! j = Some (WRunning P) -> P ⊆ group fL w (j - 1).

Lemma pend_inv_step s s' :
  0 < cpus -> plan_inv cpus files s -> pend_inv s -> cstep cfg cpus (same_listing files) s s' ->
  pend_inv s'.
Proof.
  intros Hc [_ Hids] Hp Hs.
  destruct Hs as [m lg l m' l' mp ws Hl Hb|m lg mp ws id ph m' lg' ph' Hid Hw];
    unfold pend_inv in *; simpl in *.
  - intros j P. unfold master_boot in Hb. branch; rewrite ?lookup_empty, ?lookup_forked_workers;
      by try case_decide.
  - intros j P. rewrite lookup_insert. case_decide; [subst j|by apply Hp]. intros [= ->].
    pose proof (Hids id ph Hid) as Hb1.
    inversion Hw as [? ? l0 ? l1 ? Hl Hb|? ? msg|? ? Q i g ? l1 ? Hi Hcomp]; subst.
    + unfold same_listing in Hl. subst l0. by rewrite (boot_pending id m m' l1 P Hc ltac:(lia) Hb).
    + intros x Hx. apply complete_spec in Hcomp as [_ [[? _]|[[= ->] _]]]; [done|].
      apply (Hp id Q Hid). by eapply delete_subseteq_elem.
Qed.

(** C14: Every state the cluster reaches is well formed (every process
    listing the same files, at least one CPU): no worker exists before
    the master has run, worker ids are [1..w], and a running worker's
    pending files are a non-empty part of its own batch. *)
Theorem reachable_wf m s :
  0 < cpus -> rtc (cstep cfg cpus (same_listing files)) (init_sys m) s -> wf_sys s.
Proof.
  intros Hc Hr.
  assert (Hinv : plan_inv cpus files s /\ pend_inv s /\ run_inv s).
  { apply (rtc_invariant (cstep cfg cpus (same_listing files)) (fun s => plan_inv cpus files s /\ pend_inv s /\ run_inv s) (init_sys m));
      [|split_and!|exact Hr].
    - intros a b (Hpl & Hpe & Hru) Hs. split_and!;
        [by eapply plan_inv_step|by eapply pend_inv_step|by eapply run_inv_step].
    - split; [set_solver|]. intros id ph. simpl. by rewrite lookup_empty.
    - intros j P. simpl. by rewrite lookup_empty.
    - by split. }
  destruct Hinv as ([_ Hids] & Hpe & Hm & Hne). split; [done|].
  intros j ph Hj. split; [by eapply Hids|]. intros P ->. split; [by eapply Hne|by apply Hpe].
Qed.
End well_formed.

(** ** Instances *)

#[local] Existing Instance Worker.stub_tika.

Abbreviation five := ["in/a.pdf"; "in/b.pdf"; "in/c.pdf"; "in/d.pdf"; "in/e.pdf"].

Ltac step_master := eapply rtc_l; [eapply cs_master; reflexivity|].
Ltac step_boot k :=
  eapply rtc_l; [eapply cs_worker with (id := k); [reflexivity|eapply ws_boot; reflexivity]|].
Ltac step_callback k :=
  eapply rtc_l;
  [eapply cs_worker with (id := k); [reflexivity|eapply ws_complete with (i := 0); reflexivity]|].

Lemma processed_in_prefix_witness :
  exists s, rtc (cstep stub_cfg 2 (same_listing five)) (init_sys stub_fs) s /\
    LProcessing "in/a.pdf" ∈ s_log s /\ "in/a.pdf" ∈ take 4 five.
Proof.
  eexists. split; [step_master; step_boot 1; apply rtc_refl|]. split; [decide_in|].
  eapply (processed_in_prefix stub_cfg 2 five stub_fs); [lia| |].
  - step_master; step_boot 1; apply rtc_refl.
  - decide_in.
Defined.

(** Five files on two CPUs: [e.pdf], the fifth, is never processed. *)
Lemma dropped_files_witness :
  exists s, rtc (cstep stub_cfg 2 (same_listing five)) (init_sys stub_fs) s /\
    s_workers s !! 1 = Some (WExited 0) /\ s_workers s !! 2 = Some (WExited 0) /\
    LProcessing "in/e.pdf" ∉ s_log s.
Proof.
  eexists. split.
  { step_master; step_boot 1; step_boot 2; do 2 step_callback 1; do 2 step_callback 2.
    apply rtc_refl. }
  split_and!; [reflexivity|reflexivity|].
  eapply (dropped_files stub_cfg 2 five stub_fs _ 4); [lia|decide_in|reflexivity| |].
  - vm_compute. lia.
  - step_master; step_boot 1; step_boot 2; do 2 step_callback 1; do 2 step_callback 2.
    apply rtc_refl.
Defined.

Lemma cstep_terminates_witness :
  0 < 2 /\ exists s, rtc (cstep stub_cfg 2 (same_listing five)) (init_sys stub_fs) s /\
    s_master s = MForked /\ s_master s <> MHung.
Proof.
  split; [lia|]. eexists. split; [step_master; apply rtc_refl|]. split; [reflexivity|].
  apply (cstep_terminates stub_cfg 2 (same_listing five) stub_fs); [lia|].
  step_master; apply rtc_refl.
Defined.

(** The run of [dropped_files_witness] ends with every process finished. *)
Lemma run_ends_witness :
  exists s, rtc (cstep stub_cfg 2 (same_listing five)) (init_sys stub_fs) s /\
    s_master s <> MStart /\ map_Forall (fun _ ph => finished ph = true) (s_workers s).
Proof.
  eexists. split.
  { step_master; step_boot 1; step_boot 2; do 2 step_callback 1; do 2 step_callback 2.
    apply rtc_refl. }
  apply (run_ends stub_cfg 2 (same_listing five) stub_fs).
  - by exists (inl five).
  - step_master; step_boot 1; step_boot 2; do 2 step_callback 1; do 2 step_callback 2.
    apply rtc_refl.
  - intros s' Hs. inversion Hs as [|? ? ? ws id ph ? ? ? Hid Hw]; subst.
    vm_compute in Hid. repeat case_match; simplify_eq; inversion Hw.
Defined.

(** Five files on two CPUs, worker 1 fails to spawn: [a.pdf], in its
    batch, is never processed while worker 2 completes its own. *)
Lemma spawn_failure_drops_batch_witness :
  exists s, rtc (cstep stub_cfg 2 (same_listing five)) (init_sys stub_fs) s /\
    s_workers s !! 1 = Some WSpawnFailed /\ s_workers s !! 2 = Some (WExited 0) /\
    LProcessing "in/a.pdf" ∉ s_log s.
Proof.
  eexists. split.
  { step_master. eapply rtc_l; [eapply cs_worker with (id := 1); [reflexivity|apply ws_spawn_fail with (msg := "spawn EAGAIN")]|].
    step_boot 2; do 2 step_callback 2. apply rtc_refl. }
  split_and!; [reflexivity|reflexivity|].
  eapply (spawn_failure_drops_batch stub_cfg 2 five stub_fs _ 1); [lia|decide_in| |reflexivity|decide_in].
  step_master. eapply rtc_l; [eapply cs_worker with (id := 1); [reflexivity|apply ws_spawn_fail with (msg := "spawn EAGAIN")]|].
  step_boot 2; do 2 step_callback 2. apply rtc_refl.
Defined.

Lemma reachable_wf_witness :
  exists s, rtc (cstep stub_cfg 2 (same_listing five)) (init_sys stub_fs) s /\
    s_workers s !! 2 = Some (WRunning ["in/c.pdf"; "in/d.pdf"]) /\ wf_sys 2 five s.
Proof.
  eexists. split; [step_master; step_boot 1; step_boot 2; apply rtc_refl|]. split; [reflexivity|].
  apply (reachable_wf stub_cfg 2 five stub_fs); [lia|step_master; step_boot 1; step_boot 2; apply rtc_refl].
Defined.

Abbreviation four := ["in/a.pdf"; "in/b.pdf"; "in/c.pdf"; "in/d.pdf"].

(** C19: The listing race: four files on two CPUs (two batches of two);
    worker 1 lists [a, b, c, d] and takes [a, b], worker 2 lists
    [c, d, a, b] and takes [a, b] as well: [a] and [b] are processed
    twice, [c] and [d] never, and both workers exit with success. *)
Lemma listing_order_race :
  exists s,
    rtc (cstep stub_cfg 2 (perm_listing four)) (init_sys stub_fs) s /\
    s_workers s !! 1 = Some (WExited 0) /\ s_workers s !! 2 = Some (WExited 0) /\
    length (List.filter (fun l => bool_decide (l = LProcessing "in/a.pdf")) (s_log s)) = 2 /\
    LProcessing "in/c.pdf" ∉ s_log s /\ LProcessing "in/d.pdf" ∉ s_log s.
Proof.
  eexists. split.
  { eapply rtc_l; [eapply cs_master with (l := inl four);
      [eexists; split; [reflexivity|done]|reflexivity]|].
    eapply rtc_l; [eapply cs_worker with (id := 1);
      [reflexivity|eapply ws_boot with (l := inl four);
        [eexists; split; [reflexivity|done]|reflexivity]]|].
    eapply rtc_l; [eapply cs_worker with (id := 2);
      [reflexivity|eapply ws_boot with (l := inl ["in/c.pdf"; "in/d.pdf"; "in/a.pdf"; "in/b.pdf"]);
        [eexists; split; [reflexivity|apply (Permutation_app_comm ["in/c.pdf"; "in/d.pdf"])]
        |reflexivity]]|].
    do 2 step_callback 1; do 2 step_callback 2. apply rtc_refl. }
  split_and!; [reflexivity|reflexivity|vm_compute; reflexivity| |];
    apply (bool_decide_unpack _); vm_compute; reflexivity.
Qed.

End Cluster.
