(* ===== verification/Sequential.v ===== *)
(** * The single-process script src/extract.js

    [init] (lines 35-51) configures, creates the output folder and calls
    [readFiles(processFiles)]; [readFiles] (lines 53-65) lists the input
    folder and keeps the names matching [/.*.pdf/]; [processFiles]
    (lines 67-86) prints a start line and runs [recurse]: while the
    shared array [files] is not empty it prints "Processing file k of n",
    pops the {e last} file and extracts it, and the [tika.text] callback
    (lines 88-102) prints the error if any, saves the result and calls
    [recurse] again.  One extraction is in flight at a time.  [recurse]
    is modelled with fuel; [seq_spec] is the reference run over the
    files in reverse order. *)

From S2P Require Import Prelude Js NodePath NodeFs Extract Worker.
From Stdlib Require Import ZArith.

Import NodePath NodeFs Extract Worker.

Module Sequential.
Section sequential.
Context `{Tika} (cfg : config).

(** One [tika.text] call and its callback. *)
Definition extract_one (m : fsys) (f : string) : fsys * list line :=
  on_extracted_sequential (outputFolder cfg) m f (tika_text f (options cfg)).

(** [recurse], with [files] the array it pops from and [filesCount]
    its length at the start. *)
Fixpoint recurse (fuel : nat) (filesCount : nat) (files : list string) (m : fsys)
    (lg : list line) : option (fsys * list line) :=
  match fuel with
  | O => None
  | S fuel' =>
      match pop files with
      | None => Some (m, lg ++ [LSeqFinished filesCount])
      | Some (f, rest) =>
          let lg1 := lg ++ [LSeqProgress (filesCount - length files + 1) filesCount] in
          let '(m', l) := extract_one m f in
          recurse fuel' filesCount rest m' (lg1 ++ l)
      end
  end.

(** [processFiles(files)] *)
Definition processFiles (fuel : nat) (files : list string) (m : fsys) (lg : list line)
    : option (fsys * list line) :=
  recurse fuel (length files) files m (lg ++ [LSeqStarted]).

(** [init] after its assignments: the output folder, [readFiles], then
    [processFiles]; an uncaught error ends the process. *)
Definition main (fuel : nat) (l : list string + string) (m : fsys)
    : option (fsys * list line) :=
  match ensure_output m (outputFolder cfg) with
  | inr e => Some (m, [LError (FsError e)])
  | inl m1 =>
      match l with
      | inr msg => Some (m1, [LError (DirError msg)])
      | inl files => processFiles fuel (List.filter keep_sequential files) m1 []
      end
  end.

(** The reference: the files taken in the given order, the [k]-th
    printing "Processing file k of n". *)
Fixpoint seq_spec (k n : nat) (todo : list string) (m : fsys) : fsys * list line :=
  match todo with
  | [] => (m, [LSeqFinished n])
  | f :: r =>
      let '(m1, l1) := extract_one m f in
      let '(m2, l2) := seq_spec (S k) n r m1 in
      (m2, LSeqProgress k n :: l1 ++ l2)
  end.
End sequential.

Section sequential_facts.
Context `{Tika} (cfg : config).

Lemma recurse_spec n files fuel m lg :
  length files < fuel -> length files <= n ->
  recurse cfg fuel n files m lg =
    Some (let '(m', l) := seq_spec cfg (n - length files + 1) n (rev files) m in
          (m', lg ++ l)).
Proof.
  revert fuel m lg. induction files as [|f files IH] using rev_ind;
    intros fuel m lg Hf Hn; (destruct fuel as [|fuel]; [simpl in *; lia|]).
  - done.
  - cbn [recurse]. rewrite pop_snoc, length_app in *. cbn [length] in *.
    rewrite rev_app_distr. cbn [rev app seq_spec].
    destruct (extract_one cfg m f) as [m1 l1].
    rewrite IH by lia.
    replace (S (n - (length files + 1) + 1)) with (n - length files + 1) by lia.
    destruct (seq_spec _ _ _ _ _) as [m2 l2].
    by rewrite <-!app_assoc.
Qed.

(** C22: [processFiles] terminates, after one [recurse] per file and the
    final one, and extracts the files one at a time from the {e last}
    to the first: its file system and console are those of [seq_spec]
    run on the reversed list. *)
Lemma processFiles_spec files m lg :
  processFiles cfg (S (length files)) files m lg =
    Some (let '(m', l) := seq_spec cfg 1 (length files) (rev files) m in
          (m', lg ++ LSeqStarted :: l)).
Proof.
  unfold processFiles. rewrite recurse_spec by lia.
  rewrite Nat.sub_diag. destruct (seq_spec _ _ _ _ _). by rewrite <-app_assoc.
Qed.

Lemma seq_spec_cons k n f r m :
  seq_spec cfg k n (f :: r) m =
    ((seq_spec cfg (S k) n r (extract_one cfg m f).1).1,
     LSeqProgress k n :: (extract_one cfg m f).2 ++
       (seq_spec cfg (S k) n r (extract_one cfg m f).1).2).
Proof. simpl. destruct (extract_one cfg m f), (seq_spec _ _ _ _ _). done. Qed.

(** C25: Every failed extraction is printed (unlike the callback of the
    multicore script). *)
Lemma seq_spec_logs_errors k n todo m f e :
  f ∈ todo -> tika_text f (options cfg) = TikaFail e ->
  LError (TikaError e) ∈ (seq_spec cfg k n todo m).2.
Proof.
  revert k m. induction todo as [|g todo IH]; intros k m Hf He; [set_solver|].
  rewrite seq_spec_cons. simpl. apply elem_of_cons in Hf as [->|Hf].
  - assert (LError (TikaError e) ∈ (extract_one cfg m g).2).
    { unfold extract_one, on_extracted_sequential. rewrite He.
      destruct (saveFile_sequential _ _ _). set_solver. }
    set_solver.
  - pose proof (IH (S k) (extract_one cfg m g).1 Hf He). set_solver.
Qed.

Lemma seq_spec_fs k n todo m : (seq_spec cfg k n todo m).1 = save_all cfg m todo.
Proof.
  revert k m. induction todo as [|f todo IH]; intros k m; [done|].
  rewrite seq_spec_cons. simpl. rewrite IH. f_equal.
  unfold extract_one, on_extracted_sequential, save_one, on_extracted_multicore.
  by rewrite saveFile_sequential_eq; destruct (saveFile _ _ _).
Qed.

(** C24: The single-process script and a multicore worker given the same
    files leave the same file system (files with pairwise different
    names): the reverse order of [extract.js] and the free callback
    order of [async.each] do not matter. *)
Lemma sequential_multicore_same_outputs files m lg m' l :
  NoDup (fileName <$> files) ->
  processFiles cfg (S (length files)) files m lg = Some (m', l) ->
  m' = save_all cfg m files.
Proof.
  intros Hnd Hp. unfold processFiles in Hp. rewrite recurse_spec, Nat.sub_diag in Hp by lia.
  destruct (seq_spec cfg (0 + 1) _ _ _) as [m2 l2] eqn:E. simplify_eq.
  apply (f_equal fst) in E. rewrite seq_spec_fs in E. simpl in E. rewrite <-E.
  apply save_all_perm; [symmetry; apply Permutation_rev|].
  by rewrite <-Permutation_rev.
Qed.
Lemma extract_one_no_progress m f k n : LSeqProgress k n ∉ (extract_one cfg m f).2.
Proof.
  unfold extract_one, on_extracted_sequential, saveFile_sequential.
  destruct (tika_text _ _), (writeFileSync _ _ _); simpl; set_solver.
Qed.

Lemma seq_spec_progress k0 n todo m k n' :
  LSeqProgress k n' ∈ (seq_spec cfg k0 n todo m).2 -> n' = n /\ k0 <= k < k0 + List.length todo.
Proof.
  revert k0 m. induction todo as [|f todo IH]; intros k0 m.
  - simpl. by intros ?%list_elem_of_singleton.
  - rewrite seq_spec_cons. simpl. intros [Hk|[Hk|Hk]%elem_of_app]%elem_of_cons.
    + simplify_eq. lia.
    + by apply extract_one_no_progress in Hk.
    + apply IH in Hk. lia.
Qed.

(** C23: Bounds of the progress counter: every "Processing file k of n" line
    of a run of [processFiles] has [n] the number of files and
    [1 <= k <= n]; the counter [filesCount - files.length + 1] never
    leaves that range. *)
Lemma progress_counter_bounds files m m' l k n :
  processFiles cfg (S (List.length files)) files m [] = Some (m', l) ->
  LSeqProgress k n ∈ l -> n = List.length files /\ 1 <= k <= List.length files.
Proof.
  intros Hp Hk. unfold processFiles in Hp. rewrite recurse_spec, Nat.sub_diag in Hp by lia.
  destruct (seq_spec cfg (0 + 1) _ _ _) as [m2 l2] eqn:E. simplify_eq/=.
  apply elem_of_cons in Hk as [?|Hk]; [done|].
  assert (Hl2 : l2 = (seq_spec cfg 1 (List.length files) (rev files) m).2) by by rewrite E.
  rewrite Hl2 in Hk. apply seq_spec_progress in Hk. rewrite length_rev in Hk. lia.
Qed.
End sequential_facts.

(** ** Instances *)

#[local] Existing Instance Worker.stub_tika.

Lemma seq_spec_logs_errors_witness :
  LError (TikaError "boom") ∈
    (seq_spec stub_cfg 1 2 (rev ["in/a.pdf"; "in/b.pdf"]) stub_fs).2.
Proof. apply (seq_spec_logs_errors stub_cfg _ _ _ _ "in/b.pdf"); [set_solver|reflexivity]. Defined.

Lemma sequential_multicore_same_outputs_witness :
  exists m' l,
    processFiles stub_cfg 3 ["in/a.pdf"; "in/b.pdf"] stub_fs [] = Some (m', l) /\
    m' = save_all stub_cfg stub_fs ["in/a.pdf"; "in/b.pdf"].
Proof.
  eexists _, _. split; [reflexivity|].
  eapply (sequential_multicore_same_outputs stub_cfg ["in/a.pdf"; "in/b.pdf"] stub_fs []);
    [vm_compute; repeat constructor; set_solver|reflexivity].
Defined.
Lemma progress_counter_bounds_witness :
  exists m' l, processFiles stub_cfg 3 ["in/a.pdf"; "in/b.pdf"] stub_fs [] = Some (m', l) /\
    LSeqProgress 2 2 ∈ l /\ (2 = 2 /\ 1 <= 2 <= 2).
Proof.
  eexists _, _. split; [reflexivity|]. split; [decide_in|].
  eapply (progress_counter_bounds stub_cfg ["in/a.pdf"; "in/b.pdf"] stub_fs); [reflexivity|decide_in].
Defined.

End Sequential.
