(* ===== verification/Server.v ===== *)
(** * The search service src/server.js

    An Express application: a middleware (lines 146-160) that adds the
    CORS headers to every response and answers [OPTIONS] itself with
    status 200, then the router (lines 29-143): [GET /] returns a
    description, [GET /match/:query], [/custom/:query], [/fuzzy/:query]
    and [/regexp/:query] send one search request to Elasticsearch and
    answer with its result.  The request bodies are JSON values; the
    Elasticsearch client is the class [Elastic], which gives the two
    arguments [(error, result)] of the callback of [client.search]; the
    handlers answer [res.json(result)] without looking at [error].  The
    path is given as its segments, already split and URL-decoded by
    Express; a route parameter is one segment. *)

From S2P Require Import Prelude.
From Stdlib Require Import ZArith Ascii String.

Module Server.

Inductive json :=
| JBool (b : bool)
| JNum (n : Z)
| JStr (s : string)
| JArr (l : list json)
| JObj (kv : list (string * json)).

(** [client.search(params, cb)] calls [cb(error, result)]: the error
    ([None] when there is none) and the result ([None] is [undefined],
    as on an error). *)
Class Elastic := es_search : json -> option string * option json.

Definition index : string := "my-index".
Definition maxSize : Z := 100.
Definition _source : json := JObj [("excludes", JArr [JStr "body*"])].
Definition highlight : json := JObj [("fields", JObj [("body", JObj [])])].

(** The parameters of [client.search] for a query. *)
Definition search_params (query : json) : json :=
  JObj [("index", JStr index); ("size", JNum maxSize);
        ("body", JObj [("query", query); ("_source", _source); ("highlight", highlight)])].

Definition match_query (q : string) : json :=
  JObj [("multi_match", JObj [("query", JStr q); ("type", JStr "phrase");
                              ("fields", JArr [JStr "body"; JStr "body.folded"])])].

Definition custom_query (q : string) : json :=
  JObj [("simple_query_string", JObj [("query", JStr q);
                                      ("fields", JArr [JStr "body"; JStr "body.folded"]);
                                      ("default_operator", JStr "and");
                                      ("analyze_wildcard", JBool true)])].

Definition fuzzy_query (q : string) : json := JObj [("fuzzy", JObj [("body", JStr q)])].

Definition regexp_query (q : string) : json := JObj [("regexp", JObj [("body", JStr q)])].

Inductive body := BJson (j : option json) | BText (s : string).

Record response := Response {
  status : nat;
  headers : list (string * string);
  rbody : body
}.

(** A request: its method and the segments of its path, split at ['/']
    and URL-decoded by Express, the empty segment of a trailing slash
    left out. *)
Record request := Request { method : string; segments : list string }.

Definition cors_headers : list (string * string) :=
  [("Access-Control-Allow-Origin", "*");
   ("Access-Control-Allow-Methods", "GET,OPTIONS");
   ("Access-Control-Allow-Headers",
    "Content-Type, Authorization, Content-Length, X-Requested-With")].

(** ** Routing *)

(** The four search routes and their query bodies. *)
Inductive search_kind := Match | Custom | Fuzzy | Regexp.

Definition route_name (k : search_kind) : string :=
  match k with Match => "match" | Custom => "custom" | Fuzzy => "fuzzy" | Regexp => "regexp" end.

Definition query_of (k : search_kind) : string -> json :=
  match k with
  | Match => match_query | Custom => custom_query | Fuzzy => fuzzy_query | Regexp => regexp_query
  end.

Inductive endpoint := Info | Search (k : search_kind) (q : string).

(** Express routes match paths case-insensitively. *)
Definition lower_ascii (c : ascii) : ascii :=
  let n := nat_of_ascii c in if (65 <=? n) && (n <=? 90) then ascii_of_nat (n + 32) else c.
Fixpoint lower (s : string) : string :=
  match s with EmptyString => EmptyString | String c s' => String (lower_ascii c) (lower s') end.

Definition kind_of (seg : string) : option search_kind :=
  let s := lower seg in
  if String.eqb s "match" then Some Match
  else if String.eqb s "custom" then Some Custom
  else if String.eqb s "fuzzy" then Some Fuzzy
  else if String.eqb s "regexp" then Some Regexp
  else None.

(** The route a [GET] (or [HEAD]) path matches: ['/'], or
    ['/<name>/:query'] with a non-empty [query] segment. *)
Definition match_route (segs : list string) : option endpoint :=
  match segs with
  | [] => Some Info
  | [seg; q] =>
      match kind_of seg with
      | Some k => if String.eqb q "" then None else Some (Search k q)
      | None => None
      end
  | _ => None
  end.

Definition info : json :=
  JObj [("name", JStr "Elasticsearch Simple Search");
        ("message", JStr "Elasticsearch Simple Search is up and running");
        ("version", JStr "0.0.1")].

Section server.
Context {ES : Elastic}.

(** The handler of an endpoint: the value passed to [res.json]; a
    search route passes the [result] of the callback and ignores its
    [error]. *)
Definition handler (e : endpoint) : option json :=
  match e with
  | Info => Some info
  | Search k q => (es_search (search_params (query_of k q))).2
  end.

(** The router, mounted at ['/']: [router.get] routes answer [GET] and
    [HEAD]; [None] when no route matches. *)
Definition route (r : request) : option (option json) :=
  if bool_decide (method r = "GET" \/ method r = "HEAD") then handler <$> match_route (segments r)
  else None.

(** The application: the CORS middleware sets the three headers, then
    answers [OPTIONS] with [res.send(200)] or passes on to the router;
    a handler answers [res.json(result)] with status 200, and a request
    no route matches gets Express's 404. *)
Definition handle (r : request) : response :=
  if String.eqb "OPTIONS" (method r) then Response 200 cors_headers (BText "OK")
  else match route r with
       | Some j => Response 200 cors_headers (BJson j)
       | None => Response 404 cors_headers (BText "Not Found")
       end.
End server.

(** ** Routing facts *)

Lemma lower_route_name k : lower (route_name k) = route_name k.
Proof. by destruct k. Qed.

Lemma kind_of_route_name k : kind_of (route_name k) = Some k.
Proof. by destruct k. Qed.

Lemma lower_ascii_idem c : lower_ascii (lower_ascii c) = lower_ascii c.
Proof.
  unfold lower_ascii. cbv zeta. destruct ((65 <=? nat_of_ascii c) && _) eqn:E; [|by rewrite E].
  apply andb_prop in E as [E1 E2]. apply Nat.leb_le in E1, E2.
  rewrite nat_ascii_embedding by lia.
  destruct ((65 <=? _) && _) eqn:E'; [|done].
  apply andb_prop in E' as [_ E']. apply Nat.leb_le in E'. lia.
Qed.

Lemma lower_idem s : lower (lower s) = lower s.
Proof. induction s as [|c s IH]; [done|]. simpl. by rewrite IH, lower_ascii_idem. Qed.

Lemma kind_of_lower s : kind_of (lower s) = kind_of s.
Proof. unfold kind_of. by rewrite lower_idem. Qed.

Lemma kind_of_inv s k : kind_of s = Some k -> lower s = route_name k.
Proof.
  unfold kind_of.
  repeat match goal with |- context [String.eqb ?a ?b] =>
    destruct (String.eqb_spec a b) as [->|]; [by intros [= <-]|] end.
  done.
Qed.

Lemma match_route_search seg k q :
  lower seg = route_name k -> q <> "" -> match_route [seg; q] = Some (Search k q).
Proof.
  intros Hl Hq. simpl. rewrite <-kind_of_lower, Hl, kind_of_route_name.
  by destruct (String.eqb_spec q "").
Qed.

(** C35: The path ['/<name>/<q>'] of a search route, with [name] in any
    case, matches that route with the query [q], and only those paths and
    ['/'] match a route. *)
Lemma match_route_iff segs e :
  match_route segs = Some e <->
  (segs = [] /\ e = Info) \/
  exists seg k q, segs = [seg; q] /\ lower seg = route_name k /\ q <> "" /\ e = Search k q.
Proof.
  split.
  - destruct segs as [|seg [|q [|]]]; simpl; try done; [intros [= <-]; by left|].
    destruct (kind_of seg) as [k|] eqn:Hk; [|done].
    destruct (String.eqb_spec q ""); [done|]. intros [= <-]. right.
    exists seg, k, q. by rewrite (kind_of_inv _ _ Hk).
  - intros [[-> ->]|(seg & k & q & -> & Hl & Hq & ->)]; [done|].
    by apply match_route_search.
Qed.

Section server_facts.
Context {ES : Elastic}.

(** C31: Every response carries the three CORS headers; a preflight
    [OPTIONS] request is answered 200 by the middleware whatever its
    path, and the search service is not consulted for it. *)
Lemma handle_cors r :
  headers (handle r) = cors_headers /\
  (method r = "OPTIONS" ->
   handle r = Response 200 cors_headers (BText "OK") /\
   forall E' : Elastic, handle (ES := E') r = handle r).
Proof.
  unfold handle. split; [by repeat case_match|].
  intros ->. by rewrite String.eqb_refl.
Qed.

Lemma route_search seg q k :
  lower seg = route_name k -> q <> "" ->
  route (Request "GET" [seg; q]) = Some (es_search (search_params (query_of k q))).2.
Proof.
  intros Hl Hq. unfold route. cbn [method segments].
  rewrite bool_decide_true by auto. by rewrite (match_route_search seg k q).
Qed.

Lemma handle_route_search seg q k :
  lower seg = route_name k -> q <> "" ->
  handle (Request "GET" [seg; q]) =
    Response 200 cors_headers (BJson (es_search (search_params (query_of k q))).2).
Proof. intros Hl Hq. unfold handle. by rewrite (route_search seg q k). Qed.

(** C32: A [GET] on a search route sends exactly one request to
    Elasticsearch, written out here as the JSON the source builds: index
    ["my-index"], at most 100 hits, the route's query on [q], the
    document body left out of the hits and highlighted; the answer is
    200 with the search's result. *)
Lemma handle_search seg q :
  q <> "" ->
  let request query :=
    JObj [("index", JStr "my-index"); ("size", JNum 100);
          ("body", JObj [("query", query);
                         ("_source", JObj [("excludes", JArr [JStr "body*"])]);
                         ("highlight", JObj [("fields", JObj [("body", JObj [])])])])] in
  let answers query :=
    handle (Request "GET" [seg; q]) = Response 200 cors_headers (BJson (es_search (request query)).2) in
  (lower seg = "match" ->
   answers (JObj [("multi_match", JObj [("query", JStr q); ("type", JStr "phrase");
                                        ("fields", JArr [JStr "body"; JStr "body.folded"])])])) /\
  (lower seg = "custom" ->
   answers (JObj [("simple_query_string", JObj [("query", JStr q);
                                                ("fields", JArr [JStr "body"; JStr "body.folded"]);
                                                ("default_operator", JStr "and");
                                                ("analyze_wildcard", JBool true)])])) /\
  (lower seg = "fuzzy" -> answers (JObj [("fuzzy", JObj [("body", JStr q)])])) /\
  (lower seg = "regexp" -> answers (JObj [("regexp", JObj [("body", JStr q)])])).
Proof.
  intros Hq request answers. unfold answers, request.
  split_and!; intros Hl; [apply (handle_route_search seg q Match)|apply (handle_route_search seg q Custom)
    |apply (handle_route_search seg q Fuzzy)|apply (handle_route_search seg q Regexp)]; done.
Qed.

(** C33: The handlers ignore the error of the search: whatever error the
    callback receives, the answer is 200 with [res.json(result)], the
    empty body when the result is [undefined]. *)
Lemma handle_search_error seg q k e r :
  lower seg = route_name k -> q <> "" ->
  es_search (search_params (query_of k q)) = (Some e, r) ->
  handle (Request "GET" [seg; q]) = Response 200 cors_headers (BJson r).
Proof.
  intros Hl Hq He. unfold handle, route. cbn [method segments].
  rewrite bool_decide_true by auto. rewrite (match_route_search seg k q) by done. simpl. by rewrite He.
Qed.

(** C34: A request gets 404 exactly when it is neither a preflight nor a
    [GET]/[HEAD] on a route. *)
Lemma handle_not_found r :
  status (handle r) = 404 <->
  method r <> "OPTIONS" /\
  (~ (method r = "GET" \/ method r = "HEAD") \/ match_route (segments r) = None).
Proof.
  unfold handle, route. destruct (String.eqb_spec "OPTIONS" (method r)) as [<-|Hm].
  { simpl. split; [done|]. by intros [? _]. }
  case_bool_decide as Hg; destruct (match_route _) eqn:Hr; simpl; naive_solver.
Qed.

End server_facts.

(** ** Instances *)

(** A search service that is down. *)
#[local] Instance es_down : Elastic := fun _ => (Some "connect ECONNREFUSED", None).

Lemma handle_search_error_witness :
  handle (Request "GET" ["Fuzzy"; "Jhon"]) = Response 200 cors_headers (BJson None).
Proof. apply (handle_search_error "Fuzzy" "Jhon" Fuzzy "connect ECONNREFUSED"); reflexivity || discriminate. Defined.

Lemma handle_search_witness :
  handle (Request "GET" ["MATCH"; "John Doe"]) =
    Response 200 cors_headers (BJson None).
Proof. exact (proj1 (handle_search "MATCH" "John Doe" ltac:(discriminate)) eq_refl). Defined.

Lemma handle_cors_witness :
  handle (Request "OPTIONS" ["match"; "x"]) = Response 200 cors_headers (BText "OK").
Proof. apply (handle_cors (Request "OPTIONS" ["match"; "x"])). reflexivity. Defined.

(** The route parameter is one path segment: an empty query, a query
    with a slash, and a [POST] get 404. *)
Lemma handle_not_found_witness :
  status (handle (Request "GET" ["match"; ""])) = 404 /\
  status (handle (Request "GET" ["regexp"; "a"; "b"])) = 404 /\
  status (handle (Request "POST" ["match"; "a"])) = 404.
Proof.
  split_and!; apply handle_not_found; split; try discriminate; [right|right|left]; try reflexivity.
  intros [H|H]; discriminate.
Defined.

End Server.
