(* ===== verification/BatchSpec.v ===== *)
(** * The batch contract of the spec, and its two implementations

    The spec (section 4.2, section 5) describes a worker's job: for each
    file of its batch, strictly in the assigned order and one at a time,
    call the extraction service and hand the result to the output
    writer; once the batch is exhausted, report exactly one outcome.
    [ostep] is that contract as a step relation on the file system, the
    files still to do and whether the outcome has been reported (the
    console left out).  [astep] relaxes it: any remaining file may come
    next.

    The single-process script refines the relaxed contract
    ([sequential_refines_spec]; it takes the files from the last, the
    quirk of spec section 4.4).  The multicore worker ([Worker.wstep])
    refines the relaxed contract too ([worker_refines_spec]), but not
    the spec's: [async.each] starts every extraction at once and saves
    in callback order, and [worker_not_in_order] exhibits a step of the
    worker no run of [ostep] matches. *)

From S2P Require Import Prelude Js NodePath NodeFs Extract Worker Sequential.

Import NodePath NodeFs Extract Worker Sequential.

Module BatchSpec.

Record astate := AState { a_fs : fsys; a_todo : list string; a_reported : bool }.

Section spec.
Context `{Tika} (cfg : config).

(** The spec's contract: extract and save the first file still to do,
    or, with none left, report the outcome. *)
Inductive ostep : astate -> astate -> Prop :=
| os_extract m f todo :
    ostep (AState m (f :: todo) false) (AState (save_one cfg m f) todo false)
| os_report m :
    ostep (AState m [] false) (AState m [] true).

(** One step of the relaxed contract: extract and save any file still to
    do, or, with none left, report the outcome. *)
Inductive astep : astate -> astate -> Prop :=
| as_extract m todo i f :
    todo !! i = Some f ->
    astep (AState m todo false) (AState (save_one cfg m f) (delete i todo) false)
| as_report m :
    astep (AState m [] false) (AState m [] true).

(** The relation between a worker and the contract: a running worker has
    its pending files to do, an exited one has reported success. *)
Definition worker_rel (w : wstate) (a : astate) : Prop :=
  match w_phase w with
  | WRunning P => a = AState (w_fs w) P false
  | WExited 0 => a = AState (w_fs w) [] true
  | _ => False
  end.
End spec.

(** ** The contract's outcome *)

Section spec_facts.
Context `{Tika} (cfg : config).

Lemma astep_reported m todo a : ~ astep cfg (AState m todo true) a.
Proof. inversion 1. Qed.

(** The contract's complete runs save the batch in some order. *)
Lemma spec_run_perm m P a :
  rtc (astep cfg) (AState m P false) a -> a_reported a = true ->
  exists Q, Q ≡ₚ P /\ a_fs a = save_all cfg m Q.
Proof.
  intros Hr. remember (AState m P false) as a0 eqn:E. revert m P E.
  induction Hr as [a0|a0 a1 a2 Hs Hr IH]; intros m P -> Hrep; [done|].
  inversion Hs as [? ? i f Hi|]; subst.
  - destruct (IH _ _ eq_refl Hrep) as (Q & HQ & Hfs). exists (f :: Q). split.
    + rewrite HQ. symmetry. by apply delete_Permutation.
    + done.
  - apply rtc_inv in Hr as [<-|(a' & Ha & _)]; [by exists []|].
    by apply astep_reported in Ha.
Qed.
(** The contract determines the outputs: with pairwise different file
    names, every complete run of it leaves the file system that saving
    the batch in its given order leaves. *)
Lemma spec_outputs_unique m P a :
  NoDup (fileName <$> P) -> rtc (astep cfg) (AState m P false) a -> a_reported a = true ->
  a_fs a = save_all cfg m P.
Proof.
  intros Hnd Hr Hrep. destruct (spec_run_perm m P a Hr Hrep) as (Q & HQ & ->).
  apply save_all_perm; [done|]. by rewrite HQ.
Qed.
End spec_facts.

(** ** The multicore worker refines the relaxed contract *)

Section worker_refinement.
Context `{Tika} (cfg : config) (cpus : nat) (lok : listing -> Prop) (id : nat).

Lemma worker_simulation w w' :
  wstep cfg cpus lok id w w' -> forall a, worker_rel w a ->
  exists a', tc (astep cfg) a a' /\ worker_rel w' a'.
Proof.
  intros Hs a Hrel. destruct Hs as [m lg l m' l' ph _ _|m lg msg|m lg P i f m' l' ph Hi Hc];
    [done|done|]. unfold worker_rel in Hrel. simpl in Hrel. subst a.
  apply complete_spec in Hc as [-> Hph].
  assert (Hst : astep cfg (AState m P false) (AState (save_one cfg m f) (delete i P) false))
    by by constructor.
  destruct Hph as [[-> Ed]|[-> _]].
  - exists (AState (save_one cfg m f) [] true). split; [|done].
    eapply tc_l; [rewrite Ed in Hst; exact Hst|]. apply tc_once, as_report.
  - exists (AState (save_one cfg m f) (delete i P) false). split; [by apply tc_once|done].
Qed.
(** Every run of a worker from the moment it holds its batch is matched
    by a run of the relaxed contract from that batch; when the worker
    has exited with success, the contract has reported with the same
    file system. *)
Theorem worker_refines_spec m lg P w' :
  rtc (wstep cfg cpus lok id) (WState m lg (WRunning P)) w' ->
  exists a, rtc (astep cfg) (AState m P false) a /\ worker_rel w' a.
Proof.
  intros Hr. eapply (simulation_rtc _ _ worker_rel); [|exact Hr|done].
  apply worker_simulation.
Qed.
(** The runs of the spec's contract consume the batch from its front. *)
Lemma ostep_todo m P a : rtc (ostep cfg) (AState m P false) a -> exists k, a_todo a = drop k P.
Proof.
  intros Hr. remember (AState m P false) as a0 eqn:E. revert m P E.
  induction Hr as [a0|a0 a1 a2 Hs Hr IH]; intros m P ->; [by exists 0|].
  inversion Hs as [m' f todo|m']; subst.
  - destruct (IH _ _ eq_refl) as [k Hk]. exists (S k). by rewrite Hk.
  - apply rtc_inv in Hr as [<-|(a' & Ha & _)]; [by exists 0|inversion Ha].
Qed.

(** C5: The multicore worker does not implement the spec's batch
    contract ("strictly in assigned order, one at a time"): with two
    different files at the head of its batch, the worker can save the
    second one first (its [tika.text] callback returns first, as
    [async.each] allows), reaching a state that no run of the in-order
    contract reaches. *)
Theorem worker_not_in_order m lg f g rest :
  f <> g ->
  exists w', wstep cfg cpus lok id (WState m lg (WRunning (f :: g :: rest))) w' /\
    forall a, rtc (ostep cfg) (AState m (f :: g :: rest) false) a -> ~ worker_rel w' a.
Proof.
  intros Hfg. destruct (complete cfg id (f :: g :: rest) 1 g m) as [[m' l'] ph] eqn:Hc.
  exists (WState m' (lg ++ l') ph). split; [by eapply (ws_complete _ _ _ _ _ _ _ 1)|].
  apply complete_spec in Hc as [-> [[_ Hd]|[-> _]]]; [done|].
  intros a Hr Hrel. unfold worker_rel in Hrel. simpl in Hrel. subst a.
  destruct (ostep_todo _ _ _ Hr) as [k Hk]. simpl in Hk.
  destruct k as [|[|k]]; simpl in Hk.
  - apply (f_equal length) in Hk. simpl in Hk. lia.
  - by injection Hk as ->.
  - apply (f_equal length) in Hk. rewrite length_drop in Hk. simpl in Hk. lia.
Qed.
End worker_refinement.

(** ** The single-process script refines the relaxed contract *)

Section sequential_refinement.
Context `{Tika} (cfg : config).

(** Taking the last file each time, as [files.pop()] does, is a run of
    the contract that saves the files in reverse order. *)
Lemma spec_run_pop m files :
  rtc (astep cfg) (AState m files false) (AState (save_all cfg m (rev files)) [] true).
Proof.
  revert m. induction files as [|f files IH] using rev_ind; intros m.
  - apply rtc_once, as_report.
  - eapply rtc_l.
    + apply (as_extract _ _ _ (List.length files)). by rewrite lookup_app_r, Nat.sub_diag.
    + rewrite delete_middle, app_nil_r, rev_app_distr. exact (IH (save_one cfg m f)).
Qed.

Lemma processFiles_fs files m lg :
  exists l, processFiles cfg (S (List.length files)) files m lg =
            Some (save_all cfg m (rev files), l).
Proof.
  unfold processFiles. rewrite recurse_spec by lia. rewrite Nat.sub_diag.
  destruct (seq_spec cfg (0 + 1) _ _ _) as [m2 l2] eqn:E.
  apply (f_equal fst) in E. rewrite seq_spec_fs in E. simpl in E. subst. by eexists.
Qed.
(** C10: Refinement: [processFiles] terminates, and its file system is the
    end of a complete run of the relaxed contract [astep] from the
    listed files (it saves them last to first, not in the assigned
    order). *)
Theorem sequential_refines_spec files m lg :
  exists m' l, processFiles cfg (S (List.length files)) files m lg = Some (m', l) /\
    rtc (astep cfg) (AState m files false) (AState m' [] true).
Proof.
  destruct (processFiles_fs files m lg) as [l Hp].
  exists (save_all cfg m (rev files)), l. split; [exact Hp|].
  apply spec_run_pop.
Qed.
End sequential_refinement.

(** ** Instances *)

#[local] Existing Instance Worker.stub_tika.

Lemma worker_refines_spec_witness :
  exists a, rtc (astep stub_cfg) (AState stub_fs ["in/a.pdf"; "in/b.pdf"] false) a /\
    a = AState (save_all stub_cfg stub_fs ["in/b.pdf"; "in/a.pdf"]) [] true.
Proof.
  destruct (worker_refines_spec stub_cfg 2 (fun _ => True) 1 stub_fs [] ["in/a.pdf"; "in/b.pdf"]
              (WState (save_all stub_cfg stub_fs ["in/b.pdf"; "in/a.pdf"])
                 [LSaved "out/b.pdf.txt"; LError (FsError ERR_INVALID_ARG_TYPE);
                  LSaved "out/a.pdf.txt"; LWorkerDone 1] (WExited 0))) as (a & Hr & Ha).
  - eapply rtc_l; [eapply (ws_complete _ _ _ _ _ _ _ 1); reflexivity|].
    eapply rtc_l; [eapply (ws_complete _ _ _ _ _ _ _ 0); reflexivity|]. apply rtc_refl.
  - exists a. split; [exact Hr|exact Ha].
Defined.

Lemma worker_not_in_order_witness :
  exists w', wstep stub_cfg 2 (fun _ => True) 1
               (WState stub_fs [] (WRunning ["in/a.pdf"; "in/c.pdf"])) w' /\
    forall a, rtc (ostep stub_cfg) (AState stub_fs ["in/a.pdf"; "in/c.pdf"] false) a -> ~ worker_rel w' a.
Proof. apply (worker_not_in_order stub_cfg 2 (fun _ => True) 1 stub_fs [] _ _ []). discriminate. Defined.

Lemma spec_outputs_unique_witness :
  a_fs (AState (save_all stub_cfg stub_fs ["in/b.pdf"; "in/a.pdf"]) [] true) =
    save_all stub_cfg stub_fs ["in/a.pdf"; "in/b.pdf"].
Proof.
  apply (spec_outputs_unique stub_cfg stub_fs ["in/a.pdf"; "in/b.pdf"]); [|apply spec_run_pop|done].
  vm_compute. repeat constructor; set_solver.
Defined.

End BatchSpec.
