(* ===== verification/ClusterOutputs.v ===== *)
(** * What the cluster leaves on disk

    The composition of the master, the workers and the shared file
    system: an invariant of every reachable state of [Cluster.cstep]
    (every process listing the same files) that ties each output
    location to the file whose text it receives.  Its consequence is the
    cluster's functional result: a worker that exits with success has
    saved every file of its batch, whatever the interleaving of the
    workers and of their callbacks, and when every worker has succeeded
    each of the first [w * w] files has its text. *)

From S2P Require Import Prelude Js NodePath NodeFs Extract Chunk Worker Cluster.

Import NodePath NodeFs Extract ChunkArray Plan Worker Cluster.

Module ClusterOutputs.

Section outputs.
Context `{Tika} (cfg : config) (cpus : nat) (files : list string) (m0 : fsys).

Abbreviation fL := (List.filter keep_multicore files).
Abbreviation w := (workerCount cpus fL).
Abbreviation out := (outputFolder cfg).
Abbreviation target f := (loc_of (outputPath out f)).

(** The entry the output location of [f] ends with: the text, or what
    was there before when the extraction fails. *)
Definition expected (f : string) : option entry :=
  match tika_text f (options cfg) with
  | TikaText t => Some (File t)
  | TikaFail _ => m0 !! target f
  end.

(** The output locations of the listed files, the only places the
    callbacks write to. *)
Definition output_locs : list loc := (fun f => target f) <$> fL.

Definition pending (ph : wphase) : list string :=
  match ph with WRunning P => P | _ => [] end.

(** A phase whose batch has been handed to [async.each]. *)
Definition saving (ph : wphase) : bool :=
  match ph with WRunning _ | WExited 0 => true | _ => false end.

Definition out_inv (s : sys) : Prop :=
  (s_master s = MStart -> s_fs s = m0 /\ s_workers s = ∅) /\
  entry_at (s_fs s) (loc_of out) = Some Dir /\
  (forall l, (forall f, f ∈ fL -> l <> target f) -> s_fs s !! l = m0 !! l) /\
  (forall f, f ∈ fL -> s_fs s !! target f = m0 !! target f \/ s_fs s !! target f = expected f) /\
  (forall j ph, s_workers s !! j = Some ph ->
     1 <= j /\ pending ph ⊆ group fL w (j - 1) /\
     (saving ph = true -> forall f, f ∈ group fL w (j - 1) -> f ∉ pending ph ->
                          s_fs s !! target f = expected f)).

(** ** Facts about the output locations *)

Lemma ensure_output_dir m :
  entry_at m (loc_of (outputFolder cfg)) = Some Dir -> ensure_output m (outputFolder cfg) = inl m.
Proof. intros Hd. unfold ensure_output, existsSync. by rewrite Hd, bool_decide_true by done. Qed.

Lemma entry_at_target m f : entry_at m (loc_of (outputPath (outputFolder cfg) f)) =
                            m !! loc_of (outputPath (outputFolder cfg) f).
Proof. unfold entry_at. rewrite loc_outputPath. cbn [loc_segs]. by destruct (loc_segs (loc_of (outputFolder cfg))). Qed.

Lemma elem_of_group_fL f j : f ∈ group fL w j -> f ∈ fL.
Proof. intros (p & _ & Hp)%elem_of_group. by eapply list_elem_of_lookup_2. Qed.

(** Files with pairwise different names have pairwise different output
    locations. *)
Lemma target_inj f g :
  NoDup (fileName <$> fL) -> f ∈ fL -> g ∈ fL -> target f = target g -> f = g.
Proof.
  intros Hnd [i Hi]%list_elem_of_lookup [j Hj]%list_elem_of_lookup Heq.
  apply outputPath_loc_eq_iff in Heq.
  assert (i = j) as ->; [|congruence].
  eapply (NoDup_lookup _ _ _ (fileName f) Hnd);
    rewrite list_lookup_fmap; [by rewrite Hi|by rewrite Hj, Heq].
Qed.

(** In a state of the invariant where workers [1..w] have all exited
    with success, the first [w * w] files have their outputs. *)
Lemma exited_outputs s f :
  out_inv s -> (forall j, 1 <= j <= w -> s_workers s !! j = Some (WExited 0)) ->
  f ∈ take (w * w) fL -> s_fs s !! target f = expected f.
Proof.
  intros (_ & _ & _ & _ & Hv) Hall Hf. rewrite <-concat_groups, elem_of_concat_iff in Hf.
  destruct Hf as (g & Hg & Hfg). apply list_elem_of_fmap in Hg as (j & -> & Hj%elem_of_seq).
  destruct (Hv (S j) _ (Hall (S j) ltac:(lia))) as (_ & _ & Hs).
  apply Hs; [done| |set_solver]. by replace (S j - 1) with j by lia.
Qed.

(** ** The invariant holds in every reachable state *)

Section preservation.
Hypothesis Hc : 0 < cpus.
Hypothesis Hnd : NoDup (fileName <$> fL).
Hypothesis Hout : entry_at m0 (loc_of out) = Some Dir.
Hypothesis Htg : forall f, m0 !! target f <> Some Dir.

Lemma out_inv_init : out_inv (init_sys m0).
Proof.
  split_and!; simpl; [done|done|done|by left|]. intros j ph. by rewrite lookup_empty.
Qed.

Lemma out_inv_not_dir s f : out_inv s -> f ∈ fL -> s_fs s !! target f <> Some Dir.
Proof.
  intros (_ & _ & _ & Hiv & _) Hf. destruct (Hiv f Hf) as [->| ->]; [apply Htg|].
  unfold expected. destruct (tika_text _ _); [done|apply Htg].
Qed.

(** The callback of a listed file puts its expected entry in place. *)
Lemma save_one_target s g : out_inv s -> g ∈ fL -> save_one cfg (s_fs s) g !! target g = expected g.
Proof.
  intros Hinv Hg. pose proof (out_inv_not_dir s g Hinv Hg) as Hnd'.
  destruct Hinv as (_ & Hii & _ & Hiv & _).
  rewrite save_one_at; [|done|by rewrite entry_at_target].
  unfold expected. destruct (tika_text g _) eqn:E; [done|].
  destruct (Hiv g Hg) as [-> | ->]; [done|unfold expected; by rewrite E].
Qed.

Lemma out_inv_master m lg l m' l' mp ws :
  out_inv (Sys m lg MStart ∅) -> same_listing files l ->
  master_boot cfg cpus l m = (m', l', mp, ws) -> out_inv (Sys m' (lg ++ l') mp ws).
Proof.
  intros (Hi & Hii & _) Hl Hb. simpl in Hi, Hii. destruct (Hi eq_refl) as [-> _]. unfold same_listing in Hl. subst l.
  unfold master_boot in Hb. rewrite ensure_output_dir in Hb by done.
  rewrite fileListBatches_spec in Hb by done. simplify_eq.
  split_and!; simpl; [done|done|done|by left|].
  intros j ph. rewrite lookup_forked_workers. case_decide; [|done]. intros [= <-].
  simpl. split_and!; [lia|set_solver|done].
Qed.

(** A worker's start leaves the file system as it is and gives it its
    batch, or no batch at all. *)
Lemma boot_batch id m m' l' ph' :
  1 <= id -> entry_at m (loc_of out) = Some Dir ->
  boot cfg cpus id (inl files) m = (m', l', ph') ->
  pending ph' ⊆ group fL w (id - 1) /\
  (saving ph' = true -> group fL w (id - 1) ⊆ pending ph').
Proof.
  intros Hid Hd Hb. rewrite (boot_spec cfg cpus id files m m) in Hb
    by (done || by apply ensure_output_dir).
  case_decide; [|simplify_eq; split; [set_solver|done]].
  unfold start_batch in Hb. destruct (group _ _ _) eqn:Eg; simplify_eq/=; rewrite ?Eg; set_solver.
Qed.

Lemma boot_fs id m m' l' ph' :
  entry_at m (loc_of out) = Some Dir -> boot cfg cpus id (inl files) m = (m', l', ph') -> m' = m.
Proof.
  intros Hd Hb. unfold boot in Hb. rewrite ensure_output_dir in Hb by done.
  by branch.
Qed.
Lemma out_inv_master_started m lg mp ws id ph :
  out_inv (Sys m lg mp ws) -> ws !! id = Some ph -> mp <> MStart.
Proof. intros [Hi _] Hid E. destruct (Hi E) as [_ Hws]. simpl in Hws. by rewrite Hws, lookup_empty in Hid. Qed.

(** A step of worker [id] that changes no file and gives it a phase
    whose pending files are its whole batch (a start or a spawn error). *)
Lemma out_inv_same_fs m lg lg' mp ws id ph ph' :
  out_inv (Sys m lg mp ws) -> ws !! id = Some ph ->
  pending ph' ⊆ group fL w (id - 1) ->
  (saving ph' = true -> group fL w (id - 1) ⊆ pending ph') ->
  out_inv (Sys m lg' mp (<[id := ph']> ws)).
Proof.
  intros Hinv Hid Hp Hs. pose proof (out_inv_master_started _ _ _ _ _ _ Hinv Hid) as Hnot.
  destruct Hinv as (Hi & Hii & Hiii & Hiv & Hv); simpl in *.
  split_and!; simpl; [done|done|done|done|]. intros j phj. rewrite lookup_insert.
  case_decide; [subst j|by apply Hv]. intros [= <-].
  split_and!; [by apply (Hv id ph Hid)|done|]. intros Hsv f Hf Hnp. exfalso. by apply Hnp, Hs.
Qed.

(** A callback of worker [id] for its pending file [g]. *)
Lemma out_inv_complete m lg lg' mp ws id P i g ph' :
  out_inv (Sys m lg mp ws) -> ws !! id = Some (WRunning P) -> P !! i = Some g ->
  ((ph' = WExited 0 /\ delete i P = []) \/ (ph' = WRunning (delete i P) /\ delete i P <> [])) ->
  out_inv (Sys (save_one cfg m g) lg' mp (<[id := ph']> ws)).
Proof.
  intros Hinv Hid Hi Hph'. pose proof (out_inv_master_started _ _ _ _ _ _ Hinv Hid) as Hnot.
  pose proof (save_one_target _ g Hinv) as Hgt. pose proof Hinv as (Hi0 & Hii & Hiii & Hiv & Hv).
  simpl in *. destruct (Hv id _ Hid) as (Hid1 & Hpend & Hsave).
  assert (Hg : g ∈ group fL w (id - 1)) by (apply Hpend; by eapply list_elem_of_lookup_2).
  assert (HgL : g ∈ fL) by by eapply elem_of_group_fL.
  specialize (Hgt HgL).
  assert (Hother : forall f, f ∈ fL -> f <> g -> save_one cfg m g !! target f = m !! target f).
  { intros f Hf Hfg. apply save_one_other. intros E. by apply Hfg, target_inj. }
  assert (HndL : NoDup fL) by by eapply NoDup_fmap_1.
  split_and!; simpl.
  - done.
  - rewrite <-Hii. apply entry_at_lookup, save_one_other. apply not_eq_sym, target_ne_output.
  - intros l Hl. rewrite save_one_other; [by apply Hiii|]. by apply Hl.
  - intros f Hf. destruct (decide (f = g)) as [->|Hfg]; [by right|]. rewrite Hother by done.
    by apply Hiv.
  - intros j phj. rewrite lookup_insert. case_decide as Hj; [subst j; intros [= <-]|intros Hj'].
    + split_and!; [done| |].
      * destruct Hph' as [[-> _]|[-> _]]; simpl; [set_solver|].
        intros x Hx. apply Hpend. by eapply delete_subseteq_elem.
      * intros _ f Hf Hnp. destruct (decide (f = g)) as [->|Hfg]; [done|].
        rewrite Hother by (by eapply elem_of_group_fL || done).
        apply Hsave; [done|done|]. intros HfP. apply Hnp.
        pose proof (elem_of_delete_ne P i g f Hi HfP Hfg) as Hd.
        destruct Hph' as [[-> Ed]|[-> _]]; simpl; [by rewrite Ed in Hd|done].
    + destruct (Hv j phj Hj') as (Hj1 & Hjp & Hjs). split_and!; [done|done|].
      intros Hsv f Hf Hnp. assert (f <> g).
      { intros ->. pose proof (group_disjoint _ _ _ _ _ HndL Hf Hg). lia. }
      rewrite Hother by (by eapply elem_of_group_fL || done). by apply Hjs.
Qed.

Lemma out_inv_step s s' : out_inv s -> cstep cfg cpus (same_listing files) s s' -> out_inv s'.
Proof.
  intros Hinv Hs. destruct Hs as [m lg l m' l' mp ws Hl Hb|m lg mp ws id ph m' lg' ph' Hid Hw].
  - by eapply out_inv_master.
  - pose proof Hinv as (_ & Hii & _ & _ & Hv). simpl in *.
    destruct (Hv id ph Hid) as (Hid1 & _).
    inversion Hw as [? ? l0 ? l1 ? Hl Hb|? ? msg|? ? P i g ? l1 ? Hi Hcomp]; subst.
    + unfold same_listing in Hl. subst l0.
      destruct (boot_batch id m m' l1 ph' Hid1 Hii Hb) as [Hp Hs].
      rewrite (boot_fs id m m' l1 ph' Hii Hb). by eapply out_inv_same_fs.
    + eapply out_inv_same_fs; [done|done|simpl; set_solver|done].
    + apply complete_spec in Hcomp as [-> Hph']. by eapply out_inv_complete.
Qed.

Lemma out_inv_reachable s : rtc (cstep cfg cpus (same_listing files)) (init_sys m0) s -> out_inv s.
Proof.
  apply rtc_invariant; [intros ??; apply out_inv_step|apply out_inv_init].
Qed.
(** The cluster writes nowhere but the output locations of the listed
    files: every other location of the file system ends as it started,
    in every reachable state (output folder present, every process
    listing the same files, file names pairwise different). *)
Theorem outputs_frame s l :
  rtc (cstep cfg cpus (same_listing files)) (init_sys m0) s ->
  l ∉ output_locs -> s_fs s !! l = m0 !! l.
Proof.
  intros Hr Hl. apply (out_inv_reachable s Hr). intros f Hf ->.
  by apply Hl, (list_elem_of_fmap_2 (fun f => target f)).
Qed.

(** C4: A worker that has exited with success has saved every file of its
    batch: whatever the interleaving of the workers and of their
    callbacks, the output location of each holds its text, or what was
    there before when its extraction failed. *)
Theorem worker_success_outputs s j f :
  rtc (cstep cfg cpus (same_listing files)) (init_sys m0) s ->
  s_workers s !! j = Some (WExited 0) -> f ∈ group fL w (j - 1) ->
  s_fs s !! target f = expected f.
Proof.
  intros Hr Hj Hf. destruct (out_inv_reachable s Hr) as (_ & _ & _ & _ & Hv).
  destruct (Hv j _ Hj) as (_ & _ & Hs). apply Hs; [done|done|set_solver].
Qed.

(** C2: When every worker has exited with success, each of the first
    [w * w] listed files has its output: the cluster's result, and with
    [Cluster.dropped_files], exactly the files it misses. *)
Theorem cluster_all_outputs s f :
  rtc (cstep cfg cpus (same_listing files)) (init_sys m0) s ->
  (forall j, 1 <= j <= w -> s_workers s !! j = Some (WExited 0)) ->
  f ∈ take (w * w) fL -> s_fs s !! target f = expected f.
Proof. intros Hr. apply exited_outputs, (out_inv_reachable s Hr). Qed.
End preservation.
End outputs.

(** ** Instances *)

#[local] Existing Instance Worker.stub_tika.

Abbreviation five := ["in/a.pdf"; "in/b.pdf"; "in/c.pdf"; "in/d.pdf"; "in/e.pdf"].

Lemma stub_targets f : stub_fs !! loc_of (outputPath (outputFolder stub_cfg) f) <> Some Dir.
Proof.
  intros Hf. rewrite loc_outputPath in Hf. unfold stub_fs in Hf. apply lookup_singleton_Some in Hf as [Heq _].
  apply (f_equal (fun l => List.length (loc_segs l))) in Heq. vm_compute in Heq. lia.
Qed.

Lemma H_cpus : 0 < 2.
Proof. lia. Qed.

Lemma H_names : NoDup (fileName <$> List.filter keep_multicore five).
Proof. decide_in. Qed.

Ltac run_five :=
  step_master; step_boot 1; step_boot 2; do 2 step_callback 1; do 2 step_callback 2;
  apply rtc_refl.

Lemma outputs_frame_witness :
  exists s, rtc (cstep stub_cfg 2 (same_listing five)) (init_sys stub_fs) s /\
    s_fs s !! Loc false ["out"] = Some Dir.
Proof.
  eexists. split; [run_five|].
  rewrite (outputs_frame stub_cfg 2 five stub_fs H_cpus H_names eq_refl stub_targets);
    [reflexivity|run_five|decide_in].
Defined.

Lemma worker_success_outputs_witness :
  exists s, rtc (cstep stub_cfg 2 (same_listing five)) (init_sys stub_fs) s /\
    s_fs s !! loc_of (outputPath "out" "in/d.pdf") = Some (File "TEXT:d.pdf").
Proof.
  eexists. split; [run_five|].
  erewrite (worker_success_outputs stub_cfg 2 five stub_fs H_cpus H_names eq_refl stub_targets
    _ 2 "in/d.pdf"); [reflexivity|run_five|reflexivity|decide_in].
Defined.

Lemma all_exited_five :
  forall j, 1 <= j <= workerCount 2 (List.filter keep_multicore five) ->
  (<[2:=WExited 0]> (<[1:=WExited 0]> ∅) : gmap nat wphase) !! j = Some (WExited 0).
Proof.
  intros j Hj. vm_compute in Hj. destruct (decide (j = 1)) as [->|]; [reflexivity|].
  assert (j = 2) as -> by lia. reflexivity.
Qed.

Lemma cluster_all_outputs_witness :
  exists s, rtc (cstep stub_cfg 2 (same_listing five)) (init_sys stub_fs) s /\
    s_fs s !! loc_of (outputPath "out" "in/a.pdf") = Some (File "TEXT:a.pdf") /\
    s_fs s !! loc_of (outputPath "out" "in/b.pdf") = None.
Proof.
  eexists. split; [run_five|]. split.
  - etrans; [apply (cluster_all_outputs stub_cfg 2 five stub_fs H_cpus H_names eq_refl stub_targets
      _ "in/a.pdf"); [run_five| |decide_in]|reflexivity].
    intros j Hj. rewrite <-(all_exited_five j Hj). vm_compute. by destruct j as [|[|[|]]].
  - etrans; [apply (cluster_all_outputs stub_cfg 2 five stub_fs H_cpus H_names eq_refl stub_targets
      _ "in/b.pdf"); [run_five| |decide_in]|reflexivity].
    intros j Hj. rewrite <-(all_exited_five j Hj). vm_compute. by destruct j as [|[|[|]]].
Defined.

End ClusterOutputs.
