(* ===== verification/NodeDir.v ===== *)
(** * The directory traversal of node-dir, and the listings of a run

    Both scripts list their input folder with node-dir's
    [dir.files(inputFolder, cb)] (src/extract-multicore.js line 60,
    src/extract.js line 56).  The library is not part of the repository;
    it is modelled from its documented behaviour: [fs.readdir] on the
    folder (its error, such as ENOENT or ENOTDIR, is passed to [cb]),
    then for every entry the path [path.join(dir, name)], a [fs.stat],
    and a recursive call on each sub-directory; a file's path is pushed
    when its [stat] returns, so the files come in any order.

    On the file system of [NodeFs] the files below a folder are the
    [File] entries whose location extends the folder's; [files_under]
    gives their segments below it, [rel_path] the path node-dir builds
    for them, and [dir_listing] the listings [dir.files] can return.
    [dir_listing_exact] shows that a listing names each file below the
    folder exactly once, and [readFiles_exact] carries this to the list
    [readFiles] hands on after its [/\.pdf$/] filter.  [listing_stable]
    composes this with the cluster: the texts a run saves never change
    the PDF files a later listing of the input folder finds (they end in
    [".txt"]), and when the output folder is not inside the input folder
    they do not change the listing at all, so the listing a worker
    computes at its start is one the master could have computed. *)

From S2P Require Import Prelude Js NodePath NodeFs Extract Chunk Worker Cluster ClusterOutputs.

Import NodePath NodeFs Extract ChunkArray Plan Worker Cluster ClusterOutputs.

Module NodeDir.

(** ** Locations below a folder *)

(** [Some r] when [l = p ++ r]. *)
Fixpoint strip_prefix (p l : list string) : option (list string) :=
  match p, l with
  | [], _ => Some l
  | x :: p', y :: l' => if String.eqb x y then strip_prefix p' l' else None
  | _ :: _, [] => None
  end.

#[export] Instance plain_seg_dec s : Decision (plain_seg s).
Proof. unfold plain_seg. apply _. Defined.

(** The segments of [l] below the folder [d], when [l] is strictly
    inside it and a directory read reaches it: names read from a
    directory are plain (no [""], ["."], [".."] or ['/']), so a
    location past a [".."] is above [d], not below it. *)
Definition rel_segs (d l : loc) : option (list string) :=
  if bool_decide (loc_abs l = loc_abs d) then
    match strip_prefix (loc_segs d) (loc_segs l) with
    | Some (x :: r) => if bool_decide (Forall plain_seg (x :: r)) then Some (x :: r) else None
    | _ => None
    end
  else None.

(** [l] is [d] or inside it. *)
Definition inside (d l : loc) : bool :=
  bool_decide (loc_abs l = loc_abs d) && bool_decide (is_Some (strip_prefix (loc_segs d) (loc_segs l))).

(** ** [dir.files] *)

(** The files strictly below [d], by their segments below it. *)
Definition files_under (m : fsys) (d : loc) : list (list string) :=
  omap (fun le : loc * entry => match le.2 with File _ => rel_segs d le.1 | Dir => None end)
    (map_to_list (filter (fun le : loc * entry => is_Some (rel_segs d le.1)) m)).

(** The path node-dir reports for the entry [segs] below [dir]: one
    [path.join(dir, name)] per level of the recursion. *)
Definition rel_path (dir : string) (segs : list string) : string := foldl join dir segs.

(** The listings [dir.files(dir, cb)] may pass to its callback: the
    files below [dir] in any order, or the error of [fs.readdir] when
    [dir] is not a directory. *)
Definition dir_listing (m : fsys) (dir : string) (l : listing) : Prop :=
  match entry_at m (loc_of dir) with
  | Some Dir => exists files, l = inl files /\ files ≡ₚ rel_path dir <$> files_under m (loc_of dir)
  | _ => exists msg, l = inr msg
  end.

(** ** Facts *)

Lemma strip_prefix_spec p l r : strip_prefix p l = Some r <-> l = p ++ r.
Proof.
  revert l. induction p as [|x p IH]; intros [|y l]; simpl; try naive_solver.
  destruct (String.eqb_spec x y) as [->|Hxy]; [rewrite IH; naive_solver|naive_solver].
Qed.

Lemma rel_segs_spec d l segs :
  rel_segs d l = Some segs <->
  l = Loc (loc_abs d) (loc_segs d ++ segs) /\ segs <> [] /\ Forall plain_seg segs.
Proof.
  destruct l as [a ls], d as [da ds]. unfold rel_segs. cbn [loc_abs loc_segs].
  case_bool_decide as Ha; [subst a|naive_solver].
  destruct (strip_prefix ds ls) as [r|] eqn:E.
  - apply strip_prefix_spec in E as ->. destruct r as [|x r].
    + split; [done|]. intros [[= Heq] [Hne _]]. exfalso. apply Hne. symmetry. by apply (app_inv_head ds).
    + case_bool_decide as Hp; split.
      * by intros [= <-].
      * intros [[= Heq] _]. apply app_inv_head in Heq. by subst.
      * done.
      * intros [[= Heq] [_ Hp']]. apply app_inv_head in Heq. subst. done.
  - split; [done|]. intros [[= ->] _]. by rewrite (proj2 (strip_prefix_spec ds _ segs) eq_refl) in E.
Qed.

Lemma inside_spec d l : inside d l = true <-> exists r, l = Loc (loc_abs d) (loc_segs d ++ r).
Proof.
  destruct l as [a ls], d as [da ds]. unfold inside. cbn [loc_abs loc_segs].
  rewrite andb_true_iff, !bool_decide_eq_true. split.
  - intros [-> [r Hr%strip_prefix_spec]]. by exists r; subst.
  - intros [r [= -> ->]]. split; [done|]. exists r. by apply strip_prefix_spec.
Qed.

Lemma elem_of_files_under m d segs :
  segs ∈ files_under m d <-> exists l c, m !! l = Some (File c) /\ rel_segs d l = Some segs.
Proof.
  unfold files_under. rewrite list_elem_of_omap. split.
  - intros ([l e] & Hin & He). apply elem_of_map_to_list, map_lookup_filter_Some in Hin as [Hl _].
    destruct e as [|c]; [done|]. by exists l, c.
  - intros (l & c & Hl & Hr). exists (l, File c). split; [|done].
    apply elem_of_map_to_list, map_lookup_filter_Some. split; [done|]. simpl. by rewrite Hr.
Qed.

(** The location node-dir's path names. *)
Lemma loc_rel_path dir segs :
  Forall plain_seg segs ->
  loc_of (rel_path dir segs) = Loc (loc_abs (loc_of dir)) (loc_segs (loc_of dir) ++ segs).
Proof.
  unfold rel_path. revert dir. induction segs as [|x segs IH]; intros dir Hall; cbn [foldl].
  - rewrite app_nil_r. by destruct (loc_of dir).
  - apply Forall_cons in Hall as [Hx Hall]. rewrite IH by done.
    rewrite loc_join_plain by done. cbn [loc_abs loc_segs]. by rewrite <-app_assoc.
Qed.

(** Partial functions whose results determine the key keep the keys
    of a map listed once. *)
Lemma NoDup_omap_keys {V B} (h : loc * V -> option B) (key : B -> loc) (kvs : list (loc * V)) :
  NoDup kvs.*1 -> (forall kv y, h kv = Some y -> kv.1 = key y) -> NoDup (omap h kvs).
Proof.
  intros Hnd Hh. induction kvs as [|kv kvs IH]; [constructor|].
  rewrite fmap_cons, NoDup_cons in Hnd. destruct Hnd as [Hnot Hnd].
  change (omap h (kv :: kvs)) with (match h kv with Some y => y :: omap h kvs | None => omap h kvs end).
  destruct (h kv) as [y|] eqn:E; [|by apply IH].
  constructor; [|by apply IH]. intros (kv' & Hin & Hk)%list_elem_of_omap.
  apply Hnot, list_elem_of_fmap. exists kv'. split; [|done]. by rewrite (Hh _ _ E), (Hh _ _ Hk).
Qed.

Lemma NoDup_files_under m d : NoDup (files_under m d).
Proof.
  apply (NoDup_omap_keys _ (fun segs => Loc (loc_abs d) (loc_segs d ++ segs))); [apply NoDup_fst_map_to_list|].
  intros [l [|c]] segs; [done|]. by intros [-> _]%rel_segs_spec.
Qed.

Section listing_facts.
Context (m : fsys) (dir : string).

(** The path node-dir builds for a file below [dir] names that file. *)
Lemma loc_rel_path_under segs :
  segs ∈ files_under m (loc_of dir) ->
  exists c, m !! loc_of (rel_path dir segs) = Some (File c) /\
            rel_segs (loc_of dir) (loc_of (rel_path dir segs)) = Some segs.
Proof.
  intros (l & c & Hl & Hr)%elem_of_files_under.
  assert (Hloc : loc_of (rel_path dir segs) = l).
  { apply rel_segs_spec in Hr as (-> & _ & Hp). by rewrite loc_rel_path. }
  exists c. by rewrite Hloc.
Qed.

Lemma loc_rel_path_inj segs1 segs2 :
  segs1 ∈ files_under m (loc_of dir) -> segs2 ∈ files_under m (loc_of dir) ->
  loc_of (rel_path dir segs1) = loc_of (rel_path dir segs2) -> segs1 = segs2.
Proof.
  intros H1 H2 Heq.
  destruct (loc_rel_path_under segs1 H1) as (_ & _ & E1), (loc_rel_path_under segs2 H2) as (_ & _ & E2).
  rewrite Heq, E2 in E1. congruence.
Qed.
End listing_facts.

(** The listing depends only on the folder's own entry and on the
    locations below it. *)
Lemma dir_listing_agree m1 m2 dir :
  entry_at m1 (loc_of dir) = entry_at m2 (loc_of dir) ->
  (forall l, is_Some (rel_segs (loc_of dir) l) -> m1 !! l = m2 !! l) ->
  forall l, dir_listing m1 dir l <-> dir_listing m2 dir l.
Proof.
  intros He Hl. assert (Hf : files_under m1 (loc_of dir) = files_under m2 (loc_of dir)).
  { unfold files_under. do 2 f_equal. apply map_eq. intros l. rewrite !map_lookup_filter.
    destruct (decide (is_Some (rel_segs (loc_of dir) l))) as [Hs|Hs]; [by rewrite Hl|].
    destruct (m1 !! l), (m2 !! l); simpl; by rewrite ?option_guard_False. }
  intros l. unfold dir_listing. by rewrite He, Hf.
Qed.

(** [dir.files] names every file below the folder exactly once: each
    path of a listing is a file strictly inside the folder, each such
    file has a path in it, and no two paths name the same file. *)
Lemma dir_listing_exact m dir files :
  dir_listing m dir (inl files) ->
  (forall f, f ∈ files ->
     exists c, m !! loc_of f = Some (File c) /\ is_Some (rel_segs (loc_of dir) (loc_of f))) /\
  (forall l c, m !! l = Some (File c) -> is_Some (rel_segs (loc_of dir) l) ->
     exists f, f ∈ files /\ loc_of f = l) /\
  NoDup (loc_of <$> files).
Proof.
  unfold dir_listing. destruct (entry_at m (loc_of dir)) as [[|c]|];
    [|by intros [? [=]]..]. intros (fs & [= <-] & Hperm). split_and!.
  - intros f Hf. rewrite Hperm in Hf. apply list_elem_of_fmap in Hf as (segs & -> & Hs).
    destruct (loc_rel_path_under m dir segs Hs) as (c & Hc & Hr). by exists c.
  - intros l c Hl [segs Hr]. exists (rel_path dir segs). split.
    + rewrite Hperm. apply list_elem_of_fmap_2, elem_of_files_under. by exists l, c.
    + apply rel_segs_spec in Hr as (-> & _ & Hp). by rewrite loc_rel_path.
  - rewrite Hperm, <-list_fmap_compose. apply NoDup_fmap_2_strong; [|apply NoDup_files_under].
    intros x y Hx Hy. by apply (loc_rel_path_inj m dir).
Qed.

(** The file list [readFiles] hands on in src/extract-multicore.js
    (the listing of [dir.files], filtered by [/\.pdf$/]) holds PDF files
    strictly below the input folder, each once, and every file below
    the folder is listed, kept when its path passes the filter. *)
Theorem readFiles_exact m dir files :
  dir_listing m dir (inl files) ->
  (forall f, f ∈ List.filter keep_multicore files ->
     (exists p, f = (p +ₛ ".pdf")%string) /\
     exists c, m !! loc_of f = Some (File c) /\ is_Some (rel_segs (loc_of dir) (loc_of f))) /\
  (forall l c, m !! l = Some (File c) -> is_Some (rel_segs (loc_of dir) l) ->
     exists f, f ∈ files /\ loc_of f = l /\ (keep_multicore f = true -> f ∈ List.filter keep_multicore files)) /\
  NoDup (loc_of <$> List.filter keep_multicore files).
Proof.
  intros Hl. destruct (dir_listing_exact m dir files Hl) as (Hs & Hc & Hnd). split_and!.
  - intros f (Hf & Hk)%elem_of_List_filter. split; [by apply keep_multicore_iff|by apply Hs].
  - intros l c Hl' Hb. destruct (Hc l c Hl' Hb) as (f & Hf & Hloc). exists f.
    split_and!; [done|done|]. intros Hk. by apply elem_of_List_filter.
  - eapply sublist_NoDup; [exact Hnd|]. apply fmap_sublist, List_filter_sublist.
Qed.

(** ** The PDF files of a listing *)

(** The paths of the files below [dir] that pass [readFiles]' filter
    [/\.pdf$/]. *)
Definition pdf_paths (m : fsys) (dir : string) : list string :=
  List.filter keep_multicore (rel_path dir <$> files_under m (loc_of dir)).

Lemma rel_path_snoc dir r x : rel_path dir (r ++ [x]) = join (rel_path dir r) x.
Proof. unfold rel_path. by rewrite foldl_app. Qed.

(** A path node-dir builds for a file whose name ends in [".txt"] does
    not pass the filter. *)
Lemma keep_rel_path_txt dir r n :
  plain_seg (n +ₛ ".txt") -> keep_multicore (rel_path dir (r ++ [n +ₛ ".txt"])) = false.
Proof.
  intros Hp. rewrite rel_path_snoc. destruct (join_suffix (rel_path dir r) _ Hp) as [pre ->].
  apply not_true_iff_false. intros [p Hk]%keep_multicore_iff.
  rewrite str_app_assoc in Hk. by apply (str_suffix_pdf_txt p (pre +ₛ n)).
Qed.

Lemma NoDup_rel_paths m dir : NoDup (rel_path dir <$> files_under m (loc_of dir)).
Proof.
  apply NoDup_fmap_2_strong; [|apply NoDup_files_under].
  intros x y Hx Hy Heq. apply (loc_rel_path_inj m dir); [done|done|by rewrite Heq].
Qed.

Lemma elem_of_pdf_paths m dir f :
  f ∈ pdf_paths m dir <->
  keep_multicore f = true /\
  exists l c segs, m !! l = Some (File c) /\ rel_segs (loc_of dir) l = Some segs /\ f = rel_path dir segs.
Proof.
  unfold pdf_paths. rewrite elem_of_List_filter, list_elem_of_fmap. setoid_rewrite elem_of_files_under.
  naive_solver.
Qed.

(** Two file systems that differ below [dir] only at locations whose
    paths do not pass the filter give the same PDF files, up to order. *)
Lemma pdf_paths_agree m1 m2 dir :
  (forall l segs, rel_segs (loc_of dir) l = Some segs ->
     m1 !! l = m2 !! l \/ keep_multicore (rel_path dir segs) = false) ->
  pdf_paths m1 dir ≡ₚ pdf_paths m2 dir.
Proof.
  intros Hag. apply NoDup_Permutation.
  - eapply sublist_NoDup; [apply NoDup_rel_paths|apply List_filter_sublist].
  - eapply sublist_NoDup; [apply NoDup_rel_paths|apply List_filter_sublist].
  - intros f. rewrite !elem_of_pdf_paths.
    split; intros [Hk (l & c & segs & Hl & Hr & ->)]; (split; [done|]); exists l, c, segs;
      (split_and!; [|done|done]); destruct (Hag l segs Hr) as [Heq|Hf];
      [by rewrite <-Heq|by rewrite Hf in Hk|by rewrite Heq|by rewrite Hf in Hk].
Qed.

(** ** The listings of a run of the cluster *)

Section run_listing.
Context `{Tika} (cfg : config) (cpus : nat) (files : list string) (m0 : fsys).
Hypothesis Hc : 0 < cpus.
Hypothesis Hnd : NoDup (fileName <$> List.filter keep_multicore files).
Hypothesis Hout : entry_at m0 (loc_of (outputFolder cfg)) = Some Dir.
Hypothesis Htg : forall f, m0 !! loc_of (outputPath (outputFolder cfg) f) <> Some Dir.

(** An output location is strictly below the input folder only when
    the output folder is inside it. *)
Lemma target_not_below f :
  inside (loc_of (inputFolder cfg)) (loc_of (outputFolder cfg)) = false ->
  rel_segs (loc_of (inputFolder cfg)) (loc_of (outputPath (outputFolder cfg) f)) = None.
Proof.
  intros Hi. destruct (rel_segs _ _) as [segs|] eqn:E; [exfalso|done].
  apply rel_segs_spec in E as (Heq & Hne & _). rewrite loc_outputPath in Heq.
  apply not_true_iff_false in Hi. apply Hi, inside_spec.
  destruct (loc_of (inputFolder cfg)) as [ia isg], (loc_of (outputFolder cfg)) as [oa osg]; simpl in *.
  destruct (exists_last Hne) as (r & x & ->). injection Heq as -> Hs.
  rewrite app_assoc in Hs. apply app_inj_tail in Hs as [-> _]. by exists r.
Qed.

(** An output location below the input folder ends in a [".txt"]
    name, which the filter drops. *)
Lemma target_rel_txt f segs :
  rel_segs (loc_of (inputFolder cfg)) (loc_of (outputPath (outputFolder cfg) f)) = Some segs ->
  keep_multicore (rel_path (inputFolder cfg) segs) = false.
Proof.
  intros (Heq & Hne & Hp)%rel_segs_spec. rewrite loc_outputPath in Heq.
  destruct (exists_last Hne) as (r & x & ->). injection Heq as _ Hs.
  rewrite app_assoc in Hs. apply app_inj_tail in Hs as [_ <-].
  apply keep_rel_path_txt, plain_txt, fileName_no_slash.
Qed.

(** C13: The writes of a run do not change what [readFiles] finds: in
    every reachable state of the cluster, a listing of the input folder
    keeps, after the [/\.pdf$/] filter, the PDF files of a listing taken
    before the run, whatever the folders; and when the output folder is
    not inside the input folder, [dir.files(inputFolder)] can return
    exactly the listings it could before.  So a worker that lists the
    folder after others have saved their texts finds the files the
    master found (every process listing the same files, file names
    pairwise different, input and output folders present, no output
    name a directory). *)
Theorem listing_stable s :
  rtc (cstep cfg cpus (same_listing files)) (init_sys m0) s ->
  entry_at m0 (loc_of (inputFolder cfg)) = Some Dir ->
  (forall files', dir_listing (s_fs s) (inputFolder cfg) (inl files') ->
   exists files0, dir_listing m0 (inputFolder cfg) (inl files0) /\
     List.filter keep_multicore files' ≡ₚ List.filter keep_multicore files0) /\
  (inside (loc_of (inputFolder cfg)) (loc_of (outputFolder cfg)) = false ->
   forall l, dir_listing (s_fs s) (inputFolder cfg) l <-> dir_listing m0 (inputFolder cfg) l).
Proof.
  intros Hr Hin. destruct (out_inv_reachable cfg cpus files m0 Hc Hnd Hout Htg s Hr) as (_ & _ & Hfr & _).
  assert (He : entry_at (s_fs s) (loc_of (inputFolder cfg)) = Some Dir).
  { rewrite <-Hin. apply entry_at_lookup, Hfr. intros f _ Heq. apply (Htg f).
    by rewrite <-entry_at_target, <-Heq. }
  split.
  - intros files'. unfold dir_listing. rewrite He, Hin. intros (fs' & [= <-] & Hp).
    eexists. split; [by eexists|]. etrans; [by apply List_filter_Permutation|].
    apply pdf_paths_agree. intros l segs Hrs.
    destruct (decide (l ∈ output_locs cfg files)) as [Hl|Hl].
    + right. apply list_elem_of_fmap in Hl as (f & -> & _). by apply (target_rel_txt f).
    + left. apply Hfr. intros f Hf ->. by apply Hl, (list_elem_of_fmap_2 (fun f => loc_of (outputPath (outputFolder cfg) f))).
  - intros Hi. apply dir_listing_agree; [by rewrite He|].
    intros l' Hs. apply Hfr. intros f _ ->. by rewrite target_not_below in Hs.
Qed.
End run_listing.

(** ** Instances *)

#[local] Existing Instance Worker.stub_tika.

(** An input folder with a file and a sub-folder holding another. *)
Definition tree_fs : fsys :=
  <[Loc false ["in"; "sub"; "b.pdf"] := File "B"]> (<[Loc false ["in"; "sub"] := Dir]>
  (<[Loc false ["in"; "a.pdf"] := File "A"]> (<[Loc false ["in"] := Dir]> stub_fs))).

(** The listing of ["in"] names its two files, the one in the
    sub-folder by node-dir's joined path. *)
Lemma readFiles_exact_witness :
  dir_listing tree_fs "in" (inl ["in/sub/b.pdf"; "in/a.pdf"]) /\
  NoDup (loc_of <$> List.filter keep_multicore ["in/sub/b.pdf"; "in/a.pdf"]).
Proof.
  assert (Hl : dir_listing tree_fs "in" (inl ["in/sub/b.pdf"; "in/a.pdf"])).
  { vm_compute. eexists. split; [reflexivity|]. first [reflexivity | apply Permutation_swap]. }
  split; [exact Hl|]. apply (readFiles_exact tree_fs "in" _ Hl).
Defined.

(** The output folder inside the input folder: after worker 1 has
    saved [in/out/a.pdf.txt], a listing of ["in"] has that file too, and
    the filter drops it. *)
Definition nested_cfg : config := Config "in" "in/out" (options stub_cfg).

Definition nested_fs : fsys :=
  <[Loc false ["in"; "a.pdf"] := File "A"]> (<[Loc false ["in"; "out"] := Dir]> {[Loc false ["in"] := Dir]}).

Lemma nested_fs_targets f : nested_fs !! loc_of (outputPath (outputFolder nested_cfg) f) <> Some Dir.
Proof.
  rewrite loc_outputPath. change (loc_of (outputFolder nested_cfg)) with (Loc false ["in"; "out"]). cbn.
  unfold nested_fs. intros Hf.
  repeat (apply lookup_insert_Some in Hf as [[Heq _]|[_ Hf]]; [simplify_eq|]).
  apply lookup_singleton_Some in Hf as [Heq _]. simplify_eq.
Qed.

Lemma listing_stable_witness :
  exists s, rtc (cstep nested_cfg 1 (same_listing ["in/a.pdf"])) (init_sys nested_fs) s /\
    dir_listing (s_fs s) "in" (inl ["in/a.pdf"; "in/out/a.pdf.txt"]) /\
    exists files0, dir_listing nested_fs "in" (inl files0) /\
      List.filter keep_multicore ["in/a.pdf"; "in/out/a.pdf.txt"] ≡ₚ List.filter keep_multicore files0.
Proof.
  eexists. split; [step_master; step_boot 1; step_callback 1; apply rtc_refl|].
  match goal with |- dir_listing (s_fs ?S) _ _ /\ _ => set (s := S) end.
  assert (Hl : dir_listing (s_fs s) "in" (inl ["in/a.pdf"; "in/out/a.pdf.txt"])).
  { vm_compute. eexists. split; [reflexivity|]. first [reflexivity | apply Permutation_swap]. }
  split; [exact Hl|].
  assert (Hr : rtc (cstep nested_cfg 1 (same_listing ["in/a.pdf"])) (init_sys nested_fs) s)
    by (step_master; step_boot 1; step_callback 1; apply rtc_refl).
  apply (proj1 (listing_stable nested_cfg 1 ["in/a.pdf"] nested_fs ltac:(lia) ltac:(decide_in)
                  eq_refl nested_fs_targets s Hr eq_refl) _ Hl).
Defined.

End NodeDir.
