(* ===== verification/Entry.v ===== *)
(** * The command-line entry and the module interface of both scripts

    Each script keeps its configuration in module-level variables:
    [inputFolder], [outputFolder], the [options] object handed to every
    [tika.text] call, and [callback] (src/extract-multicore.js lines
    13-26, src/extract.js lines 9-22).  Run as a program
    ([!module.parent], lines 28-37 and 24-33), a script calls [init]
    with [process.argv[2..5]]; loaded as a module it only exports [init]
    (line 163 and line 121), and every call of it updates the same
    variables.  [init]'s assignments (lines 39-46 and 35-42) overwrite
    each variable with its argument when the argument is truthy and keep
    its current value otherwise.

    [module_state] is those variables, [init_assign] the assignments,
    [argv_args] the four reads of [process.argv] (out of range they are
    [undefined]), and [entry] the [module.parent] guard.  A forked worker
    of the cluster runs the script again with the master's arguments
    ([cluster.fork] reuses [process.argv]), so every process of a run
    works with the configuration [cli_config]; the theorems at the end
    compose it with the runs of [Cluster] (through the output invariant
    of [ClusterOutputs]) and of [Sequential], from the file system as it
    is before the run, output folder missing or not. *)

From S2P Require Import Prelude Js NodePath NodeFs Extract Chunk Worker Cluster Sequential BatchSpec ClusterOutputs.
From Stdlib Require Import String.

Import NodePath NodeFs Extract ChunkArray Plan Worker Cluster Sequential BatchSpec ClusterOutputs.

Module Entry.

(** ** The module-level variables and [init]'s assignments *)

(** A value passed as [_callback]: a string (all a command line can
    give) or a function, named by a tag. *)
Inductive cbval := CbString (s : string) | CbFunction (tag : nat).

(** The module's own [() => { return; }]. *)
Definition noop_callback : cbval := CbFunction 0.

(** [_callback || callback]: the empty string is falsy, functions are
    truthy. *)
Definition cb_or (a : option cbval) (b : cbval) : cbval :=
  match a with
  | Some (CbString s) => if String.eqb s "" then b else CbString s
  | Some v => v
  | None => b
  end.

Record module_state := ModState { m_config : config; m_callback : cbval }.

Definition multicore_module : module_state := ModState multicore_defaults noop_callback.
Definition sequential_module : module_state := ModState sequential_defaults noop_callback.

(** The four arguments of [init]; [None] is [undefined]. *)
Record init_args := InitArgs {
  a_inputFolder : option string;
  a_outputFolder : option string;
  a_language : option string;
  a_callback : option cbval
}.

(** The four assignments at the top of [init]. *)
Definition init_assign (s : module_state) (a : init_args) : module_state :=
  ModState (configure (m_config s) (a_inputFolder a) (a_outputFolder a) (a_language a))
    (cb_or (a_callback a) (m_callback s)).

(** [process.argv[2]], ..., [process.argv[5]]. *)
Definition argv_args (argv : list string) : init_args :=
  InitArgs (argv !! 2) (argv !! 3) (argv !! 4) (CbString <$> argv !! 5).

(** [if (!module.parent) init(process.argv[2], ...)]: [None] when the
    script is loaded by another module, which then calls [init] itself. *)
Definition entry (parent : bool) (argv : list string) (s : module_state) : option module_state :=
  if parent then None else Some (init_assign s (argv_args argv)).

(** The configuration of a run from the command line. *)
Definition cli_config (s : module_state) (argv : list string) : config :=
  m_config (init_assign s (argv_args argv)).

(** Successive calls of the exported [init] on the same module. *)
Definition init_calls (s : module_state) (calls : list init_args) : module_state :=
  foldl init_assign s calls.

(** The arguments one call would need to have the effect of [earlier]
    followed by [later]: each truthy argument of [later], else the one
    of [earlier]. *)
Definition merge_args (later earlier : init_args) : init_args :=
  InitArgs (js_or_opt (a_inputFolder later) (a_inputFolder earlier))
    (js_or_opt (a_outputFolder later) (a_outputFolder earlier))
    (js_or_opt (a_language later) (a_language earlier))
    (match a_callback later with
     | Some (CbString s) => if String.eqb s "" then a_callback earlier else Some (CbString s)
     | Some v => Some v
     | None => a_callback earlier
     end).

(** ** [||] on the module variables *)

Lemma js_or_assoc a b d : js_or a (js_or b d) = js_or (js_or_opt a b) d.
Proof. destruct a as [s|]; [|done]. cbn [js_or_opt]. destruct (String.eqb s "") eqn:E; cbn [js_or]; by rewrite ?E. Qed.

Lemma js_or_opt_assoc a b d : js_or_opt a (js_or_opt b d) = js_or_opt (js_or_opt a b) d.
Proof. destruct a as [s|]; [|done]. cbn [js_or_opt]. destruct (String.eqb s "") eqn:E; cbn [js_or_opt]; by rewrite ?E. Qed.

Lemma cb_or_assoc a b d :
  cb_or a (cb_or b d) =
  cb_or (match a with
         | Some (CbString s) => if String.eqb s "" then b else Some (CbString s)
         | Some v => Some v
         | None => b
         end) d.
Proof. destruct a as [[s|]|]; [|done|done]. destruct (String.eqb s "") eqn:E; cbn [cb_or]; by rewrite ?E. Qed.

(** C36: The module's variables are shared by every call of the exported
    [init]: two calls have the effect of one call with, for each
    argument, the second call's value when it is truthy and the first
    call's otherwise; an argument left out of the second call keeps the
    first call's setting, not the script's default. *)
Theorem init_twice s earlier later :
  init_assign (init_assign s earlier) later = init_assign s (merge_args later earlier).
Proof.
  destruct s as [[i o [ct ocr sp img lang]] cb], earlier, later. unfold init_assign, configure.
  cbn. by rewrite !js_or_assoc, js_or_opt_assoc, cb_or_assoc.
Qed.

(** ** The output folder *)

(** [init]'s folder creation leaves a directory at the output folder
    (when no file is in the way) and changes no other location. *)
Lemma ensure_output_spec m p m1 :
  ensure_output m p = inl m1 -> (forall c, entry_at m (loc_of p) <> Some (File c)) ->
  entry_at m1 (loc_of p) = Some Dir /\ forall l, l <> loc_of p -> m1 !! l = m !! l.
Proof.
  unfold ensure_output, existsSync, mkdirSync. case_bool_decide as He.
  - intros [= <-] Hf. split; [|done]. destruct He as [[|c] Hx]; [done|by destruct (Hf c)].
  - destruct (entry_at m _) eqn:E; [by destruct He|]. destruct (check_parent _ _); [done|].
    intros [= <-] _. split.
    + unfold entry_at in *. destruct (loc_segs _); [done|]. by rewrite lookup_insert_eq.
    + intros l Hl. rewrite lookup_insert_ne; [done|congruence].
Qed.

Section created_folder.
Context `{Tika} (cfg : config) (cpus : nat) (lok : listing -> Prop).

Lemma master_boot_ensured l m0 m1 :
  ensure_output m0 (outputFolder cfg) = inl m1 -> ensure_output m1 (outputFolder cfg) = inl m1 ->
  master_boot cfg cpus l m0 = master_boot cfg cpus l m1.
Proof. intros H0 H1. unfold master_boot. by rewrite H0, H1. Qed.

(** Nothing happens before the master's start, whose first act is to
    create the output folder: past its first step, a run from [m0] is a
    run from the file system that has the folder. *)
Lemma run_from_ensured m0 m1 s :
  ensure_output m0 (outputFolder cfg) = inl m1 -> ensure_output m1 (outputFolder cfg) = inl m1 ->
  rtc (cstep cfg cpus lok) (init_sys m0) s ->
  s = init_sys m0 \/ rtc (cstep cfg cpus lok) (init_sys m1) s.
Proof.
  intros H0 H1 [->|(s1 & Hs & Hr)]%rtc_inv; [by left|right]. unfold init_sys in Hs.
  inversion Hs as [m lg l m' l' mp ws Hl Hb|m lg mp ws id ph m' lg' ph' Hid _]; subst.
  - eapply rtc_l; [|exact Hr]. eapply cs_master; [done|]. by rewrite <-(master_boot_ensured l m0 m1).
  - by rewrite lookup_empty in Hid.
Qed.
End created_folder.

(** ** From the command line to the outputs *)

Section cli.
Context `{Tika}.

(** C3: End to end, [node extract-multicore.js IN OUT LANG]: every process
    of the cluster takes its folders and [options.language] from the
    command line, the master creates [OUT] when it is missing, and once
    workers [1..w] have all exited with success each of the first
    [w * w] listed PDF files has at [OUT/<name>.txt] the text the
    service returns for it with the OCR language ["deu"], or what was
    there before when the extraction fails (every process listing the
    same files, file names pairwise different, no file in the way of
    [OUT], no output name a directory). *)
Theorem cli_multicore_outputs argv cpus files m0 m1 s f :
  0 < cpus -> NoDup (fileName <$> List.filter keep_multicore files) ->
  ensure_output m0 (js_or (argv !! 3) "./text/") = inl m1 ->
  (forall c, entry_at m0 (loc_of (js_or (argv !! 3) "./text/")) <> Some (File c)) ->
  (forall g, m0 !! loc_of (outputPath (js_or (argv !! 3) "./text/") g) <> Some Dir) ->
  rtc (cstep (cli_config multicore_module argv) cpus (same_listing files)) (init_sys m0) s ->
  (forall j, 1 <= j <= workerCount cpus (List.filter keep_multicore files) ->
             s_workers s !! j = Some (WExited 0)) ->
  f ∈ take (workerCount cpus (List.filter keep_multicore files) *
            workerCount cpus (List.filter keep_multicore files)) (List.filter keep_multicore files) ->
  s_fs s !! loc_of (join (js_or (argv !! 3) "./text/") (fileName f +ₛ ".txt")) =
    match tika_text f (TikaOptions "application/pdf" "deu" true true (js_or_opt (argv !! 4) None)) with
    | TikaText t => Some (File t)
    | TikaFail _ => m0 !! loc_of (join (js_or (argv !! 3) "./text/") (fileName f +ₛ ".txt"))
    end.
Proof.
  set (cfg := cli_config multicore_module argv).
  intros Hc Hnd He Hnf Htg Hr Hall Hf.
  change (js_or (argv !! 3) "./text/") with (outputFolder cfg) in *.
  destruct (ensure_output_spec _ _ _ He Hnf) as [Hd Hframe].
  assert (Htg1 : forall g, m1 !! loc_of (outputPath (outputFolder cfg) g) <> Some Dir).
  { intros g. rewrite Hframe; [apply Htg|apply target_ne_output]. }
  destruct (run_from_ensured cfg cpus _ m0 m1 s He (ensure_output_dir cfg m1 Hd) Hr) as [->|Hr1].
  - destruct (workerCount cpus (List.filter keep_multicore files)) as [|w]; [simpl in Hf; set_solver|].
    specialize (Hall 1 ltac:(lia)). simpl in Hall. by rewrite lookup_empty in Hall.
  - pose proof (exited_outputs cfg cpus files m1 s f
                  (out_inv_reachable cfg cpus files m1 Hc Hnd Hd Htg1 s Hr1) Hall Hf) as Ho.
    unfold expected in Ho. rewrite Hframe in Ho by apply target_ne_output. exact Ho.
Qed.

(** C11: End to end, [node extract.js IN OUT LANG]: the script terminates
    (with fuel one more than the number of listed PDF files), creating
    [OUT] when it is missing, and each listed PDF file has at
    [OUT/<name>.txt] the text the service returns for it with the OCR
    language ["eng"], or what was there before when the extraction
    fails (file names pairwise different, no file in the way of [OUT],
    no output name a directory). *)
Theorem cli_sequential_outputs argv files m0 m1 f :
  NoDup (fileName <$> List.filter keep_sequential files) ->
  ensure_output m0 (js_or (argv !! 3) "./text/") = inl m1 ->
  (forall c, entry_at m0 (loc_of (js_or (argv !! 3) "./text/")) <> Some (File c)) ->
  (forall g, m0 !! loc_of (outputPath (js_or (argv !! 3) "./text/") g) <> Some Dir) ->
  f ∈ List.filter keep_sequential files ->
  exists m' l,
    main (cli_config sequential_module argv) (S (List.length (List.filter keep_sequential files)))
      (inl files) m0 = Some (m', l) /\
    m' !! loc_of (join (js_or (argv !! 3) "./text/") (fileName f +ₛ ".txt")) =
      match tika_text f (TikaOptions "application/pdf" "eng" true true (js_or_opt (argv !! 4) None)) with
      | TikaText t => Some (File t)
      | TikaFail _ => m0 !! loc_of (join (js_or (argv !! 3) "./text/") (fileName f +ₛ ".txt"))
      end.
Proof.
  set (cfg := cli_config sequential_module argv).
  intros Hnd He Hnf Htg Hf. change (js_or (argv !! 3) "./text/") with (outputFolder cfg) in *.
  destruct (ensure_output_spec _ _ _ He Hnf) as [Hd Hframe].
  destruct (processFiles_fs cfg (List.filter keep_sequential files) m1 []) as [l Hp].
  exists (save_all cfg m1 (rev (List.filter keep_sequential files))), l. split.
  - unfold main. by rewrite He.
  - rewrite (save_all_at cfg m1 _ f).
    + rewrite Hframe by apply target_ne_output. done.
    + by rewrite <-Permutation_rev.
    + by rewrite <-Permutation_rev.
    + done.
    + rewrite entry_at_target, Hframe by apply target_ne_output. apply Htg.
Qed.

(** C12: End to end, [node extract-multicore.js IN OUT LANG] writes
    nowhere but [OUT] and the output files: in every state of the run,
    every location other than the output folder [OUT] and the locations
    [OUT/<name>.txt] of the listed PDF files holds what it held before
    the run, the folder creation included (every process listing the same
    files, file names pairwise different, no file in the way of [OUT], no
    output name a directory). *)
Theorem cli_multicore_frame argv cpus files m0 m1 s l :
  0 < cpus -> NoDup (fileName <$> List.filter keep_multicore files) ->
  ensure_output m0 (js_or (argv !! 3) "./text/") = inl m1 ->
  (forall c, entry_at m0 (loc_of (js_or (argv !! 3) "./text/")) <> Some (File c)) ->
  (forall g, m0 !! loc_of (outputPath (js_or (argv !! 3) "./text/") g) <> Some Dir) ->
  rtc (cstep (cli_config multicore_module argv) cpus (same_listing files)) (init_sys m0) s ->
  l <> loc_of (js_or (argv !! 3) "./text/") ->
  (forall f, f ∈ List.filter keep_multicore files ->
             l <> loc_of (join (js_or (argv !! 3) "./text/") (fileName f +ₛ ".txt"))) ->
  s_fs s !! l = m0 !! l.
Proof.
  set (cfg := cli_config multicore_module argv).
  intros Hc Hnd He Hnf Htg Hr Hlo Hlf.
  change (js_or (argv !! 3) "./text/") with (outputFolder cfg) in *.
  destruct (ensure_output_spec _ _ _ He Hnf) as [Hd Hframe].
  assert (Htg1 : forall g, m1 !! loc_of (outputPath (outputFolder cfg) g) <> Some Dir).
  { intros g. rewrite Hframe; [apply Htg|apply target_ne_output]. }
  destruct (run_from_ensured cfg cpus _ m0 m1 s He (ensure_output_dir cfg m1 Hd) Hr) as [->|Hr1];
    [done|].
  rewrite <-(Hframe l Hlo).
  apply (out_inv_reachable cfg cpus files m1 Hc Hnd Hd Htg1 s Hr1). exact Hlf.
Qed.

End cli.

(** ** Instances *)

#[local] Existing Instance Worker.stub_tika.

Lemma cli_multicore_outputs_witness :
  exists s, rtc (cstep (cli_config multicore_module ["node"; "extract-multicore.js"; "in"; "out"; "fra"])
                   2 (same_listing five)) (init_sys ∅) s /\
    s_fs s !! loc_of (outputPath "out" "in/a.pdf") = Some (File "TEXT:a.pdf").
Proof.
  eexists. split; [run_five|].
  etrans; [eapply (cli_multicore_outputs ["node"; "extract-multicore.js"; "in"; "out"; "fra"]
                     2 five ∅ stub_fs _ "in/a.pdf")|reflexivity].
  - lia.
  - decide_in.
  - reflexivity.
  - intros c. vm_compute. discriminate.
  - intros g. by rewrite lookup_empty.
  - run_five.
  - intros j Hj. vm_compute in Hj. destruct j as [|[|[|]]]; [lia|reflexivity|reflexivity|lia].
  - decide_in.
Defined.

Lemma cli_sequential_outputs_witness :
  exists m' l,
    main (cli_config sequential_module ["node"; "extract.js"; "in"; "out"; "fra"]) 3
      (inl ["in/a.pdf"; "in/b.pdf"]) ∅ = Some (m', l) /\
    m' !! loc_of (outputPath "out" "in/a.pdf") = Some (File "TEXT:a.pdf").
Proof.
  edestruct (cli_sequential_outputs ["node"; "extract.js"; "in"; "out"; "fra"]
               ["in/a.pdf"; "in/b.pdf"] ∅ stub_fs "in/a.pdf") as (m' & l & Hm & Hat).
  - decide_in.
  - reflexivity.
  - intros c. vm_compute. discriminate.
  - intros g. by rewrite lookup_empty.
  - decide_in.
  - exists m', l. split; [exact Hm|]. etrans; [exact Hat|reflexivity].
Defined.

Lemma cli_multicore_frame_witness :
  exists s, rtc (cstep (cli_config multicore_module ["node"; "extract-multicore.js"; "in"; "out"; "fra"])
                   2 (same_listing five)) (init_sys {[Loc false ["in"; "a.pdf"] := File "A"]}) s /\
    s_fs s !! Loc false ["in"; "a.pdf"] = Some (File "A").
Proof.
  eexists. split; [run_five|].
  etrans; [eapply (cli_multicore_frame ["node"; "extract-multicore.js"; "in"; "out"; "fra"]
                     2 five {[Loc false ["in"; "a.pdf"] := File "A"]}
                     (<[Loc false ["out"] := Dir]> {[Loc false ["in"; "a.pdf"] := File "A"]}))
          |reflexivity].
  - lia.
  - decide_in.
  - reflexivity.
  - intros c. vm_compute. discriminate.
  - intros g. rewrite lookup_singleton_ne; [done|]. intros Heq.
    apply (f_equal (fun l => head (loc_segs l))) in Heq. rewrite loc_outputPath in Heq.
    vm_compute in Heq. congruence.
  - run_five.
  - vm_compute. discriminate.
  - intros f _ Heq. change (loc_of (join _ (fileName f +ₛ ".txt"))) with (loc_of (outputPath "out" f)) in Heq.
    apply (f_equal (fun l => head (loc_segs l))) in Heq. rewrite loc_outputPath in Heq.
    vm_compute in Heq. congruence.
Defined.

Lemma init_twice_witness :
  init_calls multicore_module
    [InitArgs (Some "in") (Some "out") (Some "fra") None; InitArgs None (Some "") None None] =
  init_assign multicore_module (InitArgs (Some "in") (Some "out") (Some "fra") None).
Proof. unfold init_calls. cbn [foldl]. rewrite init_twice. reflexivity. Defined.

End Entry.
